(** * Duplicate-image finder and prune script: a shallow embedding

    The development follows the two scripts of the repository:

    - [main.py]: class [DuplicateImageFinder] ([calculate_md5],
      [is_image_file], [collect_image_files], [process_images],
      [find_duplicates], [get_sorted_md5_list], [print_results], [run])
      and [main];
    - [delete_file.py]: the prune script, from the parsed JSON report on.

    The Python standard library is modelled where the scripts call it:
    [hashlib.md5] (module [Hashlib], after RFC 1321), binary files
    (module [Io]), insertion-ordered dictionaries (module [PyDict]), the
    values of [json.loads] and the operators applied to them (module
    [Py]), [os.path.exists] and [os.remove] (modules [Os] and [Posix]),
    [pathlib] and [os.path.join] (module [Pathlib]), [os.walk] (module
    [OsWalk]).  The thread pool of [concurrent.futures] is a transition
    system inside [DuplicateImageFinder]: its interleavings are the
    schedules.

    Conventions.  Output is a list of messages, one constructor per
    [print] of the scripts or per block of prints that always come
    together.  The files are not modified while they are scanned.  What
    the operating system refuses to unlink is a property of the disk and
    does not change while the prune script runs or between two runs.

    Two levels.  The modules [DuplicateImageFinder], [Scan], [Os] and
    [DeleteFile] describe the scripts on a plain machine: the terminal
    can print every name, so that no [print] raises, and every path
    string names a directory entry of its own.  The modules [Posix],
    [Script] and [Terminal] take the machine as a parameter: a [print]
    raises [UnicodeEncodeError] on a name that [sys.stdout] cannot
    encode, several path strings may denote one entry, links are
    followed, and a refused removal raises the error of its cause.  On
    the plain machine the script of [Script] is the script of
    [DeleteFile] (lemma [prune_plain]). *)

From Stdlib Require Import ZArith Strings.Byte Ascii String List Permutation Lia.
From stdpp Require Import base option list gmap strings sorting.
From Equations Require Import Equations.
Import ListNotations.

Local Open Scope string_scope.
Local Open Scope list_scope.
Local Open Scope nat_scope.

(** ** hashlib.md5

  The accumulator object of [hashlib.md5()]: [update] absorbs bytes,
  [hexdigest] finalises a copy and prints it in lowercase hexadecimal.
  32-bit words are kept in [Z] with the wrap-around written out. *)
Module Hashlib.

Local Open Scope Z_scope.

Definition mask32 : Z := 0xffffffff.

Definition add32 (x y : Z) : Z := Z.land (x + y) mask32.

Definition not32 (x : Z) : Z := Z.lxor x mask32.

Definition rotl32 (x n : Z) : Z :=
  Z.land (Z.lor (Z.shiftl x n) (Z.shiftr x (32 - n))) mask32.

(** Per-round shift amounts. *)
Definition shifts : list Z :=
  [ 7; 12; 17; 22; 7; 12; 17; 22; 7; 12; 17; 22; 7; 12; 17; 22;
    5;  9; 14; 20; 5;  9; 14; 20; 5;  9; 14; 20; 5;  9; 14; 20;
    4; 11; 16; 23; 4; 11; 16; 23; 4; 11; 16; 23; 4; 11; 16; 23;
    6; 10; 15; 21; 6; 10; 15; 21; 6; 10; 15; 21; 6; 10; 15; 21 ].

(** [floor (2^32 * abs (sin (i + 1)))] for [i = 0 .. 63]. *)
Definition sines : list Z :=
  [ 0xd76aa478; 0xe8c7b756; 0x242070db; 0xc1bdceee;
    0xf57c0faf; 0x4787c62a; 0xa8304613; 0xfd469501;
    0x698098d8; 0x8b44f7af; 0xffff5bb1; 0x895cd7be;
    0x6b901122; 0xfd987193; 0xa679438e; 0x49b40821;
    0xf61e2562; 0xc040b340; 0x265e5a51; 0xe9b6c7aa;
    0xd62f105d; 0x02441453; 0xd8a1e681; 0xe7d3fbc8;
    0x21e1cde6; 0xc33707d6; 0xf4d50d87; 0x455a14ed;
    0xa9e3e905; 0xfcefa3f8; 0x676f02d9; 0x8d2a4c8a;
    0xfffa3942; 0x8771f681; 0x6d9d6122; 0xfde5380c;
    0xa4beea44; 0x4bdecfa9; 0xf6bb4b60; 0xbebfbc70;
    0x289b7ec6; 0xeaa127fa; 0xd4ef3085; 0x04881d05;
    0xd9d4d039; 0xe6db99e5; 0x1fa27cf8; 0xc4ac5665;
    0xf4292244; 0x432aff97; 0xab9423a7; 0xfc93a039;
    0x655b59c3; 0x8f0ccc92; 0xffeff47d; 0x85845dd1;
    0x6fa87e4f; 0xfe2ce6e0; 0xa3014314; 0x4e0811a1;
    0xf7537e82; 0xbd3af235; 0x2ad7d2bb; 0xeb86d391 ].

(** The four chaining words A, B, C, D. *)
Record words := Words { wa : Z; wb : Z; wc : Z; wd : Z }.

Definition initial_words : words :=
  Words 0x67452301 0xefcdab89 0x98badcfe 0x10325476.

Definition byte_to_Z (b : byte) : Z := Z.of_N (Byte.to_N b).

Definition Z_to_byte (x : Z) : byte :=
  match Byte.of_N (Z.to_N (Z.land x 0xff)) with
  | Some b => b
  | None => x00
  end.

(** Little-endian decoding of a block into 32-bit words. *)
Fixpoint le_words (bs : list byte) : list Z :=
  match bs with
  | b0 :: b1 :: b2 :: b3 :: rest =>
      (byte_to_Z b0 + Z.shiftl (byte_to_Z b1) 8
       + Z.shiftl (byte_to_Z b2) 16 + Z.shiftl (byte_to_Z b3) 24)
      :: le_words rest
  | _ => []
  end.

Definition le_bytes (n : nat) (x : Z) : list byte :=
  map (fun i => Z_to_byte (Z.shiftr x (8 * Z.of_nat i))) (seq 0 n).

Definition round (m : list Z) (w : words) (i : nat) : words :=
  let zi := Z.of_nat i in
  let '(f, g) :=
    if zi <? 16 then
      (Z.lor (Z.land (wb w) (wc w)) (Z.land (not32 (wb w)) (wd w)), zi)
    else if zi <? 32 then
      (Z.lor (Z.land (wd w) (wb w)) (Z.land (not32 (wd w)) (wc w)),
       (5 * zi + 1) mod 16)
    else if zi <? 48 then
      (Z.lxor (wb w) (Z.lxor (wc w) (wd w)), (3 * zi + 5) mod 16)
    else
      (Z.lxor (wc w) (Z.lor (wb w) (not32 (wd w))), (7 * zi) mod 16) in
  let f' := add32 (add32 (add32 f (wa w)) (nth i sines 0))
                  (nth (Z.to_nat g) m 0) in
  Words (wd w) (add32 (wb w) (rotl32 f' (nth i shifts 0))) (wb w) (wc w).

(** One 64-byte block folded into the chaining words. *)
Definition compress (w : words) (block : list byte) : words :=
  let r := fold_left (round (le_words block)) (seq 0 64) w in
  Words (add32 (wa w) (wa r)) (add32 (wb w) (wb r))
        (add32 (wc w) (wc r)) (add32 (wd w) (wd r)).

(** The accumulator: chaining words, the bytes of the open block and the
    number of bytes absorbed so far. *)
Record md5 := Md5 { chain : words; pending : list byte; absorbed : Z }.

(** [hashlib.md5()] *)
Definition new : md5 := Md5 initial_words [] 0.

Definition absorb (h : md5) (b : byte) : md5 :=
  let block := pending h ++ [b] in
  if (length block =? 64)%nat
  then Md5 (compress (chain h) block) [] (absorbed h + 1)
  else Md5 (chain h) block (absorbed h + 1).

(** [h.update(data)] *)
Definition update (h : md5) (data : list byte) : md5 :=
  fold_left absorb data h.

(** Padding: a single 1 bit, zeros up to 56 mod 64, then the bit length
    on 64 bits, little-endian. *)
Definition padding (h : md5) : list byte :=
  let used := Z.of_nat (length (pending h)) in
  let zeros := Z.to_nat ((55 - used) mod 64) in
  x80 :: repeat x00 zeros ++ le_bytes 8 (Z.land (8 * absorbed h) 0xffffffffffffffff).

(** [h.digest()]: the 16 bytes of the finalised chaining words. *)
Definition digest (h : md5) : list byte :=
  let w := chain (update h (padding h)) in
  le_bytes 4 (wa w) ++ le_bytes 4 (wb w) ++ le_bytes 4 (wc w) ++ le_bytes 4 (wd w).

Definition hex_alphabet : list ascii :=
  list_ascii_of_string "0123456789abcdef".

Definition hex_digit (n : N) : ascii := nth (N.to_nat n) hex_alphabet "0"%char.

Fixpoint hex_of_bytes (bs : list byte) : string :=
  match bs with
  | [] => EmptyString
  | b :: rest =>
      String (hex_digit (N.div (Byte.to_N b) 16))
        (String (hex_digit (N.modulo (Byte.to_N b) 16)) (hex_of_bytes rest))
  end.

(** [h.hexdigest()] *)
Definition hexdigest (h : md5) : string := hex_of_bytes (digest h).

(** [hashlib.md5(data).hexdigest()]: the digest of a whole byte string. *)
Definition md5_hex (data : list byte) : string := hexdigest (update new data).

End Hashlib.

(** ** Python exceptions met by the two scripts *)
Inductive exn :=
| FileNotFoundError
| PermissionError
| IsADirectoryError
| OSError_EIO
| TypeError
| OverflowError
| KeyError
| UnicodeEncodeError.

(** [isinstance(e, OSError)] *)
Definition is_OSError (e : exn) : bool :=
  match e with
  | FileNotFoundError | PermissionError | IsADirectoryError | OSError_EIO => true
  | TypeError | OverflowError | KeyError | UnicodeEncodeError => false
  end.

(** ** Binary files opened for reading *)
Module Io.

(** A regular file: its bytes, whether the process may open it for
    reading, and the offset (if any) at which the device fails. *)
Record file := File { contents : list byte; may_read : bool; fault : option nat }.

(** What a path leads to: a directory, a regular file, or something
    [open] refuses with the error [e] (too many links, a name the file
    system cannot encode, a device that is not there). *)
Inductive node :=
| Directory
| Regular (f : file)
| Unopenable (e : exn).

(** An open handle: the bytes not yet delivered and the number of bytes
    that can still be delivered before the device fails. *)
Record handle := Handle { unread : list byte; fault_in : option nat }.

(** [open(path, "rb")] *)
Definition open_rb (fs : gmap string node) (path : string) : exn + handle :=
  match fs !! path with
  | None => inl FileNotFoundError
  | Some Directory => inl IsADirectoryError
  | Some (Regular f) =>
      if may_read f then inr (Handle (contents f) (fault f))
      else inl PermissionError
  | Some (Unopenable e) => inl e
  end.

(** [f.read(n)]: at most [n] bytes, none at end of file. *)
Definition read (n : nat) (f : handle) : exn + (list byte * handle) :=
  let chunk := take n (unread f) in
  match fault_in f with
  | Some k =>
      if k <? length chunk then inl OSError_EIO
      else inr (chunk, Handle (drop n (unread f)) (Some (k - length chunk)))
  | None => inr (chunk, Handle (drop n (unread f)) None)
  end.

(** The chunks that [iter] yields from [f.read(n)], up to the empty one, on
    a file whose bytes are all delivered: successive blocks of [n] bytes, the last one
    possibly shorter. *)
Equations? chunks (n : nat) (data : list byte) : list (list byte)
  by wf (length data) lt :=
  chunks 0 _ := [];
  chunks (S n) [] := [];
  chunks (S n) (b :: data) := (b :: take n data) :: chunks (S n) (drop n data).
Proof. rewrite length_drop. lia. Qed.

(** A handle that will deliver all its unread bytes. *)
Definition deliverable (f : handle) : Prop :=
  match fault_in f with
  | Some k => length (unread f) ≤ k
  | None => True
  end.

(** A file that opens and whose bytes can all be read. *)
Definition intact (f : file) : bool :=
  may_read f
  && match fault f with
     | None => true
     | Some k => length (contents f) <=? k
     end.

End Io.

(** ** Python dictionaries

  A [dict] keeps its items in insertion order and its keys are unique
  ([wf]).  Keys are strings in both scripts. *)
Module PyDict.

Abbreviation dict V := (list (string * V)) (only parsing).

Section Ops.
Context {V : Type}.

Definition keys (d : dict V) : list string := d.*1.

(** The invariant of a Python dictionary: no key occurs twice. *)
Definition wf (d : dict V) : Prop := NoDup (keys d).

(** [d.get(k)] *)
Fixpoint get (k : string) (d : dict V) : option V :=
  match d with
  | [] => None
  | (k', v) :: d' => if String.eqb k' k then Some v else get k d'
  end.

(** [k in d] *)
Definition contains (k : string) (d : dict V) : bool :=
  match get k d with Some _ => true | None => false end.

(** [d[k] = v]: an existing key keeps its position, a new key goes last. *)
Fixpoint set (k : string) (v : V) (d : dict V) : dict V :=
  match d with
  | [] => [(k, v)]
  | (k', v') :: d' =>
      if String.eqb k' k then (k, v) :: d' else (k', v') :: set k v d'
  end.

(** [len(d)] *)
Definition len (d : dict V) : nat := length d.

End Ops.

(** [d[k]] on a [defaultdict(list)]: a missing key is first bound to [[]]. *)
Definition getitem_default {A} (k : string) (d : dict (list A))
  : list A * dict (list A) :=
  match get k d with
  | Some l => (l, d)
  | None => ([], set k [] d)
  end.

(** [d[k].append(x)] on a [defaultdict(list)]. *)
Definition append_item {A} (k : string) (x : A) (d : dict (list A))
  : dict (list A) :=
  let '(l, d') := getitem_default k d in set k (l ++ [x]) d'.

(** Number of elements over all the lists of a dictionary of lists. *)
Definition total {A} (d : dict (list A)) : nat :=
  sum_list (map (fun kv => length kv.2) d).

End PyDict.

(** ** main.py: class DuplicateImageFinder *)
Module DuplicateImageFinder.

Import Io PyDict.

(** What the methods print. *)
Inductive msg :=
| MsgMd5Failed (file_path : string) (e : exn)
| MsgProcessing (n : nat)
| MsgProgress (completed n : nat)
| MsgAllProcessed
| MsgFoundGroups (n : nat)
| MsgGroup (md5_value : string) (paths : list string)
| MsgNoDuplicates.

(** The value a worker returns: [(md5_value, file_path)]. *)
Definition result : Type := option string * string.

(** The loop [for chunk in iter(lambda: f.read(4096), <empty bytes>)] with
    its body [hash_md5.update(chunk)]. *)
Equations? read_chunks (f : handle) (hash_md5 : Hashlib.md5)
  : exn + Hashlib.md5 by wf (length (unread f)) lt :=
  read_chunks f hash_md5 with Equations.Prop.Logic.inspect (read 4096 f) => {
    | exist _ (inl e) _ => inl e
    | exist _ (inr ([], _)) _ => inr hash_md5
    | exist _ (inr (b :: chunk, f')) Hr =>
        read_chunks f' (Hashlib.update hash_md5 (b :: chunk)) }.
Proof.
  revert Hr. generalize 4096. intros n Hr. unfold read in Hr.
  assert (b :: chunk = take n (unread f) ∧ unread f' = drop n (unread f))
    as [Hc ->].
  { destruct (fault_in f); [destruct (_ <? _); [discriminate|]|];
      injection Hr as <- <-; split; reflexivity. }
  destruct n as [|n]; [discriminate|].
  destruct (unread f) as [|x u]; [discriminate|].
  cbn [drop length]. rewrite length_drop. lia.
Qed.

(** [calculate_md5(self, file_path)]: the returned pair and what is
    printed.  The [try] covers opening, reading and finalising. *)
Definition calculate_md5 (fs : gmap string node) (file_path : string)
  : result * list msg :=
  let attempt :=
    match open_rb fs file_path with
    | inl e => inl e
    | inr f =>
        match read_chunks f Hashlib.new with
        | inl e => inl e
        | inr hash_md5 => inr (Hashlib.hexdigest hash_md5)
        end
    end in
  match attempt with
  | inr md5_value => ((Some md5_value, file_path), [])
  | inl e => ((None, file_path), [MsgMd5Failed file_path e])
  end.

(** The value of the future made for [file_path]. *)
Definition outcome (fs : gmap string node) (file_path : string) : result :=
  (calculate_md5 fs file_path).1.

(** The fingerprint [calculate_md5] returns for [file_path], [None] when it
    fails. *)
Definition fingerprint (fs : gmap string node) (file_path : string)
  : option string := (outcome fs file_path).1.

(** Truth value of [md5_value] in [if md5_value:]. *)
Definition truthy (md5_value : option string) : bool :=
  match md5_value with
  | None => false
  | Some s => negb (String.eqb s EmptyString)
  end.

(** The instance attributes that carry data: [max_workers], taken as the
    number of threads the executor is created with (for [None] the
    library picks a positive default), and [md5_dict]. *)
Record finder := Finder {
  max_workers : nat;
  md5_dict : dict (list string)
}.

(** [DuplicateImageFinder(max_workers)] *)
Definition init (max_workers : nat) : finder := Finder max_workers [].

(** *** process_images

    All paths are submitted to the executor, then the main thread
    consumes [as_completed].  A state holds the executor's work queue,
    the tasks being run by a worker thread, the futures that are done
    and not yet handed out by [as_completed], and the variables of the
    main thread.  [yielded] is the history of the values of
    [future.result()], kept for the statements only. *)
Record state := State {
  queue : list string;
  running : list string;
  finished : list result;
  yielded : list result;
  groups : dict (list string);
  completed : nat;
  stdout : list msg
}.

(** [if md5_value: self.md5_dict[md5_value].append(file_path)] *)
Definition add_to_group (r : result) (groups : dict (list string))
  : dict (list string) :=
  let '(md5_value, file_path) := r in
  match md5_value with
  | Some key => if truthy md5_value then append_item key file_path groups
                else groups
  | None => groups
  end.

(** The body of the [for future in as_completed(...)] loop. *)
Definition consume (total_files : nat) (r : result) (st : state) : state :=
  let completed' := completed st + 1 in
  State (queue st) (running st) (finished st) (yielded st ++ [r])
        (add_to_group r (groups st)) completed'
        (if completed' mod 100 =? 0
         then stdout st ++ [MsgProgress completed' total_files]
         else stdout st).

(** What can happen next: an idle worker takes the oldest queued task, a
    running task returns, or [as_completed] hands a done future to the
    loop. *)
Inductive event :=
| Start
| Finish (i : nat)
| Yield (i : nat).

Definition step (workers : nat) (fs : gmap string node) (total_files : nat)
    (st : state) (ev : event) : option state :=
  match ev with
  | Start =>
      match queue st with
      | file_path :: rest =>
          if length (running st) <? workers
          then Some (State rest (running st ++ [file_path]) (finished st)
                           (yielded st) (groups st) (completed st) (stdout st))
          else None
      | [] => None
      end
  | Finish i =>
      match running st !! i with
      | Some file_path =>
          let '(r, out) := calculate_md5 fs file_path in
          Some (State (queue st) (delete i (running st)) (finished st ++ [r])
                      (yielded st) (groups st) (completed st) (stdout st ++ out))
      | None => None
      end
  | Yield i =>
      match finished st !! i with
      | Some r =>
          Some (consume total_files r
                  (State (queue st) (running st) (delete i (finished st))
                         (yielded st) (groups st) (completed st) (stdout st)))
      | None => None
      end
  end.

(** A schedule is run event by event; an event that is not enabled makes
    the schedule invalid. *)
Fixpoint run (workers : nat) (fs : gmap string node) (total_files : nat)
    (schedule : list event) (st : state) : option state :=
  match schedule with
  | [] => Some st
  | ev :: rest =>
      match step workers fs total_files st ev with
      | Some st' => run workers fs total_files rest st'
      | None => None
      end
  end.

(** The loop is left when every future has been handed out. *)
Definition exhausted (st : state) : bool :=
  match queue st, running st, finished st with
  | [], [], [] => true
  | _, _, _ => false
  end.

Definition submitted (self : finder) (image_files : list string) : state :=
  State image_files [] [] [] (md5_dict self) 0
        [MsgProcessing (length image_files)].

(** [process_images(self, image_files)] under a schedule: the finder
    afterwards, the history of results and the output; [None] when the
    schedule is not a complete execution, and when the executor cannot be
    created: [ThreadPoolExecutor(max_workers=0)] raises [ValueError]. *)
Definition process_images (fs : gmap string node) (self : finder)
    (image_files : list string) (schedule : list event)
  : option (finder * list result * list msg) :=
  if max_workers self =? 0 then None
  else
    match run (max_workers self) fs (length image_files) schedule
              (submitted self image_files) with
    | Some st =>
        if exhausted st
        then Some (Finder (max_workers self) (groups st), yielded st,
                   stdout st ++ [MsgAllProcessed])
        else None
    | None => None
    end.

(** The schedule of a single worker followed step by step: start, wait
    for the result, consume it. *)
Definition sequential (image_files : list string) : list event :=
  concat (map (fun _ => [Start; Finish 0; Yield 0]) image_files).



(** The input paths whose digest fails, and those filed under [key]. *)
Definition failed (fs : gmap string node) (image_files : list string)
  : list string :=
  filter (fun file_path => fingerprint fs file_path = None) image_files.

Definition filed_under (fs : gmap string node) (key : string)
    (image_files : list string) : list string :=
  filter (fun file_path => fingerprint fs file_path = Some key) image_files.

(** The results of all the futures of a state, whatever their stage. *)
Definition futures (fs : gmap string node) (st : state) : list result :=
  (outcome fs <$> queue st) ++ (outcome fs <$> running st)
  ++ finished st ++ yielded st.

(** Results as [calculate_md5] returns them: a fingerprint is never the
    empty string. *)
Definition sound (results : list result) : Prop :=
  Forall (fun r => ∀ key, r.1 = Some key → truthy (Some key) = true) results.

(** The loop of the main thread over a sequence of results. *)
Definition aggregate (results : list result) (groups : dict (list string))
  : dict (list string) :=
  fold_left (fun groups r => add_to_group r groups) results groups.

(** Reading of "the aggregator exposes the list of failed paths": some
    function of the finder left by [process_images] gives the failed
    paths. *)
Definition exposes_failure_list : Prop :=
  ∃ failure_list : finder → list string,
    ∀ fs workers image_files schedule self' rs out,
      process_images fs (init workers) image_files schedule
      = Some (self', rs, out) →
      failure_list self' ≡ₚ failed fs image_files.

(** [find_duplicates(self)]: the dict comprehension. *)
Definition find_duplicates (self : finder) : dict (list string) :=
  fold_left
    (fun duplicates '(md5_value, paths) =>
       if 1 <? length paths then set md5_value paths duplicates
       else duplicates)
    (md5_dict self) [].

(** The second half of [print_results(self)]: the duplicate groups. *)
Definition print_results (self : finder) : list msg :=
  let duplicates := find_duplicates self in
  match duplicates with
  | _ :: _ =>
      MsgFoundGroups (len duplicates)
      :: map (fun '(md5_value, paths) => MsgGroup md5_value paths) duplicates
  | [] => [MsgNoDuplicates]
  end.

End DuplicateImageFinder.

(** ** Values produced by [json.loads] *)
#[warnings="-register-all"]
Inductive value :=
| VNone
| VBool (b : bool)
| VInt (n : Z)
| VFloat (bits : Z)        (* the 64 bits of an IEEE 754 double *)
| VStr (s : string)
| VList (l : list value)
| VDict (items : list (string * value)).

Module Py.

(** [bool(v)] *)
Definition truthy (v : value) : bool :=
  match v with
  | VNone => false
  | VBool b => b
  | VInt n => negb (n =? 0)%Z
  | VFloat bits => negb (Z.land bits 0x7fffffffffffffff =? 0)%Z
  | VStr s => negb (String.eqb s EmptyString)
  | VList l => match l with [] => false | _ :: _ => true end
  | VDict items => match items with [] => false | _ :: _ => true end
  end.

(** [isinstance(v, list)] *)
Definition isinstance_list (v : value) : bool :=
  match v with VList _ => true | _ => false end.

(** [isinstance(v, dict)] *)
Definition isinstance_dict (v : value) : bool :=
  match v with VDict _ => true | _ => false end.

(** [sub in s] on strings. *)
Fixpoint substring_of (sub s : string) : bool :=
  String.prefix sub s
  || match s with
     | EmptyString => false
     | String _ s' => substring_of sub s'
     end.

(** [key in v] for a string [key]. *)
Definition contains (key : string) (v : value) : exn + bool :=
  match v with
  | VDict items => inr (PyDict.contains key items)
  | VList l =>
      inr (existsb (fun x => match x with
                             | VStr s => String.eqb s key
                             | _ => false
                             end) l)
  | VStr s => inr (substring_of key s)
  | VNone | VBool _ | VInt _ | VFloat _ => inl TypeError
  end.

(** [v[key]] for a string [key]. *)
Definition getitem (v : value) (key : string) : exn + value :=
  match v with
  | VDict items =>
      match PyDict.get key items with
      | Some x => inr x
      | None => inl KeyError
      end
  | _ => inl TypeError
  end.

End Py.

(** ** The part of [os] used by the prune script, on a plain machine

  Every path string names a directory entry of its own, and a refused
  removal raises [PermissionError]; module [Posix] below resolves the
  names and tells the causes apart.  [existing] are the entries present,
  [locked] those the operating system refuses to unlink (permissions,
  directories, busy files), [open_fds] the open file descriptors of the
  process. *)
Module Os.

Record world := World {
  existing : gset string;
  locked : gset string;
  open_fds : gset Z
}.

Definition fits_c_int (n : Z) : bool := ((-2147483648 <=? n) && (n <=? 2147483647))%Z.

(** [os.path.exists(v)]: [os.stat] failures of kind [OSError] or
    [ValueError] give [False]; an integer is taken as a file descriptor;
    other types raise [TypeError]. *)
Definition path_exists (w : world) (v : value) : exn + bool :=
  match v with
  | VStr path => inr (bool_decide (path ∈ existing w))
  | VInt n =>
      if fits_c_int n then inr (bool_decide (n ∈ open_fds w))
      else inl OverflowError
  | VBool b => inr (bool_decide ((if b then 1%Z else 0%Z) ∈ open_fds w))
  | VNone | VFloat _ | VList _ | VDict _ => inl TypeError
  end.

(** [os.remove(v)] *)
Definition remove (w : world) (v : value) : exn + world :=
  match v with
  | VStr path =>
      if bool_decide (path ∈ existing w) then
        if bool_decide (path ∈ locked w) then inl PermissionError
        else inr (World (existing w ∖ {[path]}) (locked w) (open_fds w))
      else inl FileNotFoundError
  | _ => inl TypeError
  end.

End Os.

(** ** delete_file.py, from the parsed report [data] on, on a plain machine

    No [print] raises here; module [Script] below is the script where
    they may. *)
Module DeleteFile.

Import PyDict.

(** [new_json_structure] *)
Record report := Report {
  found_duplicates_count : nat;
  duplicates : dict (list value)
}.

(** What the script prints. *)
Inductive msg :=
| WarnInvalidList (md5_hash : string)
| Deleted (file_to_delete : value)
| WarnMissing (file_to_delete : value)
| ErrOS (file_to_delete : value) (e : exn)
| ErrUnknown (file_to_delete : value) (e : exn)
| WarnNoDuplicates
| MsgScanned (processed_md5_count : nat)
| MsgKept (n : nat)
| MsgDeletedTotal (files_deleted_count : nat)
| MsgJson (new_json_structure : report)
| ErrUnexpected (e : exn).

(** The variables of the script together with the file system. *)
Record vars := Vars {
  world : Os.world;
  kept_files_data : dict (list value);
  files_deleted_count : nat;
  processed_md5_count : nat;
  stdout : list msg
}.

Definition say (m : msg) (st : vars) : vars :=
  Vars (world st) (kept_files_data st) (files_deleted_count st)
       (processed_md5_count st) (stdout st ++ [m]).

(** The body of the inner [try]: [Some w'] when the file was removed,
    [None] when it does not exist. *)
Definition remove_if_exists (w : Os.world) (file_to_delete : value)
  : exn + option Os.world :=
  match Os.path_exists w file_to_delete with
  | inl e => inl e
  | inr true =>
      match Os.remove w file_to_delete with
      | inl e => inl e
      | inr w' => inr (Some w')
      end
  | inr false => inr None
  end.

(** One iteration of [for file_to_delete in file_list[1:]], with its
    two handlers. *)
Definition delete_file (st : vars) (file_to_delete : value) : vars :=
  match remove_if_exists (world st) file_to_delete with
  | inr (Some w') =>
      Vars w' (kept_files_data st) (files_deleted_count st + 1)
           (processed_md5_count st) (stdout st ++ [Deleted file_to_delete])
  | inr None => say (WarnMissing file_to_delete) st
  | inl e =>
      if is_OSError e then say (ErrOS file_to_delete e) st
      else say (ErrUnknown file_to_delete e) st
  end.

(** One iteration of [for md5_hash, file_list in data["duplicates"].items()]. *)
Definition process_entry (st : vars) (entry : string * value) : vars :=
  let '(md5_hash, file_list) := entry in
  let st := Vars (world st) (kept_files_data st) (files_deleted_count st)
                 (processed_md5_count st + 1) (stdout st) in
  if negb (Py.truthy file_list) || negb (Py.isinstance_list file_list)
  then say (WarnInvalidList md5_hash) st
  else
    match file_list with
    | VList (first_file_path :: others) =>
        fold_left delete_file others
          (Vars (world st) (set md5_hash [first_file_path] (kept_files_data st))
                (files_deleted_count st) (processed_md5_count st) (stdout st))
    | _ => st
    end.

Definition start (w : Os.world) : vars := Vars w [] 0 0 [].

(** The test of step 4,
    ["duplicates" in data and isinstance(data["duplicates"], dict)]:
    the items to walk when it holds. *)
Definition entries (data : value) : exn + option (list (string * value)) :=
  match Py.contains "duplicates" data with
  | inl e => inl e
  | inr false => inr None
  | inr true =>
      match Py.getitem data "duplicates" with
      | inl e => inl e
      | inr v =>
          if Py.isinstance_dict v
          then inr (match v with VDict items => Some items | _ => None end)
          else inr None
      end
  end.

(** Step 4: the walk over [data["duplicates"]]. *)
Definition walk (w : Os.world) (data : value) : exn + vars :=
  match entries data with
  | inl e => inl e
  | inr (Some items) => inr (fold_left process_entry items (start w))
  | inr None => inr (say WarnNoDuplicates (start w))
  end.

(** The script: the final variables and [new_json_structure], which is
    not built when the outer handler catches an exception. *)
Definition prune (w : Os.world) (data : value) : vars * option report :=
  match walk w data with
  | inr st =>
      let new_json_structure :=
        Report (len (kept_files_data st)) (kept_files_data st) in
      (Vars (world st) (kept_files_data st) (files_deleted_count st)
            (processed_md5_count st)
            (stdout st ++ [MsgScanned (processed_md5_count st);
                           MsgKept (len (kept_files_data st));
                           MsgDeletedTotal (files_deleted_count st);
                           MsgJson new_json_structure]),
       Some new_json_structure)
  | inl e => (say (ErrUnexpected e) (start w), None)
  end.

(** *** Vocabulary of the statements *)

(** An entry is valid when the guard of the loop lets it through. *)
Definition valid (file_list : value) : bool :=
  Py.truthy file_list && Py.isinstance_list file_list.

(** The retained path of every valid entry, in the order of the report. *)
Definition retained (items : list (string * value)) : dict (list value) :=
  omap (fun kv =>
          match kv.2 with
          | VList (first_file_path :: _) => Some (kv.1, [first_file_path])
          | _ => None
          end) items.

(** The dictionary of retained paths as the loop builds it. *)
Definition keep (kept : dict (list value)) (entry : string * value)
  : dict (list value) :=
  match entry.2 with
  | VList (first_file_path :: _) => set entry.1 [first_file_path] kept
  | _ => kept
  end.

(** [file_list[1:]] of a valid entry, nothing for the others. *)
Definition tail_of (file_list : value) : list value :=
  match file_list with
  | VList (_ :: others) => others
  | _ => []
  end.

(** The elements after index 0 of the lists of the valid entries, in the
    order in which the loops visit them. *)
Definition tails (items : list (string * value)) : list value :=
  flat_map (fun kv => tail_of kv.2) items.

(** The path a message about a deletion is about. *)
Definition target (m : msg) : option value :=
  match m with
  | Deleted x | WarnMissing x | ErrOS x _ | ErrUnknown x _ => Some x
  | _ => None
  end.

(** The deletions attempted according to the output, in order. *)
Definition attempted (out : list msg) : list value := omap target out.

Definition is_Deleted (m : msg) : bool :=
  match m with Deleted _ => true | _ => false end.

(** [os.remove] would succeed on [x]. *)
Definition removable (w : Os.world) (x : value) : bool :=
  match x with
  | VStr path =>
      bool_decide (path ∈ Os.existing w) && negb (bool_decide (path ∈ Os.locked w))
  | _ => false
  end.


End DeleteFile.

(** ** Sample inputs *)
Module Sample.

Import Io DuplicateImageFinder.

(** Two copies of a 5000-byte picture, an unrelated file and a file that
    cannot be opened; [e.bmp] does not exist. *)
Definition picture : file := File (repeat "a"%byte 5000) true None.

Definition sample_fs : gmap string node :=
  {[ "a.jpg" := Regular picture;
     "c.jpg" := Regular picture;
     "b.png" := Regular (File (list_byte_of_string "xyz") true None);
     "d.gif" := Regular (File (list_byte_of_string "xyz") false None) ]}.

Definition sample_files : list string :=
  ["a.jpg"; "b.png"; "c.jpg"; "d.gif"; "e.bmp"].

(** An execution with two workers in which results arrive out of order. *)
Definition sample_schedule : list event :=
  [Start; Start; Finish 1; Start; Yield 0; Finish 1; Finish 0; Start; Start;
   Yield 1; Finish 0; Yield 0; Finish 0; Yield 1; Yield 0].

(** What that execution leaves: the finder, the results in the order in
    which the loop consumed them, and the output. *)
Definition sample_finder : finder :=
  Finder 2 [("d16fb36f0911f878998c136191af705e", ["b.png"]);
            ("7aaa7dec709fa4fa82f3746abfd80bdb", ["a.jpg"; "c.jpg"])].

Definition sample_results : list result :=
  [(Some "d16fb36f0911f878998c136191af705e", "b.png");
   (Some "7aaa7dec709fa4fa82f3746abfd80bdb", "a.jpg");
   (Some "7aaa7dec709fa4fa82f3746abfd80bdb", "c.jpg");
   (None, "e.bmp"); (None, "d.gif")].

Definition sample_output : list msg :=
  [MsgProcessing 5; MsgMd5Failed "d.gif" PermissionError;
   MsgMd5Failed "e.bmp" FileNotFoundError; MsgAllProcessed].

(** A disk and a report for the prune script: [y] cannot be unlinked,
    [gone] is not on disk, [fp2] and [fp3] are not valid entries and
    [fp4] lists its first path twice. *)
Definition sample_world : Os.world :=
  Os.World {[ "a.jpg"; "c.jpg"; "x"; "y"; "keep.png" ]} {[ "y" ]} ∅.

Definition sample_items : list (string * value) :=
  [("fp1", VList [VStr "a.jpg"; VStr "c.jpg"; VStr "gone"; VStr "y"; VInt 3]);
   ("fp2", VList []);
   ("fp3", VStr "zz");
   ("fp4", VList [VStr "x"; VStr "x"])].

Definition sample_report : value :=
  VDict [("found_duplicates_count", VInt 4); ("duplicates", VDict sample_items)].

End Sample.

(** ** pathlib and str methods used by [is_image_file]

    [PurePosixPath] as in CPython up to 3.13.  Strings are sequences of
    bytes; [lower] changes the ASCII letters only, which for the lookup
    in [image_extensions] gives what [str.lower] gives: no other
    character has a lower case made only of the letters of these
    extensions. *)
Module Pathlib.

(** [s.split(sep)] for a separator of one character. *)
Fixpoint split (sep : ascii) (s : string) : list string :=
  match s with
  | EmptyString => [EmptyString]
  | String c s' =>
      if Ascii.eqb c sep then EmptyString :: split sep s'
      else match split sep s' with
           | [] => [String c EmptyString]
           | h :: t => String c h :: t
           end
  end.

(** The components of a path: empty ones and [.] are dropped. *)
Definition parts (path : string) : list string :=
  filter (fun x => x ≠ EmptyString ∧ x ≠ ".") (split "/" path).

(** [Path(path).name]: the last component, empty when there is none. *)
Definition name (path : string) : string := List.last (parts path) EmptyString.

(** The rest of [s] from its last dot on, when it has one. *)
Fixpoint from_last_dot (s : string) : option string :=
  match s with
  | EmptyString => None
  | String c s' =>
      match from_last_dot s' with
      | Some t => Some t
      | None => if Ascii.eqb c "." then Some s else None
      end
  end.

(** [Path(path).suffix]: with [i = name.rfind('.')], the name from [i] on
    when [0 < i < len(name) - 1], else the empty string. *)
Definition suffix (path : string) : string :=
  match name path with
  | EmptyString => EmptyString
  | String _ rest =>
      match from_last_dot rest with
      | Some t => if String.length t =? 1 then EmptyString else t
      | None => EmptyString
      end
  end.

Definition lower_char (c : ascii) : ascii :=
  let n := nat_of_ascii c in
  if (65 <=? n) && (n <=? 90) then ascii_of_nat (n + 32) else c.

(** [s.lower()] *)
Fixpoint lower (s : string) : string :=
  match s with
  | EmptyString => EmptyString
  | String c s' => String (lower_char c) (lower s')
  end.

(** [c in s] for a character. *)
Fixpoint has_char (c : ascii) (s : string) : bool :=
  match s with
  | EmptyString => false
  | String c' s' => Ascii.eqb c' c || has_char c s'
  end.

(** [s.endswith(c)] for a character. *)
Fixpoint ends_with (c : ascii) (s : string) : bool :=
  match s with
  | EmptyString => false
  | String c' EmptyString => Ascii.eqb c' c
  | String _ s' => ends_with c s'
  end.

(** [os.path.join(a, b)] *)
Definition join (a b : string) : string :=
  match b with
  | String "/" _ => b
  | _ =>
      if String.eqb a EmptyString || ends_with "/" a then a ++ b
      else a ++ "/" ++ b
  end.

End Pathlib.

(** ** os.walk

    The part of the disk below a directory argument, as [os.scandir]
    shows it.  The disk is not modified while it is walked. *)
Module OsWalk.
Import Pathlib.

(** What a name leads to, links followed: something that is not a
    directory, or a directory with the entries [os.scandir] gives for it,
    in the order in which it gives them ([None] when it refuses to list
    them).  [is_link] tells a directory reached through a symbolic link. *)
#[warnings="-register-all"]
Inductive tree :=
| Leaf
| Folder (is_link : bool) (listing : option (list (string * tree))).

(** [entry.is_dir()] *)
Definition is_dir (t : tree) : bool :=
  match t with Folder _ _ => true | Leaf => false end.

Definition dirs_of (listing : list (string * tree)) : list string :=
  (filter (fun e => is_dir e.2 = true) listing).*1.

Definition nondirs_of (listing : list (string * tree)) : list string :=
  (filter (fun e => is_dir e.2 = false) listing).*1.

(** [os.walk(top)], top-down, [onerror=None], [followlinks=False]: the
    triples [(root, dirs, files)] in the order in which they are yielded.
    A directory that cannot be listed, and a top that is not a directory,
    yield nothing; a subdirectory that is a symbolic link is named in
    [dirs] and not entered. *)
Fixpoint walk (top : string) (t : tree)
  : list (string * list string * list string) :=
  match t with
  | Folder _ (Some listing) =>
      (top, dirs_of listing, nondirs_of listing)
      :: (fix below (l : list (string * tree)) :=
            match l with
            | [] => []
            | (dirname, sub) :: l' =>
                match sub with
                | Folder false _ => walk (join top dirname) sub ++ below l'
                | _ => below l'
                end
            end) listing
  | _ => []
  end.

(** The triples of the directories below [top]: the tail of [walk] on a
    directory that can be listed, named for the statements. *)
Definition walk_below (top : string) (listing : list (string * tree))
  : list (string * list string * list string) :=
  concat ((fun e => match e.2 with
                    | Folder false _ => walk (join top e.1) e.2
                    | _ => []
                    end) <$> listing).

End OsWalk.

(** ** main.py: the other methods of DuplicateImageFinder *)
Module Scan.

Import PyDict Pathlib OsWalk DuplicateImageFinder.

(** [self.image_extensions] *)
Definition image_extensions : list string :=
  [".jpg"; ".jpeg"; ".png"; ".gif"; ".bmp"; ".tiff"; ".webp"].

(** [is_image_file(self, file_path)] *)
Definition is_image_file (file_path : string) : bool :=
  existsb (String.eqb (lower (suffix file_path))) image_extensions.

(** A file name as a directory listing gives it: not empty, not [.], no
    slash. *)
Definition plain_name (file : string) : Prop :=
  file ≠ EmptyString ∧ file ≠ "." ∧ has_char "/" file = false.

(** [sorted(items, key=lambda x: x[0])].  The library sorts stably and
    compares keys with [<] only; a stable sort has one result, reached
    here by insertion: an item goes after the items already placed whose
    key is smaller, before those that came later with an equal key. *)
Fixpoint insort {V} (x : string * V) (l : list (string * V))
  : list (string * V) :=
  match l with
  | [] => [x]
  | y :: l' => if String.ltb y.1 x.1 then y :: insort x l' else x :: l
  end.

Definition sorted_by_key {V} (items : list (string * V)) : list (string * V) :=
  foldr insort [] items.

(** [get_sorted_md5_list(self)] *)
Definition get_sorted_md5_list (self : finder) : list (string * list string) :=
  sorted_by_key (md5_dict self).

(** What [collect_image_files], [print_results] and [run] print.
    [LineOf] carries the messages of the methods modelled above;
    [LineStatistics] and [LineDuplicates] stand for the three lines of a
    heading; [LineElapsed] keeps the two readings of the clock, in ticks,
    whose difference the line shows. *)
Inductive line :=
| LineMissing (directory : string)
| LineScanning (directory : string)
| LineNoImages
| LineOf (m : msg)
| LineStatistics
| LineMd5 (md5_value : string)
| LinePath (path : string)
| LineBlank
| LineDuplicates
| LineElapsed (start_time end_time : Z)
| LineCount (n : nat)
| LineUnique (n : nat).

(** The body of [for root, dirs, files in os.walk(directory)] for one
    triple: the paths it appends to [image_files]. *)
Definition image_files_of (triple : string * list string * list string)
  : list string :=
  let '(root, _, files) := triple in
  filter (fun file_path => is_image_file file_path = true) (join root <$> files).

(** [collect_image_files(self, directories)]: the list returned and what
    is printed.  [world] gives what each directory argument leads to;
    [os.path.exists] holds of the arguments it has an entry for. *)
Definition collect_image_files (world : gmap string tree)
    (directories : list string) : list string * list line :=
  fold_left
    (fun '(image_files, out) directory =>
       match world !! directory with
       | None => (image_files, out ++ [LineMissing directory])
       | Some t =>
           (image_files ++ concat (image_files_of <$> walk directory t),
            out ++ [LineScanning directory])
       end)
    directories ([], []).

(** [print_results(self)], both halves. *)
Definition print_results (self : finder) : list line :=
  LineStatistics
  :: concat ((fun '(md5_value, paths) =>
                LineMd5 md5_value :: (LinePath <$> paths) ++ [LineBlank])
             <$> get_sorted_md5_list self)
  ++ LineDuplicates :: (LineOf <$> DuplicateImageFinder.print_results self).

(** [run(self, directories)]: the finder afterwards and the output, for
    the two readings of the clock; [None] when the schedule is not a
    complete execution of the pool. *)
Definition run (world : gmap string tree) (fs : gmap string Io.node)
    (self : finder) (directories : list string) (schedule : list event)
    (start_time end_time : Z) : option (finder * list line) :=
  let '(image_files, out) := collect_image_files world directories in
  match image_files with
  | [] => Some (self, out ++ [LineNoImages])
  | _ :: _ =>
      match process_images fs self image_files schedule with
      | Some (self', _, out') =>
          Some (self',
                out ++ (LineOf <$> out') ++ print_results self'
                ++ [LineElapsed start_time end_time;
                    LineCount (length image_files);
                    LineUnique (len (md5_dict self'))])
      | None => None
      end
  end.

(** [main()] *)
Definition main (world : gmap string tree) (fs : gmap string Io.node)
    (schedule : list event) (start_time end_time : Z)
  : option (finder * list line) :=
  let directories :=
    ["path/to/directory1"; "path/to/directory2"; "path/to/directory3"] in
  let finder := init 8 in
  run world fs finder directories schedule start_time end_time.

End Scan.

(** ** main.py: vocabulary for the output of a scan *)
Module ScanOutput.

Import DuplicateImageFinder.

Definition is_progress (m : msg) : bool :=
  match m with MsgProgress _ _ => true | _ => false end.

(** The progress lines of an output, in order. *)
Definition progress_lines (out : list msg) : list msg :=
  filter (fun m => is_progress m = true) out.

(** The progress lines printed so far are those of the hundreds reached
    by the counter. *)
Definition progress_so_far (n : nat) (st : state) : Prop :=
  progress_lines (stdout st)
  = (fun j => MsgProgress (100 * j) n) <$> seq 1 (completed st / 100).

End ScanOutput.

(** ** delete_file.py: the structure the script builds, taken as data *)
Module Rebuilt.

Import PyDict DeleteFile.

(** [new_json_structure] as a Python value: the dictionary with the two
    keys the script writes. *)
Definition as_data (r : report) : value :=
  VDict [("found_duplicates_count", VInt (Z.of_nat (found_duplicates_count r)));
         ("duplicates", VDict (map (fun kl => (kl.1, VList kl.2)) (duplicates r)))].

(** Number of removals the output announces. *)
Definition deletions (out : list msg) : nat :=
  length (filter (fun m => is_Deleted m = true) out).

(** The values that make the test ["duplicates" in data] itself, or the
    lookup after it, raise. *)
Definition breaks_the_test (data : value) : bool :=
  match data with
  | VNone | VBool _ | VInt _ | VFloat _ => true
  | VStr s => Py.substring_of "duplicates" s
  | VList l =>
      existsb (fun x => match x with
                        | VStr s => String.eqb s "duplicates"
                        | _ => false
                        end) l
  | VDict _ => false
  end.

(** The lists of [kept_files_data] have one element each. *)
Definition singletons (kept : dict (list value)) : Prop :=
  Forall (fun kl => ∃ first, kl.2 = [first]) kept.

End Rebuilt.

(** ** main.py: vocabulary for the directory scan *)
Module Reach.
Import Pathlib OsWalk Scan.

(** [walked t names listing]: from a directory [t], the directory reached
    by the names [names] is visited by the walk and has the entries
    [listing]: every directory on the way can be listed, and none below
    the top is a symbolic link. *)
Inductive walked : tree → list string → list (string * tree) → Prop :=
| walked_top is_link listing :
    walked (Folder is_link (Some listing)) [] listing
| walked_sub is_link listing dirname sub_listing names l :
    (dirname, Folder false sub_listing) ∈ listing →
    walked (Folder false sub_listing) names l →
    walked (Folder is_link (Some listing)) (dirname :: names) l.

(** The path of the entry reached from [top] by [names], as the walk
    builds it. *)
Definition path_of (top : string) (names : list string) : string :=
  foldl join top names.

(** Entries are named as the system names them. *)
Fixpoint well_named (t : tree) : Prop :=
  match t with
  | Leaf => True
  | Folder _ None => True
  | Folder _ (Some listing) =>
      (fix all (l : list (string * tree)) : Prop :=
         match l with
         | [] => True
         | (file, sub) :: l' => plain_name file ∧ well_named sub ∧ all l'
         end) listing
  end.

(** A directory argument the walk lists nothing for: it leads to something
    that is not a directory, or to a directory that cannot be listed, or to
    nothing at all. *)
Definition nothing_to_list (world : gmap string tree) (directory : string)
  : Prop :=
  match world !! directory with
  | Some (Folder _ (Some _)) => False
  | _ => True
  end.

(** The line [collect_image_files] prints for a directory argument. *)
Definition announced (world : gmap string tree) (directory : string) : line :=
  match world !! directory with
  | None => LineMissing directory
  | Some _ => LineScanning directory
  end.

End Reach.

(** ** main.py: vocabulary for the listings *)
Module Listing.
Import PyDict DuplicateImageFinder Scan.

(** Keys in strictly ascending order. *)
Definition ascending {V} (l : list (string * V)) : Prop :=
  StronglySorted (fun a b => String.ltb a.1 b.1 = true) l.

(** Two listings that agree up to the order of the paths of a group. *)
Definition same_listing (l1 l2 : list (string * list string)) : Prop :=
  Forall2 (fun a b => a.1 = b.1 ∧ a.2 ≡ₚ b.2) l1 l2.

(** The paths and the fingerprints listed in the statistics, in order. *)
Definition listed_paths (out : list line) : list string :=
  omap (fun l => match l with LinePath path => Some path | _ => None end) out.

Definition listed_md5 (out : list line) : list string :=
  omap (fun l => match l with LineMd5 k => Some k | _ => None end) out.

End Listing.

(** ** Sample disks *)
Module SampleDisk.
Import Io OsWalk DuplicateImageFinder Sample.

(** A directory with an image, a directory named like an image, a link to
    a directory, a directory that cannot be listed, a broken link and a
    subdirectory. *)
Definition sample_tree : tree :=
  Folder false
    (Some [("x.PNG", Leaf);
           ("b.jpg", Folder false (Some [("inner.bmp", Leaf)]));
           ("linkdir", Folder true (Some [("o.webp", Leaf)]));
           ("locked", Folder false None);
           ("broken.png", Leaf);
           ("sub", Folder false (Some [("y.gif", Leaf); ("notes.txt", Leaf);
                                       ("deep", Folder false (Some []))]))]).

Definition sample_disk : gmap string tree :=
  {[ "pics" := sample_tree; "cover.jpg" := Leaf ]}.

(** The files of [sample_fs] in one directory. *)
Definition album : gmap string tree :=
  {[ "." := Folder false (Some [("a.jpg", Leaf); ("b.png", Leaf);
                                ("c.jpg", Leaf); ("d.gif", Leaf);
                                ("readme.md", Leaf)]) ]}.

Definition album_fs : gmap string node :=
  {[ "./a.jpg" := Regular picture;
     "./c.jpg" := Regular picture;
     "./b.png" := Regular (File (list_byte_of_string "xyz") true None);
     "./d.gif" := Regular (File (list_byte_of_string "xyz") false None) ]}.

(** A disk on which the directories named in [main] lead to nothing, to a
    file and to a directory that cannot be listed. *)
Definition placeholders : gmap string tree :=
  {[ "path/to/directory2" := Leaf;
     "path/to/directory3" := Folder false None ]}.

(** What [run] leaves and prints on [album] with one worker. *)
Definition album_finder : finder :=
  Finder 1 [("7aaa7dec709fa4fa82f3746abfd80bdb", ["./a.jpg"; "./c.jpg"]);
            ("d16fb36f0911f878998c136191af705e", ["./b.png"])].

End SampleDisk.

(** ** The machine the scripts run on, names resolved

    A path string denotes a directory entry, and several strings may
    denote the same one ([a.jpg], [./a.jpg], a name reached through a
    link to a directory).  [existing] and [locked] of [Os.world] hold
    entries here.  What a string denotes is fixed by the directories and
    links of the disk at the start; the script removes entries and
    creates none. *)
Module Posix.
Import Os.

(** Why the system refuses to unlink an entry, and the exception
    [os.remove] raises for it. *)
Inductive refusal := NotPermitted | IsDirectory | DeviceError.

Definition raised_by (r : refusal) : exn :=
  match r with
  | NotPermitted => PermissionError
  | IsDirectory => IsADirectoryError
  | DeviceError => OSError_EIO
  end.

(** The machine the script runs on: the entry a path denotes; the links
    to directories the path goes through; when the entry is a symbolic
    link, the entries it leads to in turn; the reason for which a locked
    entry is refused; and the values whose [str] the encoding of
    [sys.stdout] can encode. *)
Record system := System {
  entry : string → string;
  parents : string → list string;
  targets : string → list string;
  errno : string → refusal;
  shows : value → bool
}.

Definition present (w : world) (names : list string) : bool :=
  forallb (fun e => bool_decide (e ∈ existing w)) names.

(** [os.path.exists(v)]: links are followed, so the entry, the links on
    the way and what the entry leads to must all be there. *)
Definition path_exists (sys : system) (w : world) (v : value) : exn + bool :=
  match v with
  | VStr path =>
      inr (bool_decide (entry sys path ∈ existing w)
           && present w (parents sys path) && present w (targets sys path))
  | _ => Os.path_exists w v
  end.

(** [os.remove(v)]: unlinks the entry itself, a link and not what it
    leads to. *)
Definition remove (sys : system) (w : world) (v : value) : exn + world :=
  match v with
  | VStr path =>
      if bool_decide (entry sys path ∈ existing w) && present w (parents sys path)
      then
        if bool_decide (entry sys path ∈ locked w)
        then inl (raised_by (errno sys (entry sys path)))
        else inr (World (existing w ∖ {[entry sys path]}) (locked w) (open_fds w))
      else inl FileNotFoundError
  | _ => inl TypeError
  end.

End Posix.

(** ** main.py: [calculate_md5] and what [print] can do to it *)
Module Terminal.
Import Io DuplicateImageFinder.

(** The body of the [try]: the digest, or the exception that leaves
    it. *)
Definition digest (fs : gmap string node) (file_path : string) : exn + string :=
  match open_rb fs file_path with
  | inl e => inl e
  | inr f =>
      match read_chunks f Hashlib.new with
      | inl e => inl e
      | inr hash_md5 => inr (Hashlib.hexdigest hash_md5)
      end
  end.

(** The handler [except Exception as e]: its [print] shows [file_path]
    and raises when [sys.stdout] cannot encode it. *)
Definition failed (sys : Posix.system) (file_path : string) (e : exn)
  : exn + (result * list msg) :=
  if Posix.shows sys (VStr file_path)
  then inr ((None, file_path), [MsgMd5Failed file_path e])
  else inl UnicodeEncodeError.

(** [calculate_md5(self, file_path)]: what it returns and prints, or
    the exception it raises. *)
Definition calculate_md5 (sys : Posix.system) (fs : gmap string node)
    (file_path : string) : exn + (result * list msg) :=
  match digest fs file_path with
  | inr md5_value => inr ((Some md5_value, file_path), [])
  | inl e => failed sys file_path e
  end.

End Terminal.

(** ** delete_file.py, with what [print] and the system can do to it

    The script of [DeleteFile] again, statement by statement, where a
    [print] raises [UnicodeEncodeError] when [sys.stdout] cannot encode
    the text and paths are resolved by the system.  The fixed text of the
    messages, numbers, [str(e)] and the output of [json.dumps] can always
    be printed. *)
Module Script.
Import PyDict Os DeleteFile.

(** The variables, and the values the inner loop has taken so far
    ([tried] is kept for the statements only). *)
Record state := State { now : vars; tried : list value }.

(** A block ends normally or by an exception that leaves it. *)
Inductive outcome :=
| Done (st : state)
| Raised (e : exn) (st : state).

Definition final (o : outcome) : state :=
  match o with Done st | Raised _ st => st end.

Definition completes (o : outcome) : bool :=
  match o with Done _ => true | Raised _ _ => false end.

(** Whether [sys.stdout] can encode a message: the fixed text always, a
    path or a key when the terminal shows it. *)
Definition printable (sys : Posix.system) (m : msg) : bool :=
  match m with
  | WarnInvalidList md5_hash => Posix.shows sys (VStr md5_hash)
  | Deleted x | WarnMissing x | ErrOS x _ | ErrUnknown x _ => Posix.shows sys x
  | _ => true
  end.

(** [print(m)] *)
Definition print (sys : Posix.system) (m : msg) (st : state) : outcome :=
  if printable sys m then Done (State (say m (now st)) (tried st))
  else Raised UnicodeEncodeError st.

(** The body of the inner [try]. *)
Definition try_delete (sys : Posix.system) (st : state) (file_to_delete : value)
  : outcome :=
  match Posix.path_exists sys (world (now st)) file_to_delete with
  | inl e => Raised e st
  | inr true =>
      match Posix.remove sys (world (now st)) file_to_delete with
      | inl e => Raised e st
      | inr w' =>
          let st := State (Vars w' (kept_files_data (now st))
                                (files_deleted_count (now st))
                                (processed_md5_count (now st))
                                (stdout (now st))) (tried st) in
          match print sys (Deleted file_to_delete) st with
          | Done st =>
              Done (State (Vars (world (now st)) (kept_files_data (now st))
                                (files_deleted_count (now st) + 1)
                                (processed_md5_count (now st))
                                (stdout (now st))) (tried st))
          | Raised e st => Raised e st
          end
      end
  | inr false => print sys (WarnMissing file_to_delete) st
  end.

(** One iteration of [for file_to_delete in file_list[1:]]: the [try]
    and its two handlers, whose own [print] is not protected. *)
Definition delete_file (sys : Posix.system) (st : state) (file_to_delete : value)
  : outcome :=
  match try_delete sys (State (now st) (tried st ++ [file_to_delete]))
                   file_to_delete with
  | Done st => Done st
  | Raised e st =>
      if is_OSError e then print sys (ErrOS file_to_delete e) st
      else print sys (ErrUnknown file_to_delete e) st
  end.

(** A [for] loop whose body may raise. *)
Fixpoint for_each {A} (body : state → A → outcome) (l : list A) (st : state)
  : outcome :=
  match l with
  | [] => Done st
  | x :: l' =>
      match body st x with
      | Done st => for_each body l' st
      | Raised e st => Raised e st
      end
  end.

(** One iteration of [for md5_hash, file_list in data["duplicates"].items()]. *)
Definition process_entry (sys : Posix.system) (st : state)
    (entry : string * value) : outcome :=
  let '(md5_hash, file_list) := entry in
  let st := State (Vars (world (now st)) (kept_files_data (now st))
                        (files_deleted_count (now st))
                        (processed_md5_count (now st) + 1)
                        (stdout (now st))) (tried st) in
  if negb (Py.truthy file_list) || negb (Py.isinstance_list file_list)
  then print sys (WarnInvalidList md5_hash) st
  else
    match file_list with
    | VList (first_file_path :: others) =>
        for_each (delete_file sys) others
          (State (Vars (world (now st))
                       (set md5_hash [first_file_path] (kept_files_data (now st)))
                       (files_deleted_count (now st))
                       (processed_md5_count (now st)) (stdout (now st)))
                 (tried st))
    | _ => Done st
    end.

Definition begin (w : Os.world) : state := State (start w) [].

(** Step 4. *)
Definition walk (sys : Posix.system) (w : Os.world) (data : value) : outcome :=
  match entries data with
  | inl e => Raised e (begin w)
  | inr (Some items) => for_each (process_entry sys) items (begin w)
  | inr None => print sys WarnNoDuplicates (begin w)
  end.

(** The script: the state at its end and [new_json_structure], which is
    built only when nothing was raised; an exception is reported by the
    outer handler. *)
Definition prune (sys : Posix.system) (w : Os.world) (data : value)
  : state * option report :=
  match walk sys w data with
  | Done st =>
      let new_json_structure :=
        Report (len (kept_files_data (now st))) (kept_files_data (now st)) in
      (State (Vars (world (now st)) (kept_files_data (now st))
                   (files_deleted_count (now st)) (processed_md5_count (now st))
                   (stdout (now st)
                    ++ [MsgScanned (processed_md5_count (now st));
                        MsgKept (len (kept_files_data (now st)));
                        MsgDeletedTotal (files_deleted_count (now st));
                        MsgJson new_json_structure]))
             (tried st),
       Some new_json_structure)
  | Raised e st => (State (say (ErrUnexpected e) (now st)) (tried st), None)
  end.

(** [os.remove] is reached for [x] and succeeds. *)
Definition removes (sys : Posix.system) (w : Os.world) (x : value) : bool :=
  match x with
  | VStr path =>
      bool_decide (Posix.entry sys path ∈ existing w)
      && Posix.present w (Posix.parents sys path)
      && Posix.present w (Posix.targets sys path)
      && negb (bool_decide (Posix.entry sys path ∈ locked w))
  | _ => false
  end.

(** A path that is not a link and goes through none. *)
Definition direct (sys : Posix.system) (path : string) : Prop :=
  Posix.parents sys path = [] ∧ Posix.targets sys path = [].

(** What a block that takes the values [xs] in turn does to the disk and
    to the counter of deleted files, whether it ends or raises. *)
Definition effect (sys : Posix.system) (xs : list value) (st : state)
    (o : outcome) : Prop :=
  let w := world (now st) in
  let w' := world (now (final o)) in
  let n := files_deleted_count (now st) in
  let n' := files_deleted_count (now (final o)) in
  locked w' = locked w
  ∧ open_fds w' = open_fds w
  ∧ existing w' ⊆ existing w
  ∧ (∀ e, e ∈ existing w → e ∉ existing w' →
          ∃ path, VStr path ∈ xs ∧ Posix.entry sys path = e ∧ e ∉ locked w)
  ∧ (∃ took, tried (final o) = tried st ++ took ∧ took `prefix_of` xs
             ∧ (completes o = true → took = xs))
  ∧ (if completes o then size (existing w') + n' = size (existing w) + n
     else size (existing w') + n' ≤ size (existing w) + n
          ∧ size (existing w) + n ≤ size (existing w') + n' + 1)
  ∧ n' + Rebuilt.deletions (stdout (now st))
    = n + Rebuilt.deletions (stdout (now (final o)))
  ∧ (completes o = true →
     ∀ path, VStr path ∈ xs → direct sys path →
             Posix.entry sys path ∉ locked w →
             Posix.entry sys path ∉ existing w').

(** Two states with the same disk, counter of deleted files, deletion
    lines and history. *)
Definition same_disk (st st' : state) : Prop :=
  world (now st') = world (now st)
  ∧ files_deleted_count (now st') = files_deleted_count (now st)
  ∧ Rebuilt.deletions (stdout (now st')) = Rebuilt.deletions (stdout (now st))
  ∧ tried st' = tried st.

(** The messages about an entry can all be printed. *)
Definition shown (sys : Posix.system) (entry : string * value) : bool :=
  if valid entry.2 then forallb (Posix.shows sys) (tail_of entry.2)
  else Posix.shows sys (VStr entry.1).

(** The values the script may pass to [os.remove]: the elements after
    index 0 of the valid entries of the report, none for a report without
    a dictionary of duplicates. *)
Definition listed (data : value) : list value :=
  match entries data with
  | inr (Some items) => tails items
  | _ => []
  end.


(** A machine on which every path string names its own entry, nothing
    is a link, and the terminal shows everything. *)
Definition plain : Posix.system :=
  Posix.System (fun path => path) (fun _ => []) (fun _ => [])
               (fun _ => Posix.NotPermitted) (fun _ => true).

End Script.

(** ** A sample machine *)
Module Machine.
Import Os Posix.

(** Whether a sequence of bytes is well-formed UTF-8 (Unicode, table
    3-7): [need] continuation bytes are expected, the next one between
    [lo] and [hi]. *)
Fixpoint utf8_from (need lo hi : nat) (bytes : list nat) : bool :=
  match bytes with
  | [] => need =? 0
  | b :: rest =>
      match need with
      | 0 =>
          if b <? 128 then utf8_from 0 128 191 rest
          else if (194 <=? b) && (b <=? 223) then utf8_from 1 128 191 rest
          else if b =? 224 then utf8_from 2 160 191 rest
          else if (225 <=? b) && (b <=? 236) then utf8_from 2 128 191 rest
          else if b =? 237 then utf8_from 2 128 159 rest
          else if (238 <=? b) && (b <=? 239) then utf8_from 2 128 191 rest
          else if b =? 240 then utf8_from 3 144 191 rest
          else if (241 <=? b) && (b <=? 243) then utf8_from 3 128 191 rest
          else if b =? 244 then utf8_from 3 128 143 rest
          else false
      | S n => (lo <=? b) && (b <=? hi) && utf8_from n 128 191 rest
      end
  end.

Definition utf8 (s : string) : bool :=
  utf8_from 0 128 191 (nat_of_ascii <$> list_ascii_of_string s).

(** The entry of a path: a leading [./] does not count. *)
Definition normal (path : string) : string :=
  match path with
  | String "." (String "/" rest) => rest
  | _ => path
  end.

(** A machine with a UTF-8 terminal, where [shortcut.jpg] is a symbolic
    link to [c.jpg] and [album] is a directory. *)
Definition laptop : system :=
  System normal
         (fun _ => [])
         (fun path => if String.eqb (normal path) "shortcut.jpg"
                      then ["c.jpg"] else [])
         (fun e => if String.eqb e "album" then IsDirectory else NotPermitted)
         (fun v => match v with VStr s => utf8 s | _ => true end).

(** A file name that is not UTF-8: the byte 255 before [.jpg], which
    Python holds as a lone surrogate. *)
Definition odd_name : string := String "255" ".jpg".

(** A disk: [y.jpg] and [album] cannot be unlinked. *)
Definition desk : world :=
  World {[ "a.jpg"; "c.jpg"; "shortcut.jpg"; "x.jpg"; "y.jpg"; "album";
           odd_name ]}
        {[ "y.jpg"; "album" ]} ∅.


(** A report whose first entry keeps [a.jpg] and lists it again under
    another spelling. *)
Definition respelled : list (string * value) :=
  [("fp1", VList [VStr "a.jpg"; VStr "./a.jpg"; VStr "album"]);
   ("fp2", VList [VStr "x.jpg"; VStr "nowhere.jpg"; VStr "y.jpg"])].

(** A name that is not UTF-8 and is not on [desk]. *)
Definition odd_gone : string := String "255" "gone.jpg".

(** A report that lists [odd_gone] between a file to keep and a file to
    delete. *)
Definition unprintable : list (string * value) :=
  [("fp1", VList [VStr "a.jpg"; VStr odd_gone; VStr "c.jpg"]);
   ("fp2", VList [VStr "x.jpg"; VStr "y.jpg"])].

(** The same with a name the terminal shows. *)
Definition printable_twin : list (string * value) :=
  [("fp1", VList [VStr "a.jpg"; VStr "gone.jpg"; VStr "c.jpg"]);
   ("fp2", VList [VStr "x.jpg"; VStr "y.jpg"])].

(** A report that lists [odd_name], which is on [desk]. *)
Definition unprintable_present : list (string * value) :=
  [("fp1", VList [VStr "a.jpg"; VStr odd_name; VStr "c.jpg"])].

Definition report_of (items : list (string * value)) : value :=
  VDict [("found_duplicates_count", VInt (Z.of_nat (length items)));
         ("duplicates", VDict items)].

End Machine.

(** ** More sample runs of the scan *)
Module SecondScan.
Import Io DuplicateImageFinder Sample.

(** The disk of [sample_fs] with one more file. *)
Definition second_fs : gmap string node :=
  <["n.png" := Regular (File (list_byte_of_string "new") true None)]> sample_fs.

(** A second scan on the finder the first one left: a copy of a known
    picture, a new file, a missing one and a known file again. *)
Definition second_files : list string := ["c.jpg"; "n.png"; "e.bmp"; "b.png"].

Definition second_schedule : list event :=
  [Start; Start; Finish 1; Yield 0; Finish 0; Start; Yield 0; Start;
   Finish 0; Finish 0; Yield 1; Yield 0].

Definition second_finder : finder :=
  Finder 2 [("d16fb36f0911f878998c136191af705e", ["b.png"; "b.png"]);
            ("7aaa7dec709fa4fa82f3746abfd80bdb", ["a.jpg"; "c.jpg"; "c.jpg"]);
            ("22af645d1859cb5ca6da0c484f1f37ea", ["n.png"])].

Definition second_results : list result :=
  [(Some "22af645d1859cb5ca6da0c484f1f37ea", "n.png");
   (Some "7aaa7dec709fa4fa82f3746abfd80bdb", "c.jpg");
   (Some "d16fb36f0911f878998c136191af705e", "b.png");
   (None, "e.bmp")].

Definition second_output : list msg :=
  [MsgProcessing 4; MsgMd5Failed "e.bmp" FileNotFoundError; MsgAllProcessed].

(** Two hundred and fifty paths that lead nowhere, and what a single
    worker prints for them. *)
Definition hundreds : list string := repeat "missing.jpg" 250.

Definition hundreds_output : list msg :=
  [MsgProcessing 250]
  ++ repeat (MsgMd5Failed "missing.jpg" FileNotFoundError) 100
  ++ [MsgProgress 100 250]
  ++ repeat (MsgMd5Failed "missing.jpg" FileNotFoundError) 100
  ++ [MsgProgress 200 250]
  ++ repeat (MsgMd5Failed "missing.jpg" FileNotFoundError) 50
  ++ [MsgAllProcessed].

End SecondScan.

(** * Properties *)

(** ** hashlib.md5 *)
Section HashlibFacts.
Import Hashlib.

Lemma update_app h a b : update (update h a) b = update h (a ++ b).
Proof. unfold update. by rewrite fold_left_app. Qed.

Lemma update_chunked h (cs : list (list byte)) :
  fold_left update cs h = update h (concat cs).
Proof.
  revert h. induction cs as [|c cs IH]; intros h; simpl; [done|].
  by rewrite IH, update_app.
Qed.

Lemma hex_digit_lowercase n : hex_digit n ∈ hex_alphabet.
Proof.
  unfold hex_digit. apply list_elem_of_In.
  destruct (nth_in_or_default (N.to_nat n) hex_alphabet "0"%char) as [H| ->];
    [exact H|]. simpl. tauto.
Qed.

Lemma hex_of_bytes_length bs : String.length (hex_of_bytes bs) = 2 * length bs.
Proof. induction bs as [|b bs IH]; simpl; [done|]. rewrite IH. lia. Qed.

Lemma hex_of_bytes_lowercase bs :
  Forall (fun c => c ∈ hex_alphabet) (list_ascii_of_string (hex_of_bytes bs)).
Proof.
  induction bs as [|b bs IH]; simpl; [constructor|].
  constructor; [apply hex_digit_lowercase|].
  constructor; [apply hex_digit_lowercase|exact IH].
Qed.

Lemma digest_length h : length (digest h) = 16.
Proof. unfold digest, le_bytes. by rewrite !length_app, !length_map, !length_seq. Qed.

Lemma hexdigest_length h : String.length (hexdigest h) = 32.
Proof. unfold hexdigest. by rewrite hex_of_bytes_length, digest_length. Qed.

Lemma hexdigest_nonempty h : hexdigest h ≠ EmptyString.
Proof. intros H. pose proof (hexdigest_length h) as Hl. by rewrite H in Hl. Qed.

(** The test suite of RFC 1321, appendix A.5. *)
Example md5_test_suite :
  md5_hex [] = "d41d8cd98f00b204e9800998ecf8427e"
  ∧ md5_hex (list_byte_of_string "a") = "0cc175b9c0f1b6a831c399e269772661"
  ∧ md5_hex (list_byte_of_string "abc") = "900150983cd24fb0d6963f7d28e17f72"
  ∧ md5_hex (list_byte_of_string "message digest")
    = "f96b697d7cb7938d525a2f31aaf161d0"
  ∧ md5_hex (list_byte_of_string "abcdefghijklmnopqrstuvwxyz")
    = "c3fcd3d76192e4007dfb496cca67e13b"
  ∧ md5_hex (list_byte_of_string
       "ABCDEFGHIJKLMNOPQRSTUVWXYZabcdefghijklmnopqrstuvwxyz0123456789")
    = "d174ab98d277d9f5a5611c2c9f419d9f"
  ∧ md5_hex (list_byte_of_string
       "12345678901234567890123456789012345678901234567890123456789012345678901234567890")
    = "57edf4a22be3c955ac49da2e2107b67a".
Proof. vm_compute. done. Qed.

End HashlibFacts.

(** ** Dictionaries *)
Section DictFacts.
Import PyDict.
Context {V : Type}.
Implicit Types (d : dict V) (k : string) (v : V).

Lemma get_set_eq k v d : get k (set k v d) = Some v.
Proof.
  induction d as [|[k' v'] d IH]; simpl.
  - by rewrite String.eqb_refl.
  - destruct (String.eqb_spec k' k) as [->|Hne]; simpl.
    + by rewrite String.eqb_refl.
    + destruct (String.eqb_spec k' k); [done|exact IH].
Qed.

Lemma get_set_ne k k' v d : k ≠ k' → get k' (set k v d) = get k' d.
Proof.
  intros Hne. induction d as [|[k0 v0] d IH]; simpl.
  - by destruct (String.eqb_spec k k').
  - destruct (String.eqb_spec k0 k) as [->|Hk]; simpl.
    + by destruct (String.eqb_spec k k').
    + by rewrite IH.
Qed.

Lemma get_None k d : get k d = None ↔ k ∉ keys d.
Proof.
  unfold keys. induction d as [|[k' v'] d IH]; simpl.
  - split; [intros _; apply not_elem_of_nil|done].
  - rewrite not_elem_of_cons.
    destruct (String.eqb_spec k' k) as [->|Hne].
    + split; [done|]. intros [Hk _]. done.
    + rewrite IH. split; [done|]. by intros [_ Hd].
Qed.

Lemma get_Some_elem k v d : get k d = Some v → (k, v) ∈ d.
Proof.
  induction d as [|[k' v'] d IH]; simpl; [done|].
  destruct (String.eqb_spec k' k) as [->|Hne].
  - intros [= ->]. left.
  - intros H. right. auto.
Qed.

Lemma elem_get_Some k v d : wf d → (k, v) ∈ d → get k d = Some v.
Proof.
  unfold wf, keys. induction d as [|[k' v'] d IH]; simpl.
  - intros _ H. by apply elem_of_nil in H.
  - intros [Hk Hd]%NoDup_cons [[= -> ->]|Hin]%elem_of_cons.
    + by rewrite String.eqb_refl.
    + destruct (String.eqb_spec k' k) as [->|Hne]; [|auto].
      exfalso. apply Hk. apply list_elem_of_fmap. by exists (k, v).
Qed.

Lemma keys_set k v d :
  keys (set k v d) = if contains k d then keys d else keys d ++ [k].
Proof.
  unfold contains, keys. induction d as [|[k' v'] d IH]; [done|].
  cbn [set get]. destruct (String.eqb_spec k' k) as [->|Hne]; [done|].
  rewrite !fmap_cons, IH. by destruct (get k d).
Qed.

Lemma wf_set k v d : wf d → wf (set k v d).
Proof.
  unfold wf. rewrite keys_set. unfold contains.
  destruct (get k d) eqn:Hg; [done|].
  intros Hd. apply NoDup_app. split; [done|]. split.
  - intros x Hx ->%list_elem_of_singleton. by apply get_None in Hg.
  - apply NoDup_singleton.
Qed.

Lemma len_set k v d :
  len (set k v d) = if contains k d then len d else S (len d).
Proof.
  unfold len. rewrite <-(length_fmap fst (set k v d)), <-(length_fmap fst d).
  fold (keys (set k v d)). fold (keys d). rewrite keys_set.
  destruct (contains k d); [done|]. rewrite length_app. simpl. lia.
Qed.

End DictFacts.

Section DictOfLists.
Import PyDict.
Context {A : Type}.
Implicit Types (d : dict (list A)) (k : string).

Lemma total_set k (l : list A) d :
  total (set k l d) + length (default [] (get k d)) = total d + length l.
Proof.
  unfold total. induction d as [|[k' l'] d IH]; simpl; [lia|].
  destruct (String.eqb_spec k' k) as [->|Hne]; simpl; lia.
Qed.

Lemma get_append_item_eq k x d :
  get k (append_item k x d) = Some (default [] (get k d) ++ [x]).
Proof.
  unfold append_item, getitem_default.
  destruct (get k d) eqn:Hg; by rewrite get_set_eq.
Qed.

Lemma get_append_item_ne k k' x d :
  k ≠ k' → get k' (append_item k x d) = get k' d.
Proof.
  intros Hne. unfold append_item, getitem_default.
  destruct (get k d) eqn:Hg; by rewrite !get_set_ne.
Qed.

Lemma wf_append_item k x d : wf d → wf (append_item k x d).
Proof.
  intros Hd. unfold append_item, getitem_default.
  destruct (get k d); auto using wf_set.
Qed.

Lemma total_append_item k x d : total (append_item k x d) = S (total d).
Proof.
  unfold append_item, getitem_default. destruct (get k d) as [l|] eqn:Hg.
  - pose proof (total_set k (l ++ [x]) d) as H. rewrite Hg in H.
    rewrite length_app in H. simpl in H. lia.
  - pose proof (total_set k [] d) as H1. rewrite Hg in H1.
    pose proof (total_set k ([] ++ [x]) (set k [] d)) as H2.
    rewrite get_set_eq in H2. simpl in *. lia.
Qed.

End DictOfLists.

(** ** Reading a file in chunks *)
Section ReadFacts.
Import Io DuplicateImageFinder.

Lemma chunks_concat n data : concat (chunks (S n) data) = data.
Proof.
  funelim (chunks (S n) data); simp chunks; simpl; [done|].
  match goal with IH : concat _ = _ |- _ => rewrite IH end.
  by rewrite take_drop.
Qed.

Lemma chunks_size n data :
  Forall (fun c => 0 < length c ≤ S n) (chunks (S n) data).
Proof.
  funelim (chunks (S n) data); simp chunks; [constructor|].
  constructor; [|done]. simpl. rewrite length_take. lia.
Qed.

Lemma read_deliverable n f :
  deliverable f →
  ∃ f', read n f = inr (take n (unread f), f')
        ∧ unread f' = drop n (unread f) ∧ deliverable f'.
Proof.
  unfold deliverable, read. intros Hok.
  destruct (fault_in f) as [k|].
  - rewrite length_take.
    destruct (Nat.ltb_spec k (n `min` length (unread f))); [lia|].
    eexists; split; [done|]. simpl. rewrite length_drop.
    split; [done|lia].
  - eexists; split; [done|]. done.
Qed.

Lemma read_chunks_deliverable f h :
  deliverable f → read_chunks f h = inr (Hashlib.update h (unread f)).
Proof.
  funelim (read_chunks f h); intros Hok.
  all: match goal with H : read _ _ = _ |- _ => rename H into Hr end.
  all: destruct (read_deliverable 4096 _ Hok) as (f0 & Hr0 & Hu & Hok0).
  all: pose proof Hr as Hr'; rewrite Hr0 in Hr'.
  - discriminate.
  - injection Hr' as Hnil _.
    destruct (unread f) as [|x u]; [reflexivity|].
    cbn [take] in Hnil. discriminate.
  - injection Hr' as Hc <-.
    match goal with IH : deliverable _ → _ |- _ => rewrite (IH Hok0) end.
    by rewrite update_app, <-Hc, Hu, take_drop.
Qed.

Lemma read_chunks_by_chunks f h :
  deliverable f →
  read_chunks f h = inr (fold_left Hashlib.update (chunks 4096 (unread f)) h).
Proof.
  intros Hok. rewrite read_chunks_deliverable by done.
  by rewrite update_chunked, chunks_concat.
Qed.

Lemma open_rb_intact fs path f :
  fs !! path = Some (Regular f) → intact f = true →
  ∃ h, open_rb fs path = inr h ∧ unread h = contents f ∧ deliverable h.
Proof.
  unfold open_rb, intact, deliverable. intros -> [Hr Hf]%andb_prop.
  rewrite Hr. eexists; split; [done|]. simpl. split; [done|].
  destruct (fault f); [by apply Nat.leb_le|done].
Qed.

Lemma calculate_md5_intact fs path f :
  fs !! path = Some (Regular f) → intact f = true →
  calculate_md5 fs path = ((Some (Hashlib.md5_hex (contents f)), path), []).
Proof.
  intros Hfs Hok. destruct (open_rb_intact _ _ _ Hfs Hok) as (h & Ho & Hu & Hd).
  unfold calculate_md5. rewrite Ho, (read_chunks_deliverable _ _ Hd), Hu. done.
Qed.

End ReadFacts.

(** ** The digest of a file *)
Section Digest.
Import Io DuplicateImageFinder Sample.

(** C1: two readable files with the same bytes get the same fingerprint
    from [calculate_md5].  The fingerprint depends on the bytes only: it
    is what the accumulator gives after the successive 4096-byte chunks
    of the content, which is the MD5 of the whole content, written as 32
    lowercase hexadecimal digits. *)
Theorem calculate_md5_same_content
    (fs : gmap string node) (path1 path2 : string) (f1 f2 : file) :
  fs !! path1 = Some (Regular f1) → fs !! path2 = Some (Regular f2) →
  intact f1 = true → intact f2 = true →
  contents f1 = contents f2 →
  ∃ fingerprint,
    (calculate_md5 fs path1).1 = (Some fingerprint, path1)
    ∧ (calculate_md5 fs path2).1 = (Some fingerprint, path2)
    ∧ fingerprint
      = Hashlib.hexdigest
          (fold_left Hashlib.update (chunks 4096 (contents f1)) Hashlib.new)
    ∧ fingerprint = Hashlib.md5_hex (contents f1)
    ∧ String.length fingerprint = 32
    ∧ Forall (fun c => c ∈ Hashlib.hex_alphabet) (list_ascii_of_string fingerprint).
Proof.
  intros H1 H2 Hok1 Hok2 Heq.
  exists (Hashlib.md5_hex (contents f1)).
  rewrite (calculate_md5_intact _ _ _ H1 Hok1).
  rewrite (calculate_md5_intact _ _ _ H2 Hok2), <-Heq.
  split; [done|]. split; [done|].
  split; [unfold Hashlib.md5_hex; by rewrite update_chunked, chunks_concat|].
  split; [done|].
  split; [apply hexdigest_length|apply hex_of_bytes_lowercase].
Qed.

Lemma calculate_md5_same_content_witness :
  ∃ fingerprint,
    (calculate_md5 sample_fs "a.jpg").1 = (Some fingerprint, "a.jpg")
    ∧ (calculate_md5 sample_fs "c.jpg").1 = (Some fingerprint, "c.jpg")
    ∧ fingerprint
      = Hashlib.hexdigest
          (fold_left Hashlib.update (chunks 4096 (contents picture)) Hashlib.new)
    ∧ fingerprint = Hashlib.md5_hex (contents picture)
    ∧ String.length fingerprint = 32
    ∧ Forall (fun c => c ∈ Hashlib.hex_alphabet) (list_ascii_of_string fingerprint).
Proof.
  apply (calculate_md5_same_content sample_fs "a.jpg" "c.jpg" picture picture);
    vm_compute; reflexivity.
Defined.

Example picture_chunks : map length (chunks 4096 (contents picture)) = [4096; 904].
Proof. vm_compute. reflexivity. Qed.

Example picture_md5 :
  calculate_md5 sample_fs "a.jpg"
  = ((Some "7aaa7dec709fa4fa82f3746abfd80bdb", "a.jpg"), []).
Proof. vm_compute. reflexivity. Qed.

(** A file that cannot be opened, a missing file, a directory and a
    device that fails in the second chunk all give [None] with a message;
    a fault beyond the end of the file is never met. *)
Example calculate_md5_failures :
  calculate_md5 sample_fs "d.gif"
  = ((None, "d.gif"), [MsgMd5Failed "d.gif" PermissionError])
  ∧ calculate_md5 sample_fs "e.bmp"
    = ((None, "e.bmp"), [MsgMd5Failed "e.bmp" FileNotFoundError])
  ∧ calculate_md5 (<["dir" := Directory]> sample_fs) "dir"
    = ((None, "dir"), [MsgMd5Failed "dir" IsADirectoryError])
  ∧ calculate_md5
      (<["f" := Regular (File (contents picture) true (Some 4500))]> sample_fs) "f"
    = ((None, "f"), [MsgMd5Failed "f" OSError_EIO])
  ∧ calculate_md5
      (<["g" := Regular (File (contents picture) true (Some 5000))]> sample_fs) "g"
    = ((Some "7aaa7dec709fa4fa82f3746abfd80bdb", "g"), []).
Proof. vm_compute. done. Qed.

End Digest.


(** ** The executor and the loop over [as_completed] *)
Section Pool.
Import Io PyDict DuplicateImageFinder.
Context (fs : gmap string node).
Implicit Types (st : state) (r : result) (rs : list result).

Lemma outcome_path file_path : (outcome fs file_path).2 = file_path.
Proof.
  unfold outcome, calculate_md5.
  by destruct (open_rb fs file_path) as [|f]; [|destruct (read_chunks f _)].
Qed.


Lemma fingerprint_truthy file_path key :
  fingerprint fs file_path = Some key → truthy (Some key) = true.
Proof.
  unfold fingerprint, outcome, calculate_md5.
  destruct (open_rb fs file_path) as [|f]; [done|].
  destruct (read_chunks f _) as [|h]; [done|]. simpl. intros [= <-].
  destruct (String.eqb_spec (Hashlib.hexdigest h) EmptyString); [|done].
  by destruct (hexdigest_nonempty h).
Qed.

Lemma calculate_md5_failed_output file_path :
  fingerprint fs file_path = None →
  ∃ e, (calculate_md5 fs file_path).2 = [MsgMd5Failed file_path e].
Proof.
  unfold fingerprint, outcome, calculate_md5.
  destruct (open_rb fs file_path) as [e|f]; [by eauto|].
  destruct (read_chunks f _) as [e|h]; [by eauto|]. done.
Qed.

(** Every step moves one future to its next stage. *)
Lemma step_futures w n st ev st' :
  step w fs n st ev = Some st' → futures fs st' ≡ₚ futures fs st.
Proof.
  unfold step, futures. destruct ev as [|i|i].
  - destruct (queue st) as [|p rest] eqn:Hq; [done|].
    destruct (_ <? _); [|done]. intros [= <-]. simpl.
    rewrite fmap_app. simpl. solve_Permutation.
  - destruct (running st !! i) as [p|] eqn:Hi; [|done].
    destruct (calculate_md5 fs p) as [r out] eqn:Hc. intros [= <-]. simpl.
    assert (r = outcome fs p) as -> by (unfold outcome; by rewrite Hc).
    rewrite (delete_Permutation (running st) i p Hi) at 2. simpl.
    solve_Permutation.
  - destruct (finished st !! i) as [r|] eqn:Hi; [|done].
    intros [= <-]. unfold consume. simpl.
    rewrite (delete_Permutation (finished st) i r Hi) at 2.
    solve_Permutation.
Qed.

Lemma run_futures w n schedule st st' :
  run w fs n schedule st = Some st' → futures fs st' ≡ₚ futures fs st.
Proof.
  revert st. induction schedule as [|ev sch IH]; intros st; simpl.
  - by intros [= <-].
  - destruct (step w fs n st ev) as [st1|] eqn:Hs; [|done].
    intros H. rewrite (IH _ H). by eapply step_futures.
Qed.

(** The groups are the aggregate of the results consumed so far, and the
    counter counts them. *)
Lemma step_aggregate w n st ev st' d0 :
  step w fs n st ev = Some st' →
  groups st = aggregate (yielded st) d0 ∧ completed st = length (yielded st) →
  groups st' = aggregate (yielded st') d0 ∧ completed st' = length (yielded st').
Proof.
  unfold step. destruct ev as [|i|i].
  - destruct (queue st); [done|]. destruct (_ <? _); [|done]. by intros [= <-].
  - destruct (running st !! i); [|done].
    destruct (calculate_md5 fs _). by intros [= <-].
  - destruct (finished st !! i) as [r|]; [|done].
    intros [= <-] [Hg Hc]. unfold consume, aggregate in *. simpl.
    rewrite fold_left_app, length_app, <-Hg, Hc. simpl. done.
Qed.

Lemma run_aggregate w n schedule st st' d0 :
  run w fs n schedule st = Some st' →
  groups st = aggregate (yielded st) d0 ∧ completed st = length (yielded st) →
  groups st' = aggregate (yielded st') d0 ∧ completed st' = length (yielded st').
Proof.
  revert st. induction schedule as [|ev sch IH]; intros st; simpl.
  - by intros [= <-].
  - destruct (step w fs n st ev) as [st1|] eqn:Hs; [|done].
    intros H Hinv. apply (IH _ H). by eapply step_aggregate.
Qed.

Lemma exhausted_futures st : exhausted st = true → futures fs st = yielded st.
Proof.
  unfold exhausted, futures.
  by destruct (queue st), (running st), (finished st).
Qed.

(** A failed digest leaves its message on the output before its result
    can be consumed. *)
Lemma step_failed_printed w n st ev st' :
  step w fs n st ev = Some st' →
  (∀ p, (None, p) ∈ finished st ++ yielded st →
        ∃ e, MsgMd5Failed p e ∈ stdout st) →
  (∀ p, (None, p) ∈ finished st' ++ yielded st' →
        ∃ e, MsgMd5Failed p e ∈ stdout st').
Proof.
  unfold step. destruct ev as [|i|i].
  - destruct (queue st); [done|]. destruct (_ <? _); [|done]. by intros [= <-].
  - destruct (running st !! i) as [q|] eqn:Hi; [|done].
    destruct (calculate_md5 fs q) as [r out] eqn:Hc. intros [= <-] Hinv p. simpl.
    rewrite <-app_assoc, !elem_of_app, list_elem_of_singleton.
    intros [Hin|[Hr|Hin]].
    + destruct (Hinv p) as [e He]; [apply elem_of_app; auto|].
      exists e. apply elem_of_app. auto.
    + assert (fingerprint fs q = None ∧ p = q) as [Hf ->].
      { pose proof (outcome_path q) as Hp.
        unfold fingerprint, outcome in *. rewrite Hc in *. subst r. simpl in *.
        done. }
      destruct (calculate_md5_failed_output q Hf) as [e He].
      rewrite Hc in He. simpl in He. subst out. exists e.
      apply elem_of_app. right. apply list_elem_of_singleton. done.
    + destruct (Hinv p) as [e He]; [apply elem_of_app; auto|].
      exists e. apply elem_of_app. auto.
  - destruct (finished st !! i) as [r|] eqn:Hi; [|done].
    intros [= <-] Hinv p. unfold consume. simpl.
    intros Hin.
    assert ((None, p) ∈ finished st ++ yielded st) as Hold.
    { assert (finished st ++ yielded st
              ≡ₚ delete i (finished st) ++ yielded st ++ [r]) as HP.
      { rewrite (delete_Permutation (finished st) i r Hi) at 1.
        solve_Permutation. }
      by rewrite HP. }
    destruct (Hinv p Hold) as [e He]. exists e.
    destruct (_ =? 0); [apply elem_of_app; auto|done].
Qed.

Lemma run_failed_printed w n schedule st st' :
  run w fs n schedule st = Some st' →
  (∀ p, (None, p) ∈ finished st ++ yielded st →
        ∃ e, MsgMd5Failed p e ∈ stdout st) →
  (∀ p, (None, p) ∈ finished st' ++ yielded st' →
        ∃ e, MsgMd5Failed p e ∈ stdout st').
Proof.
  revert st. induction schedule as [|ev sch IH]; intros st; simpl.
  - by intros [= <-].
  - destruct (step w fs n st ev) as [st1|] eqn:Hs; [|done].
    intros H Hinv. apply (IH _ H). by eapply step_failed_printed.
Qed.








(** What a complete execution of [process_images] leaves behind. *)
Lemma process_images_complete self image_files schedule self' rs out :
  process_images fs self image_files schedule = Some (self', rs, out) →
  rs ≡ₚ (outcome fs <$> image_files)
  ∧ md5_dict self' = aggregate rs (md5_dict self)
  ∧ max_workers self' = max_workers self
  ∧ (∀ p, (None, p) ∈ rs → ∃ e, MsgMd5Failed p e ∈ out).
Proof.
  unfold process_images. destruct (max_workers self =? 0); [done|].
  destruct (run _ _ _ _ _) as [st|] eqn:Hrun; [|done].
  destruct (exhausted st) eqn:Hex; [|done]. intros [= <- <- <-].
  pose proof (run_futures _ _ _ _ _ Hrun) as Hbag.
  rewrite (exhausted_futures _ Hex) in Hbag.
  unfold futures, submitted in Hbag. simpl in Hbag. rewrite app_nil_r in Hbag.
  destruct (run_aggregate _ _ _ _ _ (md5_dict self) Hrun) as [Hg _]; [done|].
  split; [done|]. split; [done|]. split; [done|].
  intros p Hp.
  destruct (run_failed_printed _ _ _ _ _ Hrun) with (p := p) as [e He].
  - simpl. intros ? H. by apply elem_of_nil in H.
  - apply elem_of_app. by right.
  - exists e. apply elem_of_app. by left.
Qed.

Lemma sound_outcomes image_files : sound ((outcome fs <$> image_files)).
Proof.
  apply Forall_forall. intros r [p [-> _]]%list_elem_of_fmap key Hk.
  by eapply fingerprint_truthy.
Qed.

Lemma sound_Permutation rs rs' : rs ≡ₚ rs' → sound rs' → sound rs.
Proof. unfold sound. by intros ->. Qed.

Lemma add_to_group_Some key p (d : dict (list string)) :
  truthy (Some key) = true → add_to_group (Some key, p) d = append_item key p d.
Proof. unfold add_to_group. by intros ->. Qed.

Lemma add_to_group_None p (d : dict (list string)) : add_to_group (None, p) d = d.
Proof. done. Qed.

Lemma aggregate_total rs d :
  sound rs →
  total (aggregate rs d) = total d + length (filter (fun r => is_Some r.1) rs).
Proof.
  unfold aggregate. intros Hs. revert d.
  induction Hs as [|[[key|] p] rs Hr Hs IH]; intros d; cbn [fold_left].
  - simpl. lia.
  - rewrite IH, add_to_group_Some, total_append_item by (by apply Hr).
    rewrite filter_cons_True by (simpl; eauto). simpl. lia.
  - rewrite IH, add_to_group_None. rewrite filter_cons_False; [done|].
    simpl. by intros [? ?].
Qed.

Lemma aggregate_get rs d key :
  sound rs →
  default [] (get key (aggregate rs d))
  = default [] (get key d) ++ (filter (fun r => r.1 = Some key) rs).*2.
Proof.
  unfold aggregate. intros Hs. revert d.
  induction Hs as [|[[key'|] p] rs Hr Hs IH]; intros d; cbn [fold_left].
  - simpl. by rewrite app_nil_r.
  - rewrite IH, add_to_group_Some by (by apply Hr).
    destruct (decide (key' = key)) as [->|Hne].
    + rewrite get_append_item_eq, filter_cons_True by done. simpl.
      by rewrite <-app_assoc.
    + rewrite get_append_item_ne, filter_cons_False by (simpl; congruence).
      done.
  - rewrite IH, add_to_group_None, filter_cons_False by done. done.
Qed.

Lemma aggregate_wf rs d : wf d → wf (aggregate rs d).
Proof.
  unfold aggregate. revert d.
  induction rs as [|[[key|] p] rs IH]; intros d Hd; simpl; [done|..].
  - apply IH. destruct (negb _); auto using wf_append_item.
  - by apply IH.
Qed.

Lemma filter_fingerprint key image_files :
  (filter (fun r : result => r.1 = Some key) ((outcome fs <$> image_files))).*2
  = filed_under fs key image_files.
Proof.
  unfold filed_under, fingerprint.
  induction image_files as [|p files IH]; [done|]. rewrite fmap_cons.
  rewrite (filter_cons _ p), filter_cons.
  destruct (decide ((outcome fs p).1 = Some key)); [|done].
  by rewrite fmap_cons, IH, outcome_path.
Qed.

Lemma succeeded_or_failed image_files :
  length (filter (fun r : result => is_Some r.1) ((outcome fs <$> image_files)))
  + length (failed fs image_files) = length image_files.
Proof.
  unfold failed, fingerprint.
  induction image_files as [|p files IH]; [done|]. rewrite fmap_cons.
  rewrite (filter_cons _ p), filter_cons.
  destruct ((outcome fs p).1) as [key|] eqn:Hp.
  - rewrite decide_True by eauto. rewrite decide_False by done. simpl. lia.
  - rewrite decide_False by (by intros [? ?]). rewrite decide_True by done.
    simpl. lia.
Qed.

End Pool.

(** ** process_images *)
Section ProcessImages.
Import Io PyDict DuplicateImageFinder Sample.


Lemma process_images_groups
    (fs : gmap string node) (workers : nat) (image_files : list string)
    (schedule : list event) (self' : finder) (rs : list result)
    (out : list msg) :
  process_images fs (init workers) image_files schedule = Some (self', rs, out) →
  ∀ key, default [] (get key (md5_dict self')) ≡ₚ filed_under fs key image_files.
Proof.
  intros H key. apply process_images_complete in H as (Hp & Hd & _).
  cbn [md5_dict init] in Hd.
  assert (sound rs) as Hs by (eapply sound_Permutation, sound_outcomes; done).
  rewrite Hd, (aggregate_get rs [] key Hs). simpl.
  by rewrite Hp, filter_fingerprint.
Qed.

Lemma process_images_failed_ungrouped
    (fs : gmap string node) (workers : nat) (image_files : list string)
    (schedule : list event) (self' : finder) (rs : list result)
    (out : list msg) :
  process_images fs (init workers) image_files schedule = Some (self', rs, out) →
  ∀ key paths file_path,
    get key (md5_dict self') = Some paths → file_path ∈ paths →
    file_path ∉ failed fs image_files.
Proof.
  intros H key paths p Hg Hin Hfail.
  pose proof (process_images_groups _ _ _ _ _ _ _ H key) as Hgroups.
  rewrite Hg in Hgroups. simpl in Hgroups. rewrite Hgroups in Hin.
  apply list_elem_of_filter in Hin as [Hk _].
  apply list_elem_of_filter in Hfail as [Hn _]. congruence.
Qed.

(** C3: after [process_images] on a fresh finder, the paths stored in the
    groups of [md5_dict] and the failed digests add up to the input: the
    group of a fingerprint holds exactly the input paths with that
    fingerprint, a failed path is in no group, and the number of stored
    paths plus the number of failures is the number of input files. *)
Theorem process_images_conservation
    (fs : gmap string node) (workers : nat) (image_files : list string)
    (schedule : list event) (self' : finder) (rs : list result)
    (out : list msg) :
  process_images fs (init workers) image_files schedule = Some (self', rs, out) →
  total (md5_dict self') + length (failed fs image_files) = length image_files
  ∧ wf (md5_dict self')
  ∧ (∀ key, default [] (get key (md5_dict self'))
            ≡ₚ filed_under fs key image_files)
  ∧ (∀ key paths file_path,
        get key (md5_dict self') = Some paths → file_path ∈ paths →
        file_path ∉ failed fs image_files).
Proof.
  intros H.
  pose proof (process_images_groups _ _ _ _ _ _ _ H) as Hgroups.
  pose proof (process_images_failed_ungrouped _ _ _ _ _ _ _ H) as Hfailed.
  apply process_images_complete in H as (Hp & Hd & _).
  cbn [md5_dict init] in Hd.
  assert (sound rs) as Hs by (eapply sound_Permutation, sound_outcomes; done).
  split; [|split; [|split]]; [| |done|done].
  - rewrite Hd, (aggregate_total rs [] Hs), Hp. cbn [total map sum_list].
    apply succeeded_or_failed.
  - rewrite Hd. apply aggregate_wf. constructor.
Qed.

Lemma aggregate_skips_failures rs (d : dict (list string)) :
  aggregate rs d = aggregate (filter (fun r => is_Some r.1) rs) d.
Proof.
  unfold aggregate. revert d.
  induction rs as [|[[key|] p] rs IH]; intros d; [done|..].
  - rewrite filter_cons_True by (simpl; eauto). cbn [fold_left]. apply IH.
  - rewrite filter_cons_False by (simpl; by intros [? ?]). cbn [fold_left].
    rewrite add_to_group_None. apply IH.
Qed.

(** C4, as the code has it: the finder keeps no list of failures.  The
    loop skips a failed digest, so [md5_dict] is built from the successful
    results alone; a failed path is consumed and counted by the loop, is
    in no group, and is reported only by the message [calculate_md5]
    prints. *)
Theorem process_images_failures_skipped
    (fs : gmap string node) (workers : nat) (image_files : list string)
    (schedule : list event) (self' : finder) (rs : list result)
    (out : list msg) :
  process_images fs (init workers) image_files schedule = Some (self', rs, out) →
  md5_dict self' = aggregate (filter (fun r => is_Some r.1) rs) []
  ∧ ∀ file_path,
      file_path ∈ failed fs image_files →
      (None, file_path) ∈ rs
      ∧ (∀ key paths, get key (md5_dict self') = Some paths →
                      file_path ∉ paths)
      ∧ ∃ e, MsgMd5Failed file_path e ∈ out.
Proof.
  intros H.
  pose proof (process_images_failed_ungrouped _ _ _ _ _ _ _ H) as Hno.
  apply process_images_complete in H as (Hp & Hd & _ & Hout).
  split; [by rewrite Hd, <-aggregate_skips_failures|].
  intros p Hfail.
  assert ((None, p) ∈ rs) as Hin.
  { rewrite Hp. apply list_elem_of_fmap. exists p.
    apply list_elem_of_filter in Hfail as [Hn Hinp]. split; [|done].
    pose proof (outcome_path fs p) as Hpath. unfold fingerprint in Hn.
    destruct (outcome fs p) as [m q]. simpl in *. by subst. }
  split; [done|]. split; [|by apply Hout].
  intros key paths Hg Hinp. by eapply Hno.
Qed.

(** C4, as stated, fails: two scans that fail on different paths leave
    the same finder, so the failed paths cannot be read off it. *)
Lemma process_images_no_failure_list : ¬ exposes_failure_list.
Proof.
  intros [failure_list Hexp].
  pose proof (Hexp ∅ 1 ["x.jpg"] (sequential ["x.jpg"]) (init 1)
                [(None, "x.jpg")]
                [MsgProcessing 1; MsgMd5Failed "x.jpg" FileNotFoundError;
                 MsgAllProcessed] eq_refl) as Hx.
  pose proof (Hexp ∅ 1 ["y.jpg"] (sequential ["y.jpg"]) (init 1)
                [(None, "y.jpg")]
                [MsgProcessing 1; MsgMd5Failed "y.jpg" FileNotFoundError;
                 MsgAllProcessed] eq_refl) as Hy.
  rewrite Hx in Hy. vm_compute in Hy.
  apply Permutation_singleton_l in Hy. discriminate.
Qed.


Lemma process_images_conservation_witness :
  total (md5_dict sample_finder) + length (failed sample_fs sample_files)
  = length sample_files
  ∧ wf (md5_dict sample_finder)
  ∧ (∀ key, default [] (get key (md5_dict sample_finder))
            ≡ₚ filed_under sample_fs key sample_files)
  ∧ (∀ key paths file_path,
        get key (md5_dict sample_finder) = Some paths → file_path ∈ paths →
        file_path ∉ failed sample_fs sample_files).
Proof.
  apply (process_images_conservation sample_fs 2 sample_files sample_schedule
           sample_finder sample_results sample_output).
  vm_compute. reflexivity.
Defined.

Lemma process_images_failures_skipped_witness :
  md5_dict sample_finder
  = aggregate (filter (fun r => is_Some r.1) sample_results) []
  ∧ ∀ file_path,
      file_path ∈ failed sample_fs sample_files →
      (None, file_path) ∈ sample_results
      ∧ (∀ key paths, get key (md5_dict sample_finder) = Some paths →
                      file_path ∉ paths)
      ∧ ∃ e, MsgMd5Failed file_path e ∈ sample_output.
Proof.
  apply (process_images_failures_skipped sample_fs 2 sample_files
           sample_schedule sample_finder sample_results sample_output).
  vm_compute. reflexivity.
Defined.

(** Without a worker the pool is not created. *)
Example no_worker_no_pool :
  process_images sample_fs (init 0) [] [] = None
  ∧ process_images sample_fs (init 1) [] [] = Some (init 1, [], [MsgProcessing 0; MsgAllProcessed]).
Proof. split; reflexivity. Qed.

(** With one worker the results come in the order of submission; with two
    they need not. *)
Example one_worker_in_order :
  process_images sample_fs (init 1) sample_files (sequential sample_files)
  = Some (Finder 1 [("7aaa7dec709fa4fa82f3746abfd80bdb", ["a.jpg"; "c.jpg"]);
                    ("d16fb36f0911f878998c136191af705e", ["b.png"])],
          outcome sample_fs <$> sample_files, sample_output).
Proof. vm_compute. reflexivity. Qed.

Example two_workers_no_third_task :
  process_images sample_fs (init 2) sample_files [Start; Start; Start] = None.
Proof. vm_compute. reflexivity. Qed.

Example failures_counted :
  failed sample_fs sample_files = ["d.gif"; "e.bmp"]
  ∧ total (md5_dict sample_finder) = 3.
Proof. vm_compute. done. Qed.

End ProcessImages.

(** ** find_duplicates *)
Section FindDuplicates.
Import PyDict DuplicateImageFinder Sample.

Lemma set_fresh {V} k (v : V) (d : dict V) :
  get k d = None → set k v d = d ++ [(k, v)].
Proof.
  induction d as [|[k' v'] d IH]; simpl; [done|].
  destruct (String.eqb_spec k' k); [done|]. intros H. by rewrite IH.
Qed.

Lemma find_duplicates_fold (items acc : dict (list string)) :
  wf (acc ++ items) →
  fold_left
    (fun duplicates '(md5_value, paths) =>
       if 1 <? length paths then set md5_value paths duplicates
       else duplicates) items acc
  = acc ++ filter (fun kv => 1 < length kv.2) items.
Proof.
  revert acc. induction items as [|[k v] items IH]; intros acc Hwf.
  - simpl. by rewrite app_nil_r.
  - cbn [fold_left]. rewrite filter_cons. cbn [snd].
    assert (get k acc = None) as Hfresh.
    { apply get_None. unfold wf, keys in *. rewrite fmap_app in Hwf.
      apply NoDup_app in Hwf as (_ & Hdisj & _). intros Hin.
      apply (Hdisj k Hin). rewrite fmap_cons. left. }
    destruct (Nat.ltb_spec 1 (length v)).
    + rewrite decide_True by done. rewrite set_fresh by done.
      rewrite IH; [by rewrite <-app_assoc|]. by rewrite <-app_assoc.
    + rewrite decide_False by lia. apply IH.
      unfold wf, keys in *. rewrite fmap_app, fmap_cons in Hwf.
      rewrite fmap_app. apply NoDup_app in Hwf as (Ha & Hdisj & Hi).
      apply NoDup_cons in Hi as [_ Hi]. apply NoDup_app. split; [done|].
      split; [|done]. intros x Hx Hx'. apply (Hdisj x Hx). by right.
Qed.

Lemma wf_filter {V} (P : string * V → Prop) `{!∀ kv, Decision (P kv)} (d : dict V) :
  wf d → wf (filter P d).
Proof.
  unfold wf, keys. induction d as [|[k v] d IH]; [done|].
  rewrite fmap_cons, filter_cons. intros [Hk Hd]%NoDup_cons.
  destruct (decide (P (k, v))); [|auto].
  rewrite fmap_cons. apply NoDup_cons. split; [|auto].
  intros [[k' v'] [Hkk Hin]]%list_elem_of_fmap. simpl in Hkk. subst k'.
  apply list_elem_of_filter in Hin as [_ Hin].
  apply Hk. apply list_elem_of_fmap. by exists (k, v').
Qed.

(** C5: [find_duplicates] returns the entries of [md5_dict] whose list
    has more than one path, keys and lists unchanged and in the order of
    [md5_dict], and the number of groups that [print_results] reports is
    the number of these entries. *)
Theorem find_duplicates_groups (self : finder) :
  wf (md5_dict self) →
  find_duplicates self = filter (fun kv => 1 < length kv.2) (md5_dict self)
  ∧ wf (find_duplicates self)
  ∧ (∀ md5_value paths,
        get md5_value (find_duplicates self) = Some paths
        ↔ get md5_value (md5_dict self) = Some paths ∧ 1 < length paths)
  ∧ len (find_duplicates self)
    = length (filter (fun kv => 1 < length kv.2) (md5_dict self))
  ∧ match find_duplicates self with
    | [] => print_results self = [MsgNoDuplicates]
    | _ :: _ => head (print_results self)
                = Some (MsgFoundGroups
                          (length (filter (fun kv => 1 < length kv.2)
                                          (md5_dict self))))
    end.
Proof.
  intros Hwf.
  assert (find_duplicates self
          = filter (fun kv => 1 < length kv.2) (md5_dict self)) as Heq.
  { unfold find_duplicates. by rewrite find_duplicates_fold. }
  assert (wf (find_duplicates self)) as Hwf'.
  { rewrite Heq. by apply wf_filter. }
  split; [done|]. split; [done|]. split; [|split].
  - intros k paths. split.
    + intros Hg. apply get_Some_elem in Hg. rewrite Heq in Hg.
      apply list_elem_of_filter in Hg as [Hlen Hin]. split; [|done].
      by apply elem_get_Some.
    + intros [Hg Hlen]. apply elem_get_Some; [done|]. rewrite Heq.
      apply list_elem_of_filter. split; [done|]. by apply get_Some_elem.
  - unfold len. by rewrite Heq.
  - unfold print_results, len. rewrite <-Heq.
    by destruct (find_duplicates self).
Qed.

Lemma find_duplicates_groups_witness :
  find_duplicates sample_finder
  = filter (fun kv => 1 < length kv.2) (md5_dict sample_finder)
  ∧ wf (find_duplicates sample_finder)
  ∧ (∀ md5_value paths,
        get md5_value (find_duplicates sample_finder) = Some paths
        ↔ get md5_value (md5_dict sample_finder) = Some paths
          ∧ 1 < length paths)
  ∧ len (find_duplicates sample_finder)
    = length (filter (fun kv => 1 < length kv.2) (md5_dict sample_finder))
  ∧ match find_duplicates sample_finder with
    | [] => print_results sample_finder = [MsgNoDuplicates]
    | _ :: _ => head (print_results sample_finder)
                = Some (MsgFoundGroups
                          (length (filter (fun kv => 1 < length kv.2)
                                          (md5_dict sample_finder))))
    end.
Proof.
  apply (find_duplicates_groups sample_finder).
  unfold wf. apply (bool_decide_unpack _). vm_compute. exact I.
Defined.

Example sample_duplicates :
  find_duplicates sample_finder
  = [("7aaa7dec709fa4fa82f3746abfd80bdb", ["a.jpg"; "c.jpg"])]
  ∧ print_results sample_finder
    = [MsgFoundGroups 1;
       MsgGroup "7aaa7dec709fa4fa82f3746abfd80bdb" ["a.jpg"; "c.jpg"]].
Proof. vm_compute. done. Qed.

End FindDuplicates.

(** ** The prune script *)
Section DeleteFileFacts.
Import PyDict Os DeleteFile.
Implicit Types (st : vars) (x : value) (items : list (string * value)).

Lemma valid_inv v :
  valid v = true ↔ ∃ first others, v = VList (first :: others).
Proof.
  unfold valid. split.
  - destruct v as [| | | | |[|first others]|]; simpl; try done;
      rewrite ?andb_false_r; try done. eauto.
  - by intros (first & others & ->).
Qed.

Lemma tail_of_invalid v : valid v = false → tail_of v = [].
Proof. by destruct v as [| | | | |[|first others]|]. Qed.

Lemma process_entry_invalid st md5_hash file_list :
  valid file_list = false →
  process_entry st (md5_hash, file_list)
  = Vars (world st) (kept_files_data st) (files_deleted_count st)
         (processed_md5_count st + 1) (stdout st ++ [WarnInvalidList md5_hash]).
Proof.
  unfold process_entry, valid. intros Hv.
  rewrite <-negb_andb, Hv. done.
Qed.

Lemma process_entry_valid st md5_hash first others :
  process_entry st (md5_hash, VList (first :: others))
  = fold_left delete_file others
      (Vars (world st) (set md5_hash [first] (kept_files_data st))
            (files_deleted_count st) (processed_md5_count st + 1) (stdout st)).
Proof. done. Qed.

Lemma delete_file_removable st x :
  removable (world st) x = true →
  ∃ path, x = VStr path
    ∧ path ∈ existing (world st) ∧ (path ∉ locked (world st))
    ∧ delete_file st x
      = Vars (World (existing (world st) ∖ {[path]}) (locked (world st))
                    (open_fds (world st)))
             (kept_files_data st) (files_deleted_count st + 1)
             (processed_md5_count st) (stdout st ++ [Deleted x]).
Proof.
  destruct x as [| | | |path| |]; try done. simpl.
  intros [He Hl%negb_true_iff]%andb_prop.
  exists path. apply bool_decide_eq_true in He. apply bool_decide_eq_false in Hl.
  split; [done|]. split; [done|]. split; [done|].
  unfold delete_file, remove_if_exists, path_exists, remove.
  by rewrite !bool_decide_eq_true_2, bool_decide_eq_false_2 by done.
Qed.

Lemma delete_file_unremovable st x :
  removable (world st) x = false →
  ∃ m, delete_file st x = say m st ∧ target m = Some x ∧ is_Deleted m = false.
Proof.
  unfold delete_file, remove_if_exists, path_exists, remove.
  destruct x as [|b|n|bits|path|l|items]; simpl; intros Hr.
  - by eexists.
  - destruct (bool_decide _); by eexists.
  - destruct (fits_c_int n); [destruct (bool_decide _)|]; by eexists.
  - by eexists.
  - destruct (bool_decide (path ∈ existing (world st))); simpl in Hr.
    + apply negb_false_iff in Hr. rewrite Hr. by eexists.
    + by eexists.
  - by eexists.
  - by eexists.
Qed.

(** What one attempt leaves unchanged, and the single message it prints. *)
Lemma delete_file_frame st x :
  kept_files_data (delete_file st x) = kept_files_data st
  ∧ processed_md5_count (delete_file st x) = processed_md5_count st
  ∧ locked (world (delete_file st x)) = locked (world st)
  ∧ open_fds (world (delete_file st x)) = open_fds (world st)
  ∧ ∃ m, stdout (delete_file st x) = stdout st ++ [m] ∧ target m = Some x.
Proof.
  destruct (removable (world st) x) eqn:Hr.
  - destruct (delete_file_removable st x Hr) as (p & -> & _ & _ & ->). simpl.
    repeat split; eauto.
  - destruct (delete_file_unremovable st x Hr) as (m & -> & Hm & _). simpl.
    repeat split; eauto.
Qed.

Lemma delete_file_existing st x path :
  path ∈ existing (world (delete_file st x))
  ↔ path ∈ existing (world st) ∧ ¬ (x = VStr path ∧ path ∉ locked (world st)).
Proof.
  destruct (removable (world st) x) eqn:Hr.
  - destruct (delete_file_removable st x Hr) as (q & -> & He & Hl & ->). simpl.
    rewrite elem_of_difference, elem_of_singleton. split.
    + intros [Hp Hne]. split; [done|]. intros [[= ->] _]. done.
    + intros [Hp Hno]. split; [done|]. intros ->. apply Hno. done.
  - destruct (delete_file_unremovable st x Hr) as (m & -> & _ & _). simpl.
    split; [|by intros [? _]]. intros Hp. split; [done|].
    intros [-> Hl]. simpl in Hr.
    rewrite bool_decide_eq_true_2, bool_decide_eq_false_2 in Hr by done. done.
Qed.

Lemma attempted_app out out' : attempted (out ++ out') = attempted out ++ attempted out'.
Proof. unfold attempted. apply omap_app. Qed.

Lemma fold_delete_frame xs st :
  let st' := fold_left delete_file xs st in
  kept_files_data st' = kept_files_data st
  ∧ processed_md5_count st' = processed_md5_count st
  ∧ locked (world st') = locked (world st)
  ∧ open_fds (world st') = open_fds (world st)
  ∧ attempted (stdout st') = attempted (stdout st) ++ xs.
Proof.
  revert st. induction xs as [|x xs IH]; intros st; cbn [fold_left].
  - by rewrite app_nil_r.
  - destruct (IH (delete_file st x)) as (Hk & Hp & Hl & Ho & Ha).
    destruct (delete_file_frame st x) as (Hk' & Hp' & Hl' & Ho' & m & Hm & Ht).
    cbn zeta in *. rewrite Hk, Hp, Hl, Ho, Ha, Hk', Hp', Hl', Ho', Hm.
    rewrite attempted_app. unfold attempted at 2. simpl. rewrite Ht. simpl.
    by rewrite <-app_assoc.
Qed.

Lemma fold_delete_existing xs st path :
  path ∈ existing (world (fold_left delete_file xs st))
  ↔ path ∈ existing (world st)
    ∧ ¬ (VStr path ∈ xs ∧ path ∉ locked (world st)).
Proof.
  revert st. induction xs as [|x xs IH]; intros st; cbn [fold_left].
  - split; [|by intros [? _]]. intros H. split; [done|].
    intros [Hin _]. by apply elem_of_nil in Hin.
  - rewrite IH, delete_file_existing.
    destruct (delete_file_frame st x) as (_ & _ & -> & _).
    rewrite elem_of_cons. split.
    + intros [[He Hx] Hxs]. split; [done|]. intros [[Heq|Hin] Hl].
      * apply Hx. by split.
      * apply Hxs. by split.
    + intros [He Hno]. split; [split; [done|]|].
      * intros [Heq Hl]. apply Hno. split; [by left|done].
      * intros [Hin Hl]. apply Hno. split; [by right|done].
Qed.

Lemma process_entry_frame st md5_hash file_list :
  let st' := process_entry st (md5_hash, file_list) in
  kept_files_data st' = keep (kept_files_data st) (md5_hash, file_list)
  ∧ processed_md5_count st' = processed_md5_count st + 1
  ∧ locked (world st') = locked (world st)
  ∧ open_fds (world st') = open_fds (world st)
  ∧ attempted (stdout st') = attempted (stdout st) ++ tail_of file_list
  ∧ ∀ path,
      path ∈ existing (world st')
      ↔ path ∈ existing (world st)
        ∧ ¬ (VStr path ∈ tail_of file_list ∧ path ∉ locked (world st)).
Proof.
  cbn zeta. destruct (valid file_list) eqn:Hv.
  - apply valid_inv in Hv as (first & others & ->).
    rewrite process_entry_valid.
    match goal with |- context [fold_left delete_file others ?s] =>
      destruct (fold_delete_frame others s) as (Hk & Hp & Hl & Ho & Ha);
      pose proof (fold_delete_existing others s) as He end.
    cbn zeta in *. simpl in *. rewrite Hk, Hp, Hl, Ho, Ha. done.
  - rewrite process_entry_invalid, (tail_of_invalid _ Hv) by done. simpl.
    rewrite attempted_app, app_nil_r. unfold keep.
    split; [by destruct file_list as [| | | | |[|? ?]|]|].
    rewrite !app_nil_r. do 4 (split; [done|]).
    intros path. split; [|by intros [? _]].
    intros H. split; [done|]. intros [Hin _]. by apply elem_of_nil in Hin.
Qed.

Lemma walk_frame items st :
  let st' := fold_left process_entry items st in
  kept_files_data st' = fold_left keep items (kept_files_data st)
  ∧ processed_md5_count st' = processed_md5_count st + length items
  ∧ locked (world st') = locked (world st)
  ∧ open_fds (world st') = open_fds (world st)
  ∧ attempted (stdout st') = attempted (stdout st) ++ tails items
  ∧ ∀ path,
      path ∈ existing (world st')
      ↔ path ∈ existing (world st)
        ∧ ¬ (VStr path ∈ tails items ∧ path ∉ locked (world st)).
Proof.
  revert st. induction items as [|[k v] items IH]; intros st; cbn [fold_left].
  - cbn zeta. simpl. rewrite app_nil_r, Nat.add_0_r.
    do 5 (split; [done|]).
    intros path. split; [|by intros [? _]].
    intros H. split; [done|]. intros [Hin _]. by apply elem_of_nil in Hin.
  - destruct (IH (process_entry st (k, v))) as (Hk & Hp & Hl & Ho & Ha & He).
    destruct (process_entry_frame st k v) as (Hk' & Hp' & Hl' & Ho' & Ha' & He').
    cbn zeta in *. rewrite Hk, Hp, Hl, Ho, Ha, Hk', Hp', Hl', Ho', Ha'.
    unfold tails. cbn [flat_map length snd]. fold (tails items).
    rewrite <-app_assoc.
    split; [done|]. split; [lia|]. do 3 (split; [done|]).
    intros path. rewrite He, He', Hl', elem_of_app. tauto.
Qed.

Lemma keep_fresh items (acc : dict (list value)) :
  NoDup (keys acc ++ keys items) →
  fold_left keep items acc = acc ++ retained items.
Proof.
  revert acc. induction items as [|[k v] items IH]; intros acc Hnd.
  - simpl. by rewrite app_nil_r.
  - cbn [fold_left]. unfold retained. cbn [omap list_omap]. fold (retained items).
    unfold keys in Hnd. rewrite fmap_cons in Hnd. cbn [fst] in Hnd.
    assert (get k acc = None) as Hfresh.
    { apply get_None. apply NoDup_app in Hnd as (_ & Hdisj & _).
      intros Hin. apply (Hdisj k Hin). left. }
    assert (NoDup (keys acc ++ keys items)) as Hrest.
    { apply NoDup_app in Hnd as (Ha & Hdisj & Hi).
      apply NoDup_cons in Hi as [_ Hi]. apply NoDup_app. split; [done|].
      split; [|done]. intros y Hy Hy'. apply (Hdisj y Hy). by right. }
    unfold keep at 2. cbn [fst snd].
    destruct v as [| | | | |[|first others]|]; try (by apply IH).
    rewrite set_fresh by done. rewrite IH; [by rewrite <-app_assoc|].
    unfold keys. rewrite fmap_app, fmap_cons. cbn [fst fmap list_fmap].
    rewrite <-app_assoc. exact Hnd.
Qed.

Lemma keys_retained items k : k ∈ keys (retained items) → k ∈ keys items.
Proof.
  unfold keys, retained. induction items as [|[k' v] items IH]; [done|].
  cbn [omap list_omap snd fst]. rewrite fmap_cons. cbn [fst].
  destruct v as [| | | | |[|first others]|];
    rewrite ?fmap_cons; cbn [fst]; rewrite ?elem_of_cons; tauto.
Qed.

Lemma wf_retained items : wf items → wf (retained items).
Proof.
  unfold wf. induction items as [|[k v] items IH]; [done|].
  unfold keys at 1. rewrite fmap_cons. intros [Hk Hd]%NoDup_cons.
  unfold retained. cbn [omap list_omap snd fst]. fold (retained items).
  destruct v as [| | | | |[|first others]|]; try (by apply IH).
  unfold keys. rewrite fmap_cons. apply NoDup_cons. split; [|by apply IH].
  intros Hin. apply Hk. by apply keys_retained.
Qed.

Lemma get_retained items md5_hash :
  wf items →
  get md5_hash (retained items)
  = match get md5_hash items with
    | Some (VList (first_file_path :: _)) => Some [first_file_path]
    | _ => None
    end.
Proof.
  unfold wf. induction items as [|[k v] items IH]; [done|].
  unfold keys at 1. rewrite fmap_cons. intros [Hk Hd]%NoDup_cons.
  unfold retained. cbn [omap list_omap snd fst get]. fold (retained items).
  destruct (String.eqb_spec k md5_hash) as [->|Hne].
  - destruct v as [| | | | |[|first others]|];
      try (apply get_None; intros Hin; apply Hk; by apply keys_retained).
    cbn [get]. by rewrite String.eqb_refl.
  - destruct v as [| | | | |[|first others]|]; try (by apply IH).
    cbn [get]. destruct (String.eqb_spec k md5_hash); [done|]. by apply IH.
Qed.

Lemma length_retained items :
  length (retained items) = length (filter (fun kv => valid kv.2 = true) items).
Proof.
  unfold retained. induction items as [|[k v] items IH]; [done|].
  rewrite filter_cons. cbn [omap list_omap snd].
  destruct (decide (valid v = true)) as [Hv|Hv].
  - apply valid_inv in Hv as (first & others & ->). simpl. by rewrite IH.
  - destruct v as [| | | | |[|first others]|]; try exact IH. by destruct Hv.
Qed.

Lemma prune_items w data items :
  entries data = inr (Some items) →
  prune w data
  = let st := fold_left process_entry items (start w) in
    let new_json_structure :=
      Report (len (kept_files_data st)) (kept_files_data st) in
    (Vars (world st) (kept_files_data st) (files_deleted_count st)
          (processed_md5_count st)
          (stdout st ++ [MsgScanned (processed_md5_count st);
                         MsgKept (len (kept_files_data st));
                         MsgDeletedTotal (files_deleted_count st);
                         MsgJson new_json_structure]),
     Some new_json_structure).
Proof. unfold prune, walk. by intros ->. Qed.

Lemma kept_retained w items :
  wf items →
  kept_files_data (fold_left process_entry items (start w)) = retained items.
Proof.
  intros Hwf. destruct (walk_frame items (start w)) as (-> & _).
  rewrite keep_fresh; done.
Qed.


Lemma fold_delete_stdout xs st :
  ∃ out, stdout (fold_left delete_file xs st) = stdout st ++ out.
Proof.
  revert st. induction xs as [|x xs IH]; intros st; cbn [fold_left].
  - exists []. by rewrite app_nil_r.
  - destruct (IH (delete_file st x)) as (out & ->).
    destruct (delete_file_frame st x) as (_ & _ & _ & _ & m & -> & _).
    exists (m :: out). by rewrite <-app_assoc.
Qed.

Lemma process_entry_stdout st entry :
  ∃ out, stdout (process_entry st entry) = stdout st ++ out
         ∧ (valid entry.2 = false → out = [WarnInvalidList entry.1]).
Proof.
  destruct entry as [k v]. destruct (valid v) eqn:Hv.
  - apply valid_inv in Hv as (first & others & ->).
    rewrite process_entry_valid.
    match goal with |- context [fold_left delete_file others ?s] =>
      destruct (fold_delete_stdout others s) as (out & ->) end.
    simpl. by exists out.
  - rewrite process_entry_invalid by done. simpl. eauto.
Qed.

Lemma walk_stdout items st m :
  m ∈ stdout st → m ∈ stdout (fold_left process_entry items st).
Proof.
  revert st. induction items as [|e items IH]; intros st Hm; [done|].
  cbn [fold_left]. apply IH.
  destruct (process_entry_stdout st e) as (out & -> & _).
  apply elem_of_app. by left.
Qed.


(** Attempts on paths that cannot be removed change nothing on disk. *)
Lemma fold_delete_settled xs st :
  (∀ x, x ∈ xs → removable (world st) x = false) →
  let st' := fold_left delete_file xs st in
  world st' = world st
  ∧ files_deleted_count st' = files_deleted_count st
  ∧ ∀ x, Deleted x ∈ stdout st' → Deleted x ∈ stdout st.
Proof.
  revert st. induction xs as [|x xs IH]; intros st Hs; cbn [fold_left]; [done|].
  destruct (delete_file_unremovable st x) as (m & Hd & _ & Hm);
    [apply Hs; by left|].
  destruct (IH (delete_file st x)) as (Hw & Hc & Ho).
  { rewrite Hd. simpl. intros y Hy. apply Hs. by right. }
  cbn zeta in *. rewrite Hd in Hw, Hc, Ho |- *. rewrite Hw, Hc. simpl.
  split; [done|]. split; [done|].
  intros y Hy. apply Ho in Hy. simpl in Hy.
  apply elem_of_app in Hy as [Hy|Hy]; [done|].
  apply list_elem_of_singleton in Hy. by subst m.
Qed.

Lemma walk_settled items st :
  (∀ x, x ∈ tails items → removable (world st) x = false) →
  let st' := fold_left process_entry items st in
  world st' = world st
  ∧ files_deleted_count st' = files_deleted_count st
  ∧ ∀ x, Deleted x ∈ stdout st' → Deleted x ∈ stdout st.
Proof.
  revert st. induction items as [|[k v] items IH]; intros st Hs;
    cbn [fold_left]; [done|].
  unfold tails in Hs. cbn [flat_map snd] in Hs. fold (tails items) in Hs.
  assert (world (process_entry st (k, v)) = world st
          ∧ files_deleted_count (process_entry st (k, v)) = files_deleted_count st
          ∧ ∀ x, Deleted x ∈ stdout (process_entry st (k, v)) →
                 Deleted x ∈ stdout st) as (Hw & Hc & Ho).
  { destruct (valid v) eqn:Hv.
    - apply valid_inv in Hv as (first & others & ->).
      rewrite process_entry_valid.
      match goal with |- context [fold_left delete_file others ?s] =>
        destruct (fold_delete_settled others s) as (Hw & Hc & Ho) end.
      { simpl. intros x Hx. apply Hs. apply elem_of_app. by left. }
      done.
    - rewrite process_entry_invalid by done. simpl.
      split; [done|]. split; [done|]. intros x Hx.
      apply elem_of_app in Hx as [Hx|Hx]; [done|].
      by apply list_elem_of_singleton in Hx. }
  destruct (IH (process_entry st (k, v))) as (Hw' & Hc' & Ho').
  { rewrite Hw. intros x Hx. apply Hs. apply elem_of_app. by right. }
  cbn zeta in *. rewrite Hw', Hc', Hw, Hc. auto.
Qed.

(** After a walk, no element of a tail can be removed any more. *)
Lemma walk_leaves_settled items st x :
  x ∈ tails items →
  removable (world (fold_left process_entry items st)) x = false.
Proof.
  intros Hx. destruct (walk_frame items st) as (_ & _ & Hl & _ & _ & He).
  cbn zeta in *. destruct x as [| | | |path| |]; try done. simpl.
  rewrite Hl. destruct (bool_decide_reflect (path ∈ locked (world st))) as [|Hnl];
    [by rewrite andb_false_r|].
  rewrite bool_decide_eq_false_2; [done|].
  rewrite He. intros [_ Hno]. apply Hno. done.
Qed.

Lemma is_path_dec x path : x = VStr path ∨ x ≠ VStr path.
Proof.
  destruct x as [| | | |q| |]; try (by right).
  destruct (decide (q = path)) as [->|Hne]; [by left|right; congruence].
Qed.

Lemma path_elem_dec path (xs : list value) : VStr path ∈ xs ∨ VStr path ∉ xs.
Proof.
  induction xs as [|x xs [IH|IH]].
  - right. apply not_elem_of_nil.
  - left. by right.
  - destruct (is_path_dec x path) as [->|Hne]; [left; by left|].
    right. rewrite not_elem_of_cons. split; [congruence|done].
Qed.

(** A removable path met in a tail is removed, and the removal is
    printed. *)
Lemma fold_delete_deletes (xs : list value) st path :
  VStr path ∈ xs → path ∈ existing (world st) → path ∉ locked (world st) →
  Deleted (VStr path) ∈ stdout (fold_left delete_file xs st).
Proof.
  revert st. induction xs as [|x xs IH]; intros st Hin He Hl.
  - by apply elem_of_nil in Hin.
  - cbn [fold_left]. destruct (is_path_dec x path) as [->|Hne].
    + destruct (delete_file_removable st (VStr path)) as (q & _ & _ & _ & Hd).
      { simpl. by rewrite bool_decide_eq_true_2, bool_decide_eq_false_2. }
      destruct (fold_delete_stdout xs (delete_file st (VStr path))) as (out & ->).
      rewrite Hd. simpl. rewrite !elem_of_app, list_elem_of_singleton. auto.
    + apply elem_of_cons in Hin as [Heq|Hin]; [congruence|].
      destruct (delete_file_frame st x) as (_ & _ & Hl' & _).
      apply IH; [done| |by rewrite Hl'].
      apply delete_file_existing. split; [done|]. by intros [? _].
Qed.

Lemma walk_deletes items st path :
  VStr path ∈ tails items →
  path ∈ existing (world st) → path ∉ locked (world st) →
  Deleted (VStr path) ∈ stdout (fold_left process_entry items st).
Proof.
  revert st. induction items as [|[k v] items IH]; intros st Hin He Hl.
  - by apply elem_of_nil in Hin.
  - cbn [fold_left]. unfold tails in Hin. cbn [flat_map snd] in Hin.
    fold (tails items) in Hin.
    destruct (path_elem_dec path (tail_of v)) as [Hv|Hv].
    + apply walk_stdout.
      destruct v as [| | | | |[|first others]|];
        try (by apply elem_of_nil in Hv).
      rewrite process_entry_valid. by apply fold_delete_deletes.
    + apply elem_of_app in Hin as [Hin|Hin]; [done|].
      destruct (process_entry_frame st k v) as (_ & _ & Hl' & _ & _ & He').
      cbn zeta in *. apply IH; [done| |by rewrite Hl'].
      apply He'. split; [done|]. by intros [? _].
Qed.

Lemma entries_Some data items :
  entries data = inr (Some items)
  ↔ ∃ top, data = VDict top ∧ get "duplicates" top = Some (VDict items).
Proof.
  unfold entries, Py.contains, Py.getitem, contains. split.
  - destruct data as [| | | |str|l|top]; try done.
    + by destruct (Py.substring_of _ _).
    + by destruct (existsb _ _).
    + destruct (get "duplicates" top) as [v|] eqn:Hg; [|done].
      destruct v; try done. intros [= ->]. eauto.
  - intros (top & -> & ->). done.
Qed.

End DeleteFileFacts.

(** ** Claims about the prune script *)
Section Prune.
Import PyDict Os DeleteFile Sample.

(** C6: on a report with a [duplicates] dictionary, the updated report
    lists, for every valid entry (a non-empty list) and for no other, the
    single path [paths[0]], and [found_duplicates_count] is the number of
    valid entries. *)
Theorem prune_report (w : Os.world) (data : value) (items : list (string * value)) :
  entries data = inr (Some items) → wf items →
  ∃ st,
    prune w data
    = (st, Some (Report (length (filter (fun kv => valid kv.2 = true) items))
                        (retained items)))
    ∧ kept_files_data st = retained items
    ∧ wf (retained items)
    ∧ ∀ md5_hash,
        get md5_hash (retained items)
        = match get md5_hash items with
          | Some (VList (first_file_path :: _)) => Some [first_file_path]
          | _ => None
          end.
Proof.
  intros He Hwf. rewrite (prune_items w data items He). cbn zeta.
  rewrite (kept_retained w items Hwf). unfold len. rewrite length_retained.
  eexists. split; [done|]. simpl. split; [done|].
  split; [by apply wf_retained|]. intros k. by apply get_retained.
Qed.



(** C9: a second run of the script on the same report, on the disk the
    first run left, builds the same updated report and removes nothing:
    the disk is unchanged, the count of deleted files is 0 and no
    deletion is printed. *)
Theorem prune_twice (w : Os.world) (data : value) :
  let first := prune w data in
  let second := prune (world first.1) data in
  second.2 = first.2
  ∧ kept_files_data second.1 = kept_files_data first.1
  ∧ world second.1 = world first.1
  ∧ files_deleted_count second.1 = 0
  ∧ ∀ x, Deleted x ∉ stdout second.1.
Proof.
  cbn zeta. unfold prune, walk.
  destruct (entries data) as [e|[items|]]; simpl.
  - repeat split; try done. intros x Hx.
    apply list_elem_of_singleton in Hx. done.
  - set (st1 := fold_left process_entry items (start w)).
    destruct (walk_settled items (start (world st1))) as (Hw & Hc & Ho).
    { intros x Hx. simpl. by apply walk_leaves_settled. }
    destruct (walk_frame items (start w)) as (Hk1 & _).
    destruct (walk_frame items (start (world st1))) as (Hk2 & _).
    cbn zeta in *. fold st1 in Hk1. simpl in *.
    rewrite Hk2, Hk1, Hw, Hc. repeat split; try done.
    intros x Hx. apply elem_of_app in Hx as [Hx|Hx].
    + apply Ho in Hx. by apply elem_of_nil in Hx.
    + repeat (apply elem_of_cons in Hx as [Hx|Hx]; [done|]).
      by apply elem_of_nil in Hx.
  - repeat split; try done. intros x Hx.
    repeat (apply elem_of_cons in Hx as [Hx|Hx]; [done|]).
    by apply elem_of_nil in Hx.
Qed.

Lemma sample_items_wf : wf sample_items.
Proof. unfold wf. apply (bool_decide_unpack _). vm_compute. exact I. Defined.

Lemma prune_report_witness :
  ∃ st,
    prune sample_world sample_report
    = (st, Some (Report (length (filter (fun kv => valid kv.2 = true) sample_items))
                        (retained sample_items)))
    ∧ kept_files_data st = retained sample_items
    ∧ wf (retained sample_items)
    ∧ ∀ md5_hash,
        get md5_hash (retained sample_items)
        = match get md5_hash sample_items with
          | Some (VList (first_file_path :: _)) => Some [first_file_path]
          | _ => None
          end.
Proof.
  apply (prune_report sample_world sample_report sample_items);
    [reflexivity|exact sample_items_wf].
Defined.


(** The sample run: [c.jpg] is removed, [gone] is missing, [y] is refused
    by the system, the integer is not a path, two entries are skipped, and
    [x], listed twice under [fp4], is removed although the report keeps
    it. *)
Example sample_prune :
  let '(st, new_json_structure) := prune sample_world sample_report in
  stdout st
  = [Deleted (VStr "c.jpg"); WarnMissing (VStr "gone");
     ErrOS (VStr "y") PermissionError; WarnMissing (VInt 3);
     WarnInvalidList "fp2"; WarnInvalidList "fp3"; Deleted (VStr "x");
     MsgScanned 4; MsgKept 2; MsgDeletedTotal 2;
     MsgJson (Report 2 [("fp1", [VStr "a.jpg"]); ("fp4", [VStr "x"])])]
  ∧ new_json_structure
    = Some (Report 2 [("fp1", [VStr "a.jpg"]); ("fp4", [VStr "x"])])
  ∧ existing (world st) = {[ "a.jpg"; "y"; "keep.png" ]}
  ∧ files_deleted_count st = 2
  ∧ processed_md5_count st = 4.
Proof. vm_compute. done. Qed.

Example sample_prune_again :
  let first := prune sample_world sample_report in
  let second := prune (world first.1) sample_report in
  stdout second.1
  = [WarnMissing (VStr "c.jpg"); WarnMissing (VStr "gone");
     ErrOS (VStr "y") PermissionError; WarnMissing (VInt 3);
     WarnInvalidList "fp2"; WarnInvalidList "fp3"; WarnMissing (VStr "x");
     MsgScanned 4; MsgKept 2; MsgDeletedTotal 0;
     MsgJson (Report 2 [("fp1", [VStr "a.jpg"]); ("fp4", [VStr "x"])])].
Proof. vm_compute. done. Qed.

(** A report that is not a dictionary with a [duplicates] dictionary. *)
Example prune_malformed :
  (prune sample_world (VList [VStr "duplicates"])).2 = None
  ∧ (prune sample_world (VInt 3)).2 = None
  ∧ (prune sample_world (VDict [("duplicates", VList [])])).2 = Some (Report 0 [])
  ∧ (prune sample_world (VStr "no such key")).2 = Some (Report 0 []).
Proof. vm_compute. done. Qed.

End Prune.


(** ** The prune script: disk, counters and report *)
Section PruneDisk.
Import PyDict Os DeleteFile Rebuilt Sample.
Implicit Types (st : vars) (x : value) (items : list (string * value)).

Lemma deletions_app out out' : deletions (out ++ out') = deletions out + deletions out'.
Proof. unfold deletions. by rewrite filter_app, length_app. Qed.

(** One attempt: either a file leaves the disk, the counter moves and the
    removal is printed, or none of the three happens. *)
Lemma delete_file_balance st x :
  let st' := delete_file st x in
  size (existing (world st')) + files_deleted_count st'
  = size (existing (world st)) + files_deleted_count st
  ∧ files_deleted_count st' + deletions (stdout st)
    = files_deleted_count st + deletions (stdout st')
  ∧ existing (world st') ⊆ existing (world st).
Proof.
  cbn zeta. destruct (removable (world st) x) eqn:Hr.
  - destruct (delete_file_removable st x Hr) as (p & -> & He & _ & ->). simpl.
    rewrite deletions_app. unfold deletions at 3. simpl.
    rewrite size_difference by set_solver. rewrite size_singleton.
    assert (size (existing (world st)) ≠ 0).
    { apply size_non_empty_iff. set_solver. }
    split; [lia|]. split; [lia|set_solver].
  - destruct (delete_file_unremovable st x Hr) as (m & -> & _ & Hm). simpl.
    rewrite deletions_app. unfold deletions at 3.
    rewrite filter_cons_False by (by rewrite Hm). simpl.
    split; [done|]. split; [lia|done].
Qed.

Lemma fold_delete_balance (xs : list value) st :
  let st' := fold_left delete_file xs st in
  size (existing (world st')) + files_deleted_count st'
  = size (existing (world st)) + files_deleted_count st
  ∧ files_deleted_count st' + deletions (stdout st)
    = files_deleted_count st + deletions (stdout st')
  ∧ existing (world st') ⊆ existing (world st).
Proof.
  revert st. induction xs as [|x xs IH]; intros st; cbn [fold_left]; [done|].
  destruct (IH (delete_file st x)) as (H1 & H2 & H3).
  destruct (delete_file_balance st x) as (H1' & H2' & H3').
  cbn zeta in *. split; [lia|]. split; [lia|set_solver].
Qed.

Lemma process_entry_balance st entry :
  let st' := process_entry st entry in
  size (existing (world st')) + files_deleted_count st'
  = size (existing (world st)) + files_deleted_count st
  ∧ files_deleted_count st' + deletions (stdout st)
    = files_deleted_count st + deletions (stdout st')
  ∧ existing (world st') ⊆ existing (world st).
Proof.
  destruct entry as [k v]. cbn zeta. destruct (valid v) eqn:Hv.
  - apply valid_inv in Hv as (first & others & ->).
    rewrite process_entry_valid.
    match goal with |- context [fold_left delete_file others ?s] =>
      destruct (fold_delete_balance others s) as (H1 & H2 & H3) end.
    cbn zeta in *. simpl in *. done.
  - rewrite process_entry_invalid by done. simpl.
    rewrite deletions_app. unfold deletions at 3. simpl.
    split; [done|]. split; [lia|done].
Qed.

Lemma walk_balance items st :
  let st' := fold_left process_entry items st in
  size (existing (world st')) + files_deleted_count st'
  = size (existing (world st)) + files_deleted_count st
  ∧ files_deleted_count st' + deletions (stdout st)
    = files_deleted_count st + deletions (stdout st')
  ∧ existing (world st') ⊆ existing (world st).
Proof.
  revert st. induction items as [|e items IH]; intros st; cbn [fold_left]; [done|].
  destruct (IH (process_entry st e)) as (H1 & H2 & H3).
  destruct (process_entry_balance st e) as (H1' & H2' & H3').
  cbn zeta in *. split; [lia|]. split; [lia|set_solver].
Qed.

(** X3: the updated report, the dictionary of retained paths, the number
    of groups scanned and the list of deletions attempted depend on the
    input report only, not on what is on disk: a retained path is listed
    whether or not its file exists. *)
Theorem prune_report_ignores_disk (w w' : Os.world) (data : value) :
  (prune w data).2 = (prune w' data).2
  ∧ kept_files_data (prune w data).1 = kept_files_data (prune w' data).1
  ∧ processed_md5_count (prune w data).1 = processed_md5_count (prune w' data).1
  ∧ attempted (stdout (prune w data).1) = attempted (stdout (prune w' data).1).
Proof.
  unfold prune, walk. destruct (entries data) as [e|[items|]]; simpl; [done| |done].
  destruct (walk_frame items (start w)) as (Hk & Hp & _ & _ & Ha & _).
  destruct (walk_frame items (start w')) as (Hk' & Hp' & _ & _ & Ha' & _).
  cbn zeta in *. simpl in *.
  rewrite !attempted_app, Hk, Hk', Hp, Hp', Ha, Ha'. done.
Qed.

Lemma entries_other data :
  (∀ items, entries data ≠ inr (Some items)) →
  entries data = if breaks_the_test data then inl TypeError else inr None.
Proof.
  intros Hno. unfold entries, Py.contains, Py.getitem, contains, breaks_the_test.
  destruct data as [| | | |str|l|top]; [done..| | |].
  - reflexivity.
  - simpl. by destruct (existsb _ l).
  - destruct (get "duplicates" top) as [v|] eqn:Hg; [|done].
    destruct v; try done. exfalso. apply (Hno items).
    unfold entries, Py.contains, Py.getitem, contains. by rewrite Hg.
Qed.

(** X4: a report without a [duplicates] dictionary never costs a file.
    Either the script warns and builds the empty report, or, when the
    test itself raises (the data is a number, a boolean, null, a list
    holding the string, or a string containing it), the outer handler
    reports the error and no report is built. *)
Theorem prune_without_duplicates (w : Os.world) (data : value) :
  (∀ items, entries data ≠ inr (Some items)) →
  world (prune w data).1 = w
  ∧ files_deleted_count (prune w data).1 = 0
  ∧ if breaks_the_test data
    then prune w data = (say (ErrUnexpected TypeError) (start w), None)
    else (prune w data).2 = Some (Report 0 [])
         ∧ stdout (prune w data).1
           = [WarnNoDuplicates; MsgScanned 0; MsgKept 0; MsgDeletedTotal 0;
              MsgJson (Report 0 [])].
Proof.
  intros Hno. unfold prune, walk. rewrite (entries_other data Hno).
  by destruct (breaks_the_test data).
Qed.

Lemma prune_without_duplicates_witness :
  world (prune sample_world (VList [VStr "duplicates"])).1 = sample_world
  ∧ files_deleted_count (prune sample_world (VList [VStr "duplicates"])).1 = 0
  ∧ if breaks_the_test (VList [VStr "duplicates"])
    then prune sample_world (VList [VStr "duplicates"])
         = (say (ErrUnexpected TypeError) (start sample_world), None)
    else (prune sample_world (VList [VStr "duplicates"])).2 = Some (Report 0 [])
         ∧ stdout (prune sample_world (VList [VStr "duplicates"])).1
           = [WarnNoDuplicates; MsgScanned 0; MsgKept 0; MsgDeletedTotal 0;
              MsgJson (Report 0 [])].
Proof.
  apply (prune_without_duplicates sample_world (VList [VStr "duplicates"])).
  intros items. vm_compute. discriminate.
Defined.

Lemma wf_keep items (acc : dict (list value)) :
  wf acc → wf (fold_left keep items acc).
Proof.
  revert acc. induction items as [|[k v] items IH]; intros acc Hwf; [done|].
  cbn [fold_left]. apply IH. unfold keep. cbn [fst snd].
  destruct v as [| | | | |[|first others]|]; auto using wf_set.
Qed.

Lemma singletons_set k first (acc : dict (list value)) :
  singletons acc → singletons (set k [first] acc).
Proof.
  unfold singletons. induction acc as [|[k' l] acc IH]; simpl.
  - intros _. constructor; [by eexists|constructor].
  - intros [Hl Hacc]%Forall_cons. destruct (String.eqb k' k).
    + constructor; [by eexists|done].
    + constructor; [done|by apply IH].
Qed.

Lemma singletons_keep items (acc : dict (list value)) :
  singletons acc → singletons (fold_left keep items acc).
Proof.
  revert acc. induction items as [|[k v] items IH]; intros acc Hs; [done|].
  cbn [fold_left]. apply IH. unfold keep. cbn [fst snd].
  destruct v as [| | | | |[|first others]|]; auto using singletons_set.
Qed.

Lemma as_data_entries r :
  entries (as_data r)
  = inr (Some (map (fun kl => (kl.1, VList kl.2)) (duplicates r))).
Proof. done. Qed.

Lemma singletons_retained (kept : dict (list value)) :
  singletons kept →
  retained (map (fun kl => (kl.1, VList kl.2)) kept) = kept
  ∧ tails (map (fun kl => (kl.1, VList kl.2)) kept) = [].
Proof.
  unfold singletons, retained, tails.
  induction 1 as [|[k l] kept [first Hl] Hs [IH1 IH2]]; [done|].
  simpl in Hl. subst l. cbn [map omap list_omap flat_map fst snd tail_of].
  by rewrite IH1, IH2.
Qed.

(** X5: the structure the script builds is a fixed point of the script.
    Taken as input on any disk, it is rebuilt unchanged, every group is
    scanned and kept, and no deletion is attempted. *)
Theorem prune_rebuilt_report
    (w w' : Os.world) (data : value) (new_json_structure : report) :
  (prune w data).2 = Some new_json_structure →
  (prune w' (as_data new_json_structure)).2 = Some new_json_structure
  ∧ world (prune w' (as_data new_json_structure)).1 = w'
  ∧ attempted (stdout (prune w' (as_data new_json_structure)).1) = []
  ∧ files_deleted_count (prune w' (as_data new_json_structure)).1 = 0
  ∧ processed_md5_count (prune w' (as_data new_json_structure)).1
    = found_duplicates_count new_json_structure.
Proof.
  intros Hr.
  assert (wf (duplicates new_json_structure)
          ∧ singletons (duplicates new_json_structure)
          ∧ found_duplicates_count new_json_structure
            = length (duplicates new_json_structure)) as (Hwf & Hs & Hc).
  { unfold prune, walk in Hr. destruct (entries data) as [e|[items|]];
      simpl in Hr; [done| |].
    - injection Hr as <-. simpl.
      destruct (walk_frame items (start w)) as (-> & _). simpl.
      split; [apply wf_keep; constructor|].
      split; [apply singletons_keep; constructor|done].
    - injection Hr as <-. simpl. split; [constructor|]. split; [constructor|done]. }
  destruct (singletons_retained _ Hs) as (Hret & Htl).
  set (items' := map (fun kl => (kl.1, VList kl.2)) (duplicates new_json_structure)).
  fold items' in Hret, Htl.
  assert (wf items') as Hwf'.
  { unfold wf, keys, items'. rewrite <-list_fmap_compose.
    erewrite list_fmap_ext; [exact Hwf|]. by intros ? [? ?]. }
  rewrite (prune_items w' _ items' (as_data_entries _)). cbn zeta. simpl.
  rewrite (kept_retained w' items' Hwf'), Hret.
  destruct (walk_frame items' (start w')) as (_ & Hp & Hl & Ho & Ha & Hex).
  destruct (walk_settled items' (start w')) as (Hw & Hd & _).
  { rewrite Htl. intros x Hx. by apply elem_of_nil in Hx. }
  cbn zeta in *. simpl in *. rewrite attempted_app, Ha, Htl, Hw, Hd, Hp.
  unfold len, items'. rewrite length_map, <-Hc.
  by destruct new_json_structure.
Qed.

Lemma prune_rebuilt_report_witness :
  (prune sample_world
     (as_data (Report 2 [("fp1", [VStr "a.jpg"]); ("fp4", [VStr "x"])]))).2
  = Some (Report 2 [("fp1", [VStr "a.jpg"]); ("fp4", [VStr "x"])])
  ∧ world (prune sample_world
             (as_data (Report 2 [("fp1", [VStr "a.jpg"]); ("fp4", [VStr "x"])]))).1
    = sample_world
  ∧ attempted
      (stdout (prune sample_world
                 (as_data (Report 2 [("fp1", [VStr "a.jpg"]); ("fp4", [VStr "x"])]))).1)
    = []
  ∧ files_deleted_count
      (prune sample_world
         (as_data (Report 2 [("fp1", [VStr "a.jpg"]); ("fp4", [VStr "x"])]))).1
    = 0
  ∧ processed_md5_count
      (prune sample_world
         (as_data (Report 2 [("fp1", [VStr "a.jpg"]); ("fp4", [VStr "x"])]))).1
    = found_duplicates_count
        (Report 2 [("fp1", [VStr "a.jpg"]); ("fp4", [VStr "x"])]).
Proof.
  apply (prune_rebuilt_report sample_world sample_world sample_report
           (Report 2 [("fp1", [VStr "a.jpg"]); ("fp4", [VStr "x"])])).
  vm_compute. reflexivity.
Defined.

End PruneDisk.

(** ** The scan: outcomes, groups and duplicates *)
Section ScanFacts.
Import Io PyDict DuplicateImageFinder ScanOutput Sample SecondScan.

Lemma read_fault n f :
  ¬ deliverable f →
  read (S n) f = inl OSError_EIO
  ∨ ∃ b chunk f', read (S n) f = inr (b :: chunk, f') ∧ ¬ deliverable f'.
Proof.
  unfold read, deliverable. intros Hbad.
  destruct (fault_in f) as [k|]; [|by destruct Hbad].
  rewrite length_take.
  destruct (Nat.ltb_spec k (S n `min` length (unread f))) as [Hlt|Hge];
    [by left|right].
  destruct (unread f) as [|x u] eqn:Hu; [simpl in Hbad; lia|].
  exists x, (take n u). eexists. split; [done|].
  cbn [fault_in unread drop]. rewrite length_drop. simpl in *. lia.
Qed.

Lemma read_chunks_fault f h :
  ¬ deliverable f → read_chunks f h = inl OSError_EIO.
Proof.
  funelim (read_chunks f h); intros Hbad.
  all: match goal with H : read _ _ = _ |- _ => pose proof H as Hread end.
  all: destruct (read_fault 4095 _ Hbad) as [Hf|(b0 & c0 & f0 & Hf & Hbad')].
  all: rewrite Hf in Hread; try discriminate.
  - by injection Hread as <-.
  - injection Hread as _ _ <-.
    match goal with IH : _ → read_chunks _ _ = _ |- _ => by apply IH end.
Qed.

Lemma open_rb_Regular fs path f :
  fs !! path = Some (Regular f) → may_read f = true →
  open_rb fs path = inr (Handle (contents f) (fault f)).
Proof. unfold open_rb. by intros -> ->. Qed.

Lemma calculate_md5_faulty fs file_path f :
  fs !! file_path = Some (Regular f) → may_read f = true → intact f = false →
  calculate_md5 fs file_path
  = ((None, file_path), [MsgMd5Failed file_path OSError_EIO]).
Proof.
  intros Hfs Hr Hi. unfold calculate_md5. rewrite (open_rb_Regular _ _ _ Hfs Hr).
  rewrite read_chunks_fault; [done|].
  unfold deliverable, intact in *. rewrite Hr in Hi. simpl in *.
  destruct (fault f) as [k|]; [|done].
  apply Nat.leb_gt in Hi. lia.
Qed.

Lemma calculate_md5_cases (fs : gmap string node) (file_path : string) :
  calculate_md5 fs file_path
  = match fs !! file_path with
    | None =>
        ((None, file_path), [MsgMd5Failed file_path FileNotFoundError])
    | Some Directory =>
        ((None, file_path), [MsgMd5Failed file_path IsADirectoryError])
    | Some (Regular f) =>
        if may_read f then
          if intact f
          then ((Some (Hashlib.md5_hex (contents f)), file_path), [])
          else ((None, file_path), [MsgMd5Failed file_path OSError_EIO])
        else ((None, file_path), [MsgMd5Failed file_path PermissionError])
    | Some (Unopenable e) =>
        ((None, file_path), [MsgMd5Failed file_path e])
    end.
Proof.
  destruct (fs !! file_path) as [[|f|e]|] eqn:Hfs.
  - unfold calculate_md5, open_rb. by rewrite Hfs.
  - destruct (may_read f) eqn:Hr.
    + destruct (intact f) eqn:Hi; [by apply calculate_md5_intact|].
      by apply (calculate_md5_faulty fs file_path f).
    + unfold calculate_md5, open_rb. by rewrite Hfs, Hr.
  - unfold calculate_md5, open_rb. by rewrite Hfs.
  - unfold calculate_md5, open_rb. by rewrite Hfs.
Qed.

Lemma fingerprint_Some fs file_path key :
  fingerprint fs file_path = Some key
  ↔ ∃ f, fs !! file_path = Some (Regular f) ∧ intact f = true
         ∧ key = Hashlib.md5_hex (contents f).
Proof.
  unfold fingerprint, outcome.
  destruct (fs !! file_path) as [[|f|e]|] eqn:Hfs.
  - unfold calculate_md5, open_rb. rewrite Hfs. simpl.
    split; [done|]. by intros (f & ? & _).
  - destruct (may_read f) eqn:Hr, (intact f) eqn:Hi.
    + rewrite (calculate_md5_intact fs file_path f Hfs Hi). simpl.
      split; [intros [= <-]; eauto|]. by intros (g & [= <-] & _ & ->).
    + rewrite (calculate_md5_faulty fs file_path f Hfs Hr Hi). simpl.
      split; [done|]. intros (g & [= <-] & Hg & _). congruence.
    + unfold intact in Hi. rewrite Hr in Hi. done.
    + unfold calculate_md5, open_rb. rewrite Hfs, Hr. simpl.
      split; [done|]. intros (g & [= <-] & Hg & _). congruence.
  - unfold calculate_md5, open_rb. rewrite Hfs. simpl.
    split; [done|]. by intros (f & ? & _).
  - unfold calculate_md5, open_rb. rewrite Hfs. simpl.
    split; [done|]. by intros (f & ? & _).
Qed.

Lemma keys_append_item {A} k (x : A) (d : dict (list A)) :
  keys (append_item k x d) = if contains k d then keys d else keys d ++ [k].
Proof.
  unfold append_item, getitem_default, contains.
  destruct (get k d) eqn:Hg.
  - rewrite keys_set. unfold contains. by rewrite Hg.
  - rewrite !keys_set. unfold contains. rewrite Hg, get_set_eq. done.
Qed.

Lemma keys_aggregate rs (d : dict (list string)) :
  sound rs →
  (∃ new, keys (aggregate rs d) = keys d ++ new)
  ∧ ∀ key, key ∈ keys (aggregate rs d)
           ↔ key ∈ keys d ∨ ∃ p, (Some key, p) ∈ rs.
Proof.
  unfold aggregate. intros Hs. revert d.
  induction Hs as [|[[k|] p] rs Hr Hs IH]; intros d; cbn [fold_left].
  - split; [exists []; by rewrite app_nil_r|].
    intros key. split; [by left|]. intros [?|[q Hq]]; [done|].
    by apply elem_of_nil in Hq.
  - rewrite add_to_group_Some by (by apply Hr).
    destruct (IH (append_item k p d)) as ([new Hnew] & Hin).
    rewrite keys_append_item in Hnew, Hin. split.
    + destruct (contains k d); [by exists new|].
      exists (k :: new). by rewrite Hnew, <-app_assoc.
    + intros key. rewrite Hin. unfold contains.
      destruct (get k d) eqn:Hg.
      * assert (k ∈ keys d) as Hk.
        { apply get_Some_elem in Hg. apply list_elem_of_fmap. by exists (k, l). }
        split.
        -- intros [?|[q Hq]]; [by left|]. right. exists q. by right.
        -- intros [?|[q [[= -> ->]|Hq]%elem_of_cons]]; [by left|by left|].
           right. by exists q.
      * rewrite elem_of_app, list_elem_of_singleton. split.
        -- intros [[?| ->]|[q Hq]]; [by left|right; exists p; by left|].
           right. exists q. by right.
        -- intros [?|[q [[= -> ->]|Hq]%elem_of_cons]];
             [by left; left|by left; right|]. right. by exists q.
  - rewrite add_to_group_None. destruct (IH d) as (Hnew & Hin).
    split; [done|]. intros key. rewrite Hin. split.
    + intros [?|[q Hq]]; [by left|]. right. exists q. by right.
    + intros [?|[q [[=]|Hq]%elem_of_cons]]; [by left|]. right. by exists q.
Qed.

(** X7: [process_images] does not clear [md5_dict].  On a finder that
    already holds groups, every group keeps its paths and gets the new
    ones after them, in the order in which the results were consumed; the
    keys already present keep their positions, new keys come after. *)
Theorem process_images_appends
    (fs : gmap string node) (self : finder) (image_files : list string)
    (schedule : list event) (self' : finder) (rs : list result)
    (out : list msg) :
  process_images fs self image_files schedule = Some (self', rs, out) →
  (∀ key, default [] (get key (md5_dict self'))
          = default [] (get key (md5_dict self))
            ++ (filter (fun r => r.1 = Some key) rs).*2)
  ∧ (∃ new, keys (md5_dict self') = keys (md5_dict self) ++ new)
  ∧ (wf (md5_dict self) → wf (md5_dict self'))
  ∧ total (md5_dict self') + length (failed fs image_files)
    = total (md5_dict self) + length image_files.
Proof.
  intros H. apply process_images_complete in H as (Hp & Hd & _).
  assert (sound rs) as Hs by (eapply sound_Permutation, sound_outcomes; done).
  rewrite Hd. split; [|split; [|split]].
  - intros key. by apply aggregate_get.
  - by apply keys_aggregate.
  - apply aggregate_wf.
  - rewrite (aggregate_total rs _ Hs), Hp.
    pose proof (succeeded_or_failed fs image_files). lia.
Qed.

Lemma process_images_appends_witness :
  (∀ key, default [] (get key (md5_dict second_finder))
          = default [] (get key (md5_dict sample_finder))
            ++ (filter (fun r => r.1 = Some key) second_results).*2)
  ∧ (∃ new, keys (md5_dict second_finder) = keys (md5_dict sample_finder) ++ new)
  ∧ (wf (md5_dict sample_finder) → wf (md5_dict second_finder))
  ∧ total (md5_dict second_finder) + length (failed second_fs second_files)
    = total (md5_dict sample_finder) + length second_files.
Proof.
  apply (process_images_appends second_fs sample_finder second_files
           second_schedule second_finder second_results second_output).
  vm_compute. reflexivity.
Defined.

Lemma find_duplicates_filter (self : finder) :
  wf (md5_dict self) →
  find_duplicates self = filter (fun kv => 1 < length kv.2) (md5_dict self).
Proof. intros Hwf. unfold find_duplicates. by rewrite find_duplicates_fold. Qed.

Lemma get_find_duplicates (self : finder) key paths :
  wf (md5_dict self) →
  get key (find_duplicates self) = Some paths
  ↔ get key (md5_dict self) = Some paths ∧ 1 < length paths.
Proof.
  intros Hwf. rewrite find_duplicates_filter by done. split.
  - intros Hg. apply get_Some_elem in Hg.
    apply list_elem_of_filter in Hg as [Hlen Hin]. split; [|done].
    by apply elem_get_Some.
  - intros [Hg Hlen]. apply elem_get_Some; [by apply wf_filter|].
    apply list_elem_of_filter. split; [done|]. by apply get_Some_elem.
Qed.

Lemma fresh_scan
    (fs : gmap string node) (workers : nat) (image_files : list string)
    (schedule : list event) (self' : finder) (rs : list result)
    (out : list msg) :
  process_images fs (init workers) image_files schedule = Some (self', rs, out) →
  wf (md5_dict self')
  ∧ ∀ key, default [] (get key (md5_dict self'))
           ≡ₚ filed_under fs key image_files.
Proof.
  intros H. split; [|by eapply process_images_groups].
  apply process_images_complete in H as (_ & -> & _).
  apply aggregate_wf. constructor.
Qed.

Lemma filter_filed_under fs key image_files p :
  fingerprint fs p = Some key →
  filter (p =.) (filed_under fs key image_files) = filter (p =.) image_files.
Proof.
  intros Hp. unfold filed_under.
  induction image_files as [|q files IH]; [done|].
  rewrite (filter_cons _ q), (filter_cons (p =.) q).
  destruct (decide (fingerprint fs q = Some key)) as [Hq|Hq].
  - rewrite filter_cons. by rewrite IH.
  - rewrite IH. rewrite decide_False; [done|]. intros <-. done.
Qed.

(** X8: the scan does not deduplicate its input.  A path is filed in its
    group as many times as it is listed, so a file listed twice (as
    happens when the scanned directories overlap) is reported as a
    duplicate of itself. *)
Theorem listed_twice_is_duplicate
    (fs : gmap string node) (workers : nat) (image_files : list string)
    (schedule : list event) (self' : finder) (rs : list result)
    (out : list msg) (file_path key : string) :
  process_images fs (init workers) image_files schedule = Some (self', rs, out) →
  fingerprint fs file_path = Some key →
  length (filter (file_path =.) (default [] (get key (md5_dict self'))))
  = length (filter (file_path =.) image_files)
  ∧ (2 ≤ length (filter (file_path =.) image_files) →
     ∃ paths, get key (find_duplicates self') = Some paths
              ∧ 2 ≤ length (filter (file_path =.) paths)).
Proof.
  intros H Hp. destruct (fresh_scan _ _ _ _ _ _ _ H) as (Hwf & Hg).
  assert (length (filter (file_path =.) (default [] (get key (md5_dict self'))))
          = length (filter (file_path =.) image_files)) as Hlen.
  { by rewrite (Hg key), filter_filed_under. }
  split; [done|]. intros Htwice. rewrite <-Hlen in Htwice.
  destruct (get key (md5_dict self')) as [paths|] eqn:Hget; simpl in *; [|lia].
  exists paths. split; [|done]. apply get_find_duplicates; [done|].
  split; [done|]. pose proof (length_filter (file_path =.) paths). lia.
Qed.

Lemma listed_twice_is_duplicate_witness :
  length (filter ("a.jpg" =.)
            (default []
               (get "7aaa7dec709fa4fa82f3746abfd80bdb"
                  (md5_dict (Finder 1 [("7aaa7dec709fa4fa82f3746abfd80bdb",
                                        ["a.jpg"; "a.jpg"])])))))
  = length (filter ("a.jpg" =.) ["a.jpg"; "a.jpg"])
  ∧ (2 ≤ length (filter ("a.jpg" =.) ["a.jpg"; "a.jpg"]) →
     ∃ paths,
       get "7aaa7dec709fa4fa82f3746abfd80bdb"
         (find_duplicates (Finder 1 [("7aaa7dec709fa4fa82f3746abfd80bdb",
                                      ["a.jpg"; "a.jpg"])]))
       = Some paths
       ∧ 2 ≤ length (filter ("a.jpg" =.) paths)).
Proof.
  apply (listed_twice_is_duplicate sample_fs 1 ["a.jpg"; "a.jpg"]
           (sequential ["a.jpg"; "a.jpg"])
           (Finder 1 [("7aaa7dec709fa4fa82f3746abfd80bdb", ["a.jpg"; "a.jpg"])])
           [(Some "7aaa7dec709fa4fa82f3746abfd80bdb", "a.jpg");
            (Some "7aaa7dec709fa4fa82f3746abfd80bdb", "a.jpg")]
           [MsgProcessing 2; MsgAllProcessed]
           "a.jpg" "7aaa7dec709fa4fa82f3746abfd80bdb");
    vm_compute; reflexivity.
Defined.

Lemma filter_two {A} (P : A → Prop) `{!∀ x, Decision (P x)} (l : list A) i j x y :
  i ≠ j → l !! i = Some x → l !! j = Some y → P x → P y →
  x ∈ filter P l ∧ y ∈ filter P l ∧ 2 ≤ length (filter P l).
Proof.
  intros Hij Hi Hj Hx Hy.
  split; [apply list_elem_of_filter; split; [done|by eapply list_elem_of_lookup_2]|].
  split; [apply list_elem_of_filter; split; [done|by eapply list_elem_of_lookup_2]|].
  revert i j Hij Hi Hj. induction l as [|z l IH]; intros i j Hij Hi Hj; [done|].
  rewrite filter_cons. destruct i as [|i], j as [|j]; simpl in *; try done.
  - injection Hi as ->. rewrite decide_True by done. simpl.
    assert (y ∈ filter P l) as Hin.
    { apply list_elem_of_filter. split; [done|by eapply list_elem_of_lookup_2]. }
    destruct (filter P l); [by apply elem_of_nil in Hin|simpl; lia].
  - injection Hj as ->. rewrite decide_True by done. simpl.
    assert (x ∈ filter P l) as Hin.
    { apply list_elem_of_filter. split; [done|by eapply list_elem_of_lookup_2]. }
    destruct (filter P l); [by apply elem_of_nil in Hin|simpl; lia].
  - assert (2 ≤ length (filter P l)) by (apply (IH i j); congruence).
    destruct (decide (P z)); simpl; lia.
Qed.

(** X9: two files with the same bytes, listed at two places of the input
    and both readable, end up together in one duplicate group, the one of
    the MD5 of their content. *)
Theorem identical_files_reported_together
    (fs : gmap string node) (workers : nat) (image_files : list string)
    (schedule : list event) (self' : finder) (rs : list result)
    (out : list msg) (i j : nat) (path1 path2 : string) (f1 f2 : file) :
  process_images fs (init workers) image_files schedule = Some (self', rs, out) →
  i ≠ j → image_files !! i = Some path1 → image_files !! j = Some path2 →
  fs !! path1 = Some (Regular f1) → fs !! path2 = Some (Regular f2) →
  intact f1 = true → intact f2 = true → contents f1 = contents f2 →
  ∃ paths,
    get (Hashlib.md5_hex (contents f1)) (find_duplicates self') = Some paths
    ∧ path1 ∈ paths ∧ path2 ∈ paths.
Proof.
  intros H Hij Hi Hj H1 H2 Hok1 Hok2 Heq.
  destruct (fresh_scan _ _ _ _ _ _ _ H) as (Hwf & Hg).
  set (key := Hashlib.md5_hex (contents f1)).
  assert (fingerprint fs path1 = Some key) as Hp1.
  { apply fingerprint_Some. eauto. }
  assert (fingerprint fs path2 = Some key) as Hp2.
  { apply fingerprint_Some. exists f2. by rewrite <-Heq. }
  destruct (filter_two (fun p => fingerprint fs p = Some key) image_files
              i j path1 path2 Hij Hi Hj Hp1 Hp2) as (Hin1 & Hin2 & Hlen).
  fold (filed_under fs key image_files) in Hin1, Hin2, Hlen.
  specialize (Hg key). rewrite <-Hg in Hin1, Hin2. rewrite <-Hg in Hlen.
  destruct (get key (md5_dict self')) as [paths|] eqn:Hget; simpl in *; [|lia].
  exists paths. split; [|done]. apply get_find_duplicates; [done|]. split; [done|lia].
Qed.

Lemma identical_files_reported_together_witness :
  ∃ paths,
    get (Hashlib.md5_hex (contents picture)) (find_duplicates sample_finder)
    = Some paths
    ∧ "a.jpg" ∈ paths ∧ "c.jpg" ∈ paths.
Proof.
  apply (identical_files_reported_together sample_fs 2 sample_files
           sample_schedule sample_finder sample_results sample_output
           0 2 "a.jpg" "c.jpg" picture picture);
    first [lia | vm_compute; reflexivity].
Defined.

(** X10: what a duplicate group holds.  A group that [find_duplicates]
    reports after a scan has at least two paths; they are exactly the
    input paths whose fingerprint is the key of the group, each a
    readable regular file whose content has that MD5. *)
Theorem reported_group_shares_fingerprint
    (fs : gmap string node) (workers : nat) (image_files : list string)
    (schedule : list event) (self' : finder) (rs : list result)
    (out : list msg) (key : string) (paths : list string) :
  process_images fs (init workers) image_files schedule = Some (self', rs, out) →
  get key (find_duplicates self') = Some paths →
  2 ≤ length paths
  ∧ paths ≡ₚ filed_under fs key image_files
  ∧ ∀ file_path,
      file_path ∈ paths →
      file_path ∈ image_files
      ∧ ∃ f, fs !! file_path = Some (Regular f) ∧ intact f = true
             ∧ Hashlib.md5_hex (contents f) = key.
Proof.
  intros H Hdup. destruct (fresh_scan _ _ _ _ _ _ _ H) as (Hwf & Hg).
  apply get_find_duplicates in Hdup as [Hget Hlen]; [|done].
  specialize (Hg key). rewrite Hget in Hg. simpl in Hg.
  split; [lia|]. split; [done|]. intros p Hp. rewrite Hg in Hp.
  apply list_elem_of_filter in Hp as [Hfp Hin]. split; [done|].
  apply fingerprint_Some in Hfp as (f & ? & ? & ->). eauto.
Qed.

Lemma reported_group_shares_fingerprint_witness :
  2 ≤ length ["a.jpg"; "c.jpg"]
  ∧ ["a.jpg"; "c.jpg"]
    ≡ₚ filed_under sample_fs "7aaa7dec709fa4fa82f3746abfd80bdb" sample_files
  ∧ ∀ file_path,
      file_path ∈ ["a.jpg"; "c.jpg"] →
      file_path ∈ sample_files
      ∧ ∃ f, sample_fs !! file_path = Some (Regular f) ∧ intact f = true
             ∧ Hashlib.md5_hex (contents f) = "7aaa7dec709fa4fa82f3746abfd80bdb".
Proof.
  apply (reported_group_shares_fingerprint sample_fs 2 sample_files
           sample_schedule sample_finder sample_results sample_output
           "7aaa7dec709fa4fa82f3746abfd80bdb" ["a.jpg"; "c.jpg"]);
    vm_compute; reflexivity.
Defined.

Lemma fingerprint_in_results fs image_files rs key :
  rs ≡ₚ (outcome fs <$> image_files) →
  (∃ p, (Some key, p) ∈ rs) ↔ key ∈ omap (fingerprint fs) image_files.
Proof.
  intros Hp. rewrite list_elem_of_omap. split.
  - intros [p Hin]. rewrite Hp in Hin.
    apply list_elem_of_fmap in Hin as (q & Hq & Hin). exists q. split; [done|].
    unfold fingerprint. by rewrite <-Hq.
  - intros (q & Hin & Hq). exists q. rewrite Hp. apply list_elem_of_fmap.
    exists q. split; [|done]. pose proof (outcome_path fs q) as Hpath.
    unfold fingerprint in Hq. destruct (outcome fs q) as [m r]. simpl in *.
    by subst.
Qed.

Lemma length_remove_dups `{EqDecision A} (l : list A) :
  length (remove_dups l) ≤ length l.
Proof.
  induction l as [|x l IH]; [done|]. simpl.
  destruct (decide_rel _ x l); simpl; lia.
Qed.

Lemma length_omap_fingerprint fs image_files :
  length (omap (fingerprint fs) image_files) + length (failed fs image_files)
  = length image_files.
Proof.
  unfold failed. induction image_files as [|p files IH]; [done|].
  cbn [omap list_omap]. rewrite filter_cons.
  destruct (fingerprint fs p) eqn:Hp.
  - rewrite decide_False by done. simpl. lia.
  - rewrite decide_True by done. simpl. lia.
Qed.

(** X11: after a scan on a fresh finder, the number of keys of
    [md5_dict], which [run] prints as the number of unique MD5 values,
    is the number of distinct fingerprints of the input files; it is at
    most the number of files that were digested. *)
Theorem unique_md5_count
    (fs : gmap string node) (workers : nat) (image_files : list string)
    (schedule : list event) (self' : finder) (rs : list result)
    (out : list msg) :
  process_images fs (init workers) image_files schedule = Some (self', rs, out) →
  len (md5_dict self') = length (remove_dups (omap (fingerprint fs) image_files))
  ∧ len (md5_dict self') + length (failed fs image_files) ≤ length image_files.
Proof.
  intros H. destruct (fresh_scan _ _ _ _ _ _ _ H) as (Hwf & _).
  apply process_images_complete in H as (Hp & Hd & _).
  assert (sound rs) as Hs by (eapply sound_Permutation, sound_outcomes; done).
  assert (keys (md5_dict self')
          ≡ₚ remove_dups (omap (fingerprint fs) image_files)) as Hk.
  { apply NoDup_Permutation; [done|apply NoDup_remove_dups|].
    intros key. rewrite elem_of_remove_dups, Hd.
    destruct (keys_aggregate rs [] Hs) as (_ & ->).
    rewrite <-(fingerprint_in_results fs image_files rs key Hp).
    split; [intros [Hin|?]; [by apply elem_of_nil in Hin|done]|by right]. }
  assert (len (md5_dict self')
          = length (remove_dups (omap (fingerprint fs) image_files))) as Hlen.
  { unfold len. rewrite <-Hk. unfold keys. by rewrite length_fmap. }
  split; [done|]. rewrite Hlen.
  pose proof (length_omap_fingerprint fs image_files).
  pose proof (length_remove_dups (omap (fingerprint fs) image_files)). lia.
Qed.

Lemma unique_md5_count_witness :
  len (md5_dict sample_finder)
  = length (remove_dups (omap (fingerprint sample_fs) sample_files))
  ∧ len (md5_dict sample_finder) + length (failed sample_fs sample_files)
    ≤ length sample_files.
Proof.
  apply (unique_md5_count sample_fs 2 sample_files sample_schedule
           sample_finder sample_results sample_output).
  vm_compute. reflexivity.
Defined.

Lemma progress_lines_app out out' :
  progress_lines (out ++ out') = progress_lines out ++ progress_lines out'.
Proof. unfold progress_lines. apply filter_app. Qed.

Lemma calculate_md5_no_progress fs p : progress_lines (calculate_md5 fs p).2 = [].
Proof.
  unfold calculate_md5. destruct (open_rb fs p) as [e|f]; [done|].
  by destruct (read_chunks f Hashlib.new).
Qed.

Lemma step_progress w fs n st ev st' :
  step w fs n st ev = Some st' → progress_so_far n st → progress_so_far n st'.
Proof.
  unfold step, progress_so_far. destruct ev as [|i|i].
  - destruct (queue st); [done|]. destruct (_ <? _); [|done]. by intros [= <-].
  - destruct (running st !! i) as [p|]; [|done].
    pose proof (calculate_md5_no_progress fs p) as Hno.
    destruct (calculate_md5 fs p) as [r out]. intros [= <-]. simpl in *.
    rewrite progress_lines_app, Hno, app_nil_r. done.
  - destruct (finished st !! i) as [r|]; [|done].
    intros [= <-]. unfold consume. cbn [stdout completed].
    set (c := completed st). intros Hinv.
    pose proof (Nat.div_mod_eq c 100) as Hc.
    pose proof (Nat.div_mod_eq (c + 1) 100) as Hc'.
    assert (c mod 100 < 100) as Hr by (apply Nat.mod_upper_bound; lia).
    assert ((c + 1) mod 100 < 100) as Hr' by (apply Nat.mod_upper_bound; lia).
    destruct (Nat.eqb_spec ((c + 1) mod 100) 0) as [Hz|Hnz].
    + assert ((c + 1) / 100 = S (c / 100)) as -> by lia.
      rewrite seq_S, fmap_app, progress_lines_app, Hinv. f_equal.
      unfold progress_lines. rewrite filter_cons_True by done.
      cbn [fmap list_fmap filter list_filter]. f_equal. f_equal. lia.
    + assert ((c + 1) / 100 = c / 100) as -> by lia. done.
Qed.

Lemma run_progress w fs n schedule st st' :
  run w fs n schedule st = Some st' → progress_so_far n st → progress_so_far n st'.
Proof.
  revert st. induction schedule as [|ev sch IH]; intros st; simpl.
  - by intros [= <-].
  - destruct (step w fs n st ev) as [st1|] eqn:Hs; [|done].
    intros H Hinv. apply (IH _ H). by eapply step_progress.
Qed.

(** X12: [process_images] prints one progress line for every hundred
    results consumed and no other: for [n] files these are the lines for
    100, 200, ... up to the last multiple of 100 that does not exceed
    [n], in this order, whatever the schedule and the failures. *)
Theorem progress_every_hundred
    (fs : gmap string node) (self : finder) (image_files : list string)
    (schedule : list event) (self' : finder) (rs : list result)
    (out : list msg) :
  process_images fs self image_files schedule = Some (self', rs, out) →
  progress_lines out
  = (fun j => MsgProgress (100 * j) (length image_files))
    <$> seq 1 (length image_files / 100).
Proof.
  intros H.
  assert (length rs = length image_files) as Hlen.
  { apply process_images_complete in H as (Hp & _).
    by rewrite Hp, length_fmap. }
  unfold process_images in H. destruct (max_workers self =? 0); [done|].
  destruct (run _ _ _ _ _) as [st|] eqn:Hrun; [|done].
  destruct (exhausted st); [|done]. injection H as _ <- <-.
  destruct (run_aggregate _ _ _ _ _ _ (md5_dict self) Hrun) as [_ Hc]; [done|].
  pose proof (run_progress _ _ _ _ _ _ Hrun) as Hp.
  unfold progress_so_far in Hp. rewrite Hc, Hlen in Hp.
  rewrite progress_lines_app, Hp by done. simpl. by rewrite app_nil_r.
Qed.

Lemma progress_every_hundred_witness :
  progress_lines hundreds_output
  = (fun j => MsgProgress (100 * j) (length hundreds))
    <$> seq 1 (length hundreds / 100).
Proof.
  apply (progress_every_hundred ∅ (init 1) hundreds (sequential hundreds)
           (init 1) (repeat (None, "missing.jpg") 250) hundreds_output).
  vm_compute. reflexivity.
Defined.

(** Two hundred and fifty missing files: two progress lines. *)
Example progress_250 :
  let files := repeat "missing.jpg" 250 in
  (fun done => progress_lines done.2)
    <$> process_images ∅ (init 4) files (sequential files)
  = Some [MsgProgress 100 250; MsgProgress 200 250].
Proof. vm_compute. reflexivity. Qed.

End ScanFacts.


(** ** Which files are image files *)
Section ImageFiles.
Import Pathlib Scan.
Local Open Scope string_scope.

Lemma split_nonempty sep s : split sep s ≠ [].
Proof.
  destruct s as [|c s]; simpl; [done|].
  destruct (Ascii.eqb c sep); [done|]. by destruct (split sep s).
Qed.

Lemma split_no_sep sep s : has_char sep s = false → split sep s = [s].
Proof.
  induction s as [|c s IH]; simpl; [done|].
  intros [Hc Hs]%orb_false_elim. rewrite Hc, (IH Hs). done.
Qed.

Lemma split_app sep a b :
  split sep (a ++ String sep b) = (split sep a ++ split sep b)%list.
Proof.
  induction a as [|c a IH]; simpl.
  - by rewrite Ascii.eqb_refl.
  - destruct (Ascii.eqb c sep); [by rewrite IH|].
    rewrite IH. pose proof (split_nonempty sep a).
    by destruct (split sep a).
Qed.

Lemma name_plain file : plain_name file → name file = file.
Proof.
  intros (Hne & Hdot & Hslash). unfold name, parts.
  rewrite split_no_sep by done. by rewrite filter_cons_True, filter_nil.
Qed.

Lemma name_under dir file :
  plain_name file → name (dir ++ String "/" file) = file.
Proof.
  intros (Hne & Hdot & Hslash). unfold name, parts.
  rewrite split_app, (split_no_sep _ file) by done.
  rewrite filter_app, filter_cons_True, filter_nil by done.
  apply last_last.
Qed.

Lemma ends_with_inv c s : ends_with c s = true → ∃ s', s = s' ++ String c EmptyString.
Proof.
  induction s as [|c' s IH]; [done|]. simpl.
  destruct s as [|c'' s].
  - intros ->%Ascii.eqb_eq. by exists EmptyString.
  - intros H. destruct (IH H) as [s' ->]. by exists (String c' s').
Qed.

Lemma append_assoc (a b c : string) : (a ++ b) ++ c = a ++ (b ++ c).
Proof.
  induction a as [|x a IH]; [done|].
  change (String x ((a ++ b) ++ c) = String x (a ++ b ++ c)). by rewrite IH.
Qed.

Lemma name_join root file : plain_name file → name (join root file) = file.
Proof.
  intros Hp. pose proof Hp as (Hne & Hdot & Hslash). unfold join.
  destruct file as [|c file]; [done|].
  assert (c ≠ "/"%char) as Hc.
  { simpl in Hslash. apply orb_false_elim in Hslash as [Hc _].
    by apply Ascii.eqb_neq in Hc. }
  assert (match c with
          | "/"%char => String c file
          | _ => if String.eqb root EmptyString || ends_with "/" root
                 then root ++ String c file
                 else root ++ "/" ++ String c file
          end
          = if String.eqb root EmptyString || ends_with "/" root
            then root ++ String c file
            else root ++ "/" ++ String c file) as Hmatch.
  { destruct c as [[] [] [] [] [] [] [] []]; try done. }
  etransitivity; [|exact (name_plain _ Hp)].
  transitivity (name (if String.eqb root EmptyString || ends_with "/" root
                      then root ++ String c file
                      else root ++ "/" ++ String c file)).
  { f_equal. exact Hmatch. }
  destruct (String.eqb_spec root EmptyString) as [->|Hroot]; cbn [orb]; [done|].
  destruct (ends_with "/" root) eqn:He.
  - apply ends_with_inv in He as [r ->].
    rewrite append_assoc.
    change (String "/" EmptyString ++ String c file) with (String "/" (String c file)).
    rewrite (name_under r (String c file) Hp). by rewrite name_plain.
  - change (root ++ "/" ++ String c file) with (root ++ String "/" (String c file)).
    rewrite (name_under root (String c file) Hp). by rewrite name_plain.
Qed.

Lemma suffix_by_name path path' : name path = name path' → suffix path = suffix path'.
Proof. unfold suffix. by intros ->. Qed.

(** X13: whether a file of a directory is an image file depends on the
    name of the file only: the directories above it, whatever they are
    called, play no part. *)
Theorem is_image_file_by_name (root file : string) :
  plain_name file →
  is_image_file (join root file) = is_image_file file.
Proof.
  intros Hp. unfold is_image_file.
  rewrite (suffix_by_name (join root file) file); [done|].
  by rewrite name_join, name_plain.
Qed.

Lemma is_image_file_by_name_witness :
  is_image_file (join "holiday.jpg/2019" "notes.txt") = is_image_file "notes.txt".
Proof.
  apply (is_image_file_by_name "holiday.jpg/2019" "notes.txt").
  unfold plain_name. split; [discriminate|split; [discriminate|reflexivity]].
Defined.

Lemma has_char_app c a b : has_char c (a ++ b) = has_char c a || has_char c b.
Proof.
  induction a as [|x a IH]; [done|].
  change (has_char c (String x (a ++ b)) = has_char c (String x a) || has_char c b).
  cbn [has_char]. by rewrite IH, orb_assoc.
Qed.

Lemma from_last_dot_None s : has_char "." s = false → from_last_dot s = None.
Proof.
  induction s as [|c s IH]; [done|]. cbn [has_char from_last_dot].
  intros [Hc Hs]%orb_false_elim. by rewrite (IH Hs), Hc.
Qed.

Lemma from_last_dot_app a ext :
  has_char "." ext = false →
  from_last_dot (a ++ String "." ext) = Some (String "." ext).
Proof.
  intros He. induction a as [|c a IH].
  - change (from_last_dot (String "." ext) = Some (String "." ext)).
    cbn [from_last_dot]. by rewrite (from_last_dot_None _ He).
  - change (from_last_dot (String c (a ++ String "." ext)) = Some (String "." ext)).
    cbn [from_last_dot]. by rewrite IH.
Qed.

Lemma from_last_dot_end s : ends_with "." s = true → from_last_dot s = Some ".".
Proof.
  induction s as [|c s IH]; [done|]. cbn [ends_with from_last_dot].
  destruct s as [|c' s].
  - intros ->%Ascii.eqb_eq. done.
  - intros H. by rewrite (IH H).
Qed.

Lemma lower_dot s : lower (String "." s) = String "." (lower s).
Proof. reflexivity. Qed.

Lemma plain_stem_ext stem ext :
  stem ≠ EmptyString → has_char "/" stem = false → ext ≠ EmptyString → has_char "/" ext = false →
  plain_name (stem ++ String "." ext).
Proof.
  intros Hs Hss He Hes. split; [|split].
  - by destruct stem.
  - destruct stem as [|c stem]; [done|]. destruct stem as [|c' stem].
    + destruct ext; [done|]. intros [=].
    + intros [=].
  - rewrite has_char_app. rewrite Hss. cbn [has_char orb]. by rewrite Hes.
Qed.

Lemma suffix_stem_ext stem ext :
  stem ≠ EmptyString → has_char "/" stem = false →
  ext ≠ EmptyString → has_char "." ext = false → has_char "/" ext = false →
  suffix (stem ++ String "." ext) = String "." ext.
Proof.
  intros Hs Hss He Hed Hes. unfold suffix.
  rewrite name_plain by by apply plain_stem_ext.
  destruct stem as [|c stem]; [done|].
  change (String c stem ++ String "." ext) with (String c (stem ++ String "." ext)).
  cbn match. rewrite from_last_dot_app by done.
  by destruct ext.
Qed.

(** X14: the extension decides, whatever its case and the directory.
    For a file named [stem.ext] ([stem] not empty, which may itself hold
    dots; [ext] not empty, without dot) in any directory, the suffix is
    [.ext], and the file is an image file exactly when [ext] in lower
    case is one of jpg, jpeg, png, gif, bmp, tiff, webp. *)
Theorem is_image_file_extension (root stem ext : string) :
  stem ≠ EmptyString → has_char "/" stem = false →
  ext ≠ EmptyString → has_char "." ext = false → has_char "/" ext = false →
  suffix (join root (stem ++ "." ++ ext)) = "." ++ ext
  ∧ (is_image_file (join root (stem ++ "." ++ ext)) = true
     ↔ lower ext ∈ ["jpg"; "jpeg"; "png"; "gif"; "bmp"; "tiff"; "webp"]).
Proof.
  intros Hs Hss He Hed Hes.
  change (stem ++ "." ++ ext) with (stem ++ String "." ext).
  change ("." ++ ext) with (String "." ext).
  pose proof (plain_stem_ext stem ext Hs Hss He Hes) as Hp.
  assert (suffix (join root (stem ++ String "." ext)) = String "." ext) as Hsuf.
  { rewrite (suffix_by_name _ (stem ++ String "." ext)).
    - by apply suffix_stem_ext.
    - by rewrite name_join, name_plain. }
  split; [done|]. unfold is_image_file. rewrite Hsuf, lower_dot.
  unfold image_extensions. cbn [existsb]. 
  rewrite !orb_true_iff, !elem_of_cons, elem_of_nil.
  change (String.eqb (String "." (lower ext)) ".jpg") with (String.eqb (lower ext) "jpg").
  change (String.eqb (String "." (lower ext)) ".jpeg") with (String.eqb (lower ext) "jpeg").
  change (String.eqb (String "." (lower ext)) ".png") with (String.eqb (lower ext) "png").
  change (String.eqb (String "." (lower ext)) ".gif") with (String.eqb (lower ext) "gif").
  change (String.eqb (String "." (lower ext)) ".bmp") with (String.eqb (lower ext) "bmp").
  change (String.eqb (String "." (lower ext)) ".tiff") with (String.eqb (lower ext) "tiff").
  change (String.eqb (String "." (lower ext)) ".webp") with (String.eqb (lower ext) "webp").
  rewrite !String.eqb_eq. intuition discriminate.
Qed.

Lemma is_image_file_extension_witness :
  suffix (join "2019/trip" ("IMG.0042" ++ "." ++ "JpEg")) = "." ++ "JpEg"
  ∧ (is_image_file (join "2019/trip" ("IMG.0042" ++ "." ++ "JpEg")) = true
     ↔ lower "JpEg" ∈ ["jpg"; "jpeg"; "png"; "gif"; "bmp"; "tiff"; "webp"]).
Proof.
  apply (is_image_file_extension "2019/trip" "IMG.0042" "JpEg");
    first [discriminate | reflexivity].
Defined.

(** X15: a name without extension is not an image file.  A name with no
    dot after its first character (a hidden file called [.jpg], a file
    called [jpg]) and a name that ends with a dot have the empty suffix
    and are never taken for an image, in any directory. *)
Theorem no_extension_no_image (root : string) (c : ascii) (rest : string) :
  plain_name (String c rest) →
  has_char "." rest = false ∨ ends_with "." rest = true →
  suffix (join root (String c rest)) = EmptyString
  ∧ is_image_file (join root (String c rest)) = false.
Proof.
  intros Hp Hcase.
  assert (suffix (join root (String c rest)) = EmptyString) as Hsuf.
  { rewrite (suffix_by_name _ (String c rest)) by by rewrite name_join, name_plain.
    unfold suffix. rewrite name_plain by done.
    destruct Hcase as [Hno|Hend].
    - by rewrite from_last_dot_None.
    - by rewrite (from_last_dot_end _ Hend). }
  split; [done|]. unfold is_image_file. by rewrite Hsuf.
Qed.

Lemma no_extension_no_image_witness :
  suffix (join "album" (String "." "jpg")) = EmptyString
  ∧ is_image_file (join "album" (String "." "jpg")) = false.
Proof.
  apply (no_extension_no_image "album" "." "jpg").
  - split; [discriminate|split; [discriminate|reflexivity]].
  - left. reflexivity.
Defined.

Example pathlib_samples :
  (fun p => (name p, suffix p))
  <$> ["a/b/photo.JPG"; ".jpg"; "x/..jpg"; "a."; "a.tar.gz"; "dir.d/file";
       "a/b.png/"; "a/b.png/."; EmptyString; "/"; ".."; "a/.."; "x.JpEg";
       "..."; "a.."; ".a.b"; "//a.png"; "a/./b.gif"; "."; "./"]
  = [("photo.JPG", ".JPG"); (".jpg", EmptyString); ("..jpg", ".jpg");
     ("a.", EmptyString); ("a.tar.gz", ".gz"); ("file", EmptyString);
     ("b.png", ".png"); ("b.png", ".png"); (EmptyString, EmptyString);
     (EmptyString, EmptyString); ("..", EmptyString); ("..", EmptyString);
     ("x.JpEg", ".JpEg"); ("...", EmptyString); ("a..", EmptyString);
     (".a.b", ".b"); ("a.png", ".png"); ("b.gif", ".gif");
     (EmptyString, EmptyString); (EmptyString, EmptyString)].
Proof. vm_compute. reflexivity. Qed.

End ImageFiles.


(** ** The sorted listing *)
Section ListingFacts.
Import Io PyDict Pathlib OsWalk Scan Reach Listing DuplicateImageFinder Sample SampleDisk.

Lemma ltb_leb a b : String.ltb a b = negb (String.leb b a).
Proof.
  unfold String.ltb, String.leb. rewrite (String.compare_antisym b a).
  by destruct (String.compare a b).
Qed.

Lemma ltb_trans a b c :
  String.ltb a b = true → String.ltb b c = true → String.ltb a c = true.
Proof.
  rewrite !ltb_leb, !negb_true_iff. intros Hab Hbc.
  destruct (String.leb c a) eqn:Hca; [|done].
  destruct (String.leb_total b c) as [Hl|Hl]; [|congruence].
  assert (String.le b a) as Hba.
  { etrans; apply Is_true_true; done. }
  apply Is_true_true in Hba. congruence.
Qed.

Lemma ltb_irrefl a : String.ltb a a = false.
Proof.
  rewrite ltb_leb, negb_false_iff. apply Is_true_true.
  apply (reflexivity (R:=String.le)).
Qed.

Lemma ltb_total a b : a ≠ b → String.ltb a b = false → String.ltb b a = true.
Proof.
  rewrite !ltb_leb, negb_false_iff, negb_true_iff. intros Hne Hba.
  destruct (String.leb a b) eqn:Hab; [|done].
  destruct Hne. by apply String.leb_antisym.
Qed.

Lemma insort_Permutation {V} (x : string * V) l : insort x l ≡ₚ x :: l.
Proof.
  induction l as [|y l IH]; simpl; [done|].
  destruct (String.ltb y.1 x.1); [|done]. rewrite IH. apply Permutation_swap.
Qed.

Lemma sorted_by_key_Permutation {V} (items : list (string * V)) :
  sorted_by_key items ≡ₚ items.
Proof.
  induction items as [|x l IH]; simpl; [done|].
  by rewrite insort_Permutation, IH.
Qed.

Lemma insort_ascending {V} (x : string * V) l :
  x.1 ∉ l.*1 → ascending l → ascending (insort x l).
Proof.
  unfold ascending. intros Hx Hl. induction Hl as [|y l Hl IH Hy]; simpl.
  - by repeat constructor.
  - rewrite fmap_cons, not_elem_of_cons in Hx. destruct Hx as [Hxy Hx].
    destruct (String.ltb y.1 x.1) eqn:Hlt.
    + constructor; [by apply IH|].
      rewrite insort_Permutation. by constructor.
    + assert (String.ltb x.1 y.1 = true) as Hlt' by by apply ltb_total.
      constructor; [by constructor|]. constructor; [done|].
      eapply Forall_impl; [exact Hy|]. intros z Hz. cbn beta in *.
      by eapply ltb_trans.
Qed.

Lemma sorted_by_key_ascending {V} (items : list (string * V)) :
  wf items → ascending (sorted_by_key items).
Proof.
  unfold wf, keys. induction items as [|x l IH]; simpl.
  - constructor.
  - rewrite NoDup_cons. intros [Hx Hl]. apply insort_ascending; [|by apply IH].
    by rewrite sorted_by_key_Permutation.
Qed.

Lemma ascending_lookup {V} (l : list (string * V)) i j a b :
  ascending l → i < j → l !! i = Some a → l !! j = Some b →
  String.ltb a.1 b.1 = true.
Proof.
  unfold ascending. intros Hl. revert i j.
  induction Hl as [|y l Hl IH Hy]; intros i j Hij Hi Hj; [done|].
  destruct j as [|j]; [lia|]. destruct i as [|i]; simplify_eq/=.
  - rewrite Forall_forall in Hy. apply Hy. by eapply list_elem_of_lookup_2.
  - apply (IH i j); [lia|done..].
Qed.

Lemma ascending_keys_unique {V W} (l1 : list (string * V)) (l2 : list (string * W)) :
  ascending l1 → ascending l2 → l1.*1 ≡ₚ l2.*1 → l1.*1 = l2.*1.
Proof.
  intros H1 H2. 
  apply (StronglySorted_unique_strong (fun a b => String.ltb a b = true)).
  - intros x1 x2 _ _ H12 H21.
    pose proof (ltb_trans _ _ _ H12 H21) as Hx. by rewrite ltb_irrefl in Hx.
  - unfold ascending in H1. clear H2.
    induction H1 as [|y l Hl IH Hy]; simpl; constructor; [done|].
    by apply Forall_fmap.
  - unfold ascending in H2. clear H1.
    induction H2 as [|y l Hl IH Hy]; simpl; constructor; [done|].
    by apply Forall_fmap.
Qed.

Lemma keys_fresh_scan
    (fs : gmap string node) (workers : nat) (image_files : list string)
    (schedule : list event) (self' : finder) (rs : list result)
    (out : list msg) :
  process_images fs (init workers) image_files schedule = Some (self', rs, out) →
  keys (md5_dict self') ≡ₚ remove_dups (omap (fingerprint fs) image_files).
Proof.
  intros H. destruct (fresh_scan _ _ _ _ _ _ _ H) as (Hwf & _).
  apply process_images_complete in H as (Hp & Hd & _).
  assert (sound rs) as Hs by (eapply sound_Permutation, sound_outcomes; done).
  apply NoDup_Permutation; [done|apply NoDup_remove_dups|].
  intros key. rewrite elem_of_remove_dups, Hd.
  destruct (keys_aggregate rs [] Hs) as (_ & ->).
  rewrite <-(fingerprint_in_results fs image_files rs key Hp).
  split; [intros [Hin|?]; [by apply elem_of_nil in Hin|done]|by right].
Qed.

(** X16: [get_sorted_md5_list] lists the entries of [md5_dict], each
    once, and the fingerprints come in strictly ascending order. *)
Theorem get_sorted_md5_list_sorted (self : finder) :
  wf (md5_dict self) →
  get_sorted_md5_list self ≡ₚ md5_dict self
  ∧ ∀ i j a b,
      i < j →
      get_sorted_md5_list self !! i = Some a →
      get_sorted_md5_list self !! j = Some b →
      String.ltb a.1 b.1 = true.
Proof.
  intros Hwf. split; [apply sorted_by_key_Permutation|].
  intros i j a b. apply ascending_lookup. by apply sorted_by_key_ascending.
Qed.

Lemma get_sorted_md5_list_sorted_witness :
  get_sorted_md5_list sample_finder ≡ₚ md5_dict sample_finder
  ∧ ∀ i j a b,
      i < j →
      get_sorted_md5_list sample_finder !! i = Some a →
      get_sorted_md5_list sample_finder !! j = Some b →
      String.ltb a.1 b.1 = true.
Proof.
  apply (get_sorted_md5_list_sorted sample_finder).
  apply (bool_decide_unpack _). vm_compute. reflexivity.
Defined.

(** X17: the sorted listing does not depend on the run.  Two complete
    scans of the same files, whatever the number of workers and the
    order in which the results arrive, give the same fingerprints in the
    same order; the paths under a fingerprint agree up to their order. *)
Theorem sorted_listing_same_on_every_run
    (fs : gmap string node) (workers1 workers2 : nat)
    (image_files : list string) (schedule1 schedule2 : list event)
    (self1 self2 : finder) (rs1 rs2 : list result) (out1 out2 : list msg) :
  process_images fs (init workers1) image_files schedule1
  = Some (self1, rs1, out1) →
  process_images fs (init workers2) image_files schedule2
  = Some (self2, rs2, out2) →
  same_listing (get_sorted_md5_list self1) (get_sorted_md5_list self2).
Proof.
  intros H1 H2.
  destruct (fresh_scan _ _ _ _ _ _ _ H1) as (Hwf1 & Hg1).
  destruct (fresh_scan _ _ _ _ _ _ _ H2) as (Hwf2 & Hg2).
  pose proof (keys_fresh_scan _ _ _ _ _ _ _ H1) as Hk1.
  pose proof (keys_fresh_scan _ _ _ _ _ _ _ H2) as Hk2.
  unfold get_sorted_md5_list, same_listing.
  set (l1 := sorted_by_key (md5_dict self1)).
  set (l2 := sorted_by_key (md5_dict self2)).
  assert (l1.*1 = l2.*1) as Hkeys.
  { apply ascending_keys_unique; [by apply sorted_by_key_ascending..|].
    unfold l1, l2. rewrite !sorted_by_key_Permutation.
    fold (keys (md5_dict self1)). fold (keys (md5_dict self2)).
    by rewrite Hk1, Hk2. }
  apply Forall2_same_length_lookup. split.
  { by rewrite <-(length_fmap fst l1), Hkeys, length_fmap. }
  intros i [k1 v1] [k2 v2] Hi1 Hi2. simpl.
  assert (k1 = k2) as <-.
  { assert (l1.*1 !! i = Some k1) as Ha by by rewrite list_lookup_fmap, Hi1.
    assert (l2.*1 !! i = Some k2) as Hb by by rewrite list_lookup_fmap, Hi2.
    congruence. }
  split; [done|].
  assert (get k1 (md5_dict self1) = Some v1) as G1.
  { apply elem_get_Some; [done|]. rewrite <-(sorted_by_key_Permutation _).
    by eapply list_elem_of_lookup_2. }
  assert (get k1 (md5_dict self2) = Some v2) as G2.
  { apply elem_get_Some; [done|]. rewrite <-(sorted_by_key_Permutation _).
    by eapply list_elem_of_lookup_2. }
  specialize (Hg1 k1). specialize (Hg2 k1). rewrite G1 in Hg1. rewrite G2 in Hg2.
  simpl in *. by rewrite Hg1, Hg2.
Qed.

Lemma sorted_listing_same_on_every_run_witness :
  same_listing
    (get_sorted_md5_list sample_finder)
    (get_sorted_md5_list
       (Finder 1 [("7aaa7dec709fa4fa82f3746abfd80bdb", ["a.jpg"; "c.jpg"]);
                  ("d16fb36f0911f878998c136191af705e", ["b.png"])])).
Proof.
  apply (sorted_listing_same_on_every_run sample_fs 2 1 sample_files
           sample_schedule (sequential sample_files)
           sample_finder
           (Finder 1 [("7aaa7dec709fa4fa82f3746abfd80bdb", ["a.jpg"; "c.jpg"]);
                      ("d16fb36f0911f878998c136191af705e", ["b.png"])])
           sample_results
           [(Some "7aaa7dec709fa4fa82f3746abfd80bdb", "a.jpg");
            (Some "d16fb36f0911f878998c136191af705e", "b.png");
            (Some "7aaa7dec709fa4fa82f3746abfd80bdb", "c.jpg");
            (None, "d.gif"); (None, "e.bmp")]
           sample_output sample_output).
  - vm_compute. reflexivity.
  - vm_compute. reflexivity.
Defined.

End ListingFacts.


(** ** Collecting the image files *)
Section CollectFacts.
Import Io PyDict Pathlib OsWalk Scan Reach Listing DuplicateImageFinder Sample SampleDisk.

Lemma tree_induction (P : tree → Prop) :
  P Leaf →
  (∀ is_link, P (Folder is_link None)) →
  (∀ is_link listing,
     Forall (fun e => P e.2) listing → P (Folder is_link (Some listing))) →
  ∀ t, P t.
Proof.
  intros HL HN HF. fix IH 1. intros [|is_link [listing|]]; [done| |done].
  apply HF. induction listing as [|[dirname sub] l IHl]; constructor; [apply IH|done].
Qed.

Lemma walk_Folder top is_link listing :
  walk top (Folder is_link (Some listing))
  = (top, dirs_of listing, nondirs_of listing) :: walk_below top listing.
Proof.
  cbn [walk]. f_equal. unfold walk_below.
  induction listing as [|[dirname sub] l IH]; [done|].
  rewrite fmap_cons. cbn [concat fst snd]. rewrite <-IH.
  destruct sub as [|[] ?]; done.
Qed.

Lemma elem_of_concat {A} (x : A) (ls : list (list A)) :
  x ∈ concat ls ↔ ∃ l, x ∈ l ∧ l ∈ ls.
Proof.
  induction ls as [|l ls IH]; simpl.
  - split; [by intros ?%elem_of_nil|]. by intros (? & _ & ?%elem_of_nil).
  - rewrite elem_of_app, IH. split.
    + intros [?|(l' & ? & ?)]; [exists l|exists l']; split; try done;
        [by left|by right].
    + intros (l' & Hx & [->|?]%elem_of_cons); [by left|]. right. by exists l'.
Qed.

Lemma elem_of_walk_below x top listing :
  x ∈ walk_below top listing
  ↔ ∃ dirname sub_listing,
      (dirname, Folder false sub_listing) ∈ listing
      ∧ x ∈ walk (join top dirname) (Folder false sub_listing).
Proof.
  unfold walk_below. rewrite elem_of_concat. split.
  - intros (l & Hx & Hl). apply list_elem_of_fmap in Hl as ([dirname sub] & -> & He).
    simpl in Hx. destruct sub as [|[] sl]; try by apply elem_of_nil in Hx.
    by exists dirname, sl.
  - intros (dirname & sl & He & Hx). eexists. split; [exact Hx|].
    apply list_elem_of_fmap. by exists (dirname, Folder false sl).
Qed.

Lemma walk_walked t :
  ∀ top x,
    x ∈ walk top t
    ↔ ∃ names listing,
        walked t names listing
        ∧ x = (path_of top names, dirs_of listing, nondirs_of listing).
Proof.
  induction t as [|is_link|is_link listing IH] using tree_induction; intros top x.
  - split; [by intros ?%elem_of_nil|]. intros (? & ? & H & _). inversion H.
  - split; [by intros ?%elem_of_nil|]. intros (? & ? & H & _). inversion H.
  - rewrite walk_Folder, elem_of_cons, elem_of_walk_below. split.
    + intros [->|(dirname & sl & He & Hx)].
      * exists [], listing. split; [constructor|done].
      * rewrite Forall_forall in IH. apply (IH _ He) in Hx as (names & l & Hw & ->).
        exists (dirname :: names), l. split; [by econstructor|done].
    + intros (names & l & Hw & ->). inversion Hw as [|? ? dirname sl names' ? He Hw']; subst.
      * by left.
      * right. exists dirname, sl. split; [done|].
        rewrite Forall_forall in IH. apply (IH _ He). by exists names', l.
Qed.

Lemma collect_from world directories image_files out :
  fold_left
    (fun '(image_files, out) directory =>
       match world !! directory with
       | None => (image_files, out ++ [LineMissing directory])
       | Some t =>
           (image_files ++ concat (image_files_of <$> walk directory t),
            out ++ [LineScanning directory])
       end)
    directories (image_files, out)
  = (image_files ++ (collect_image_files world directories).1,
     out ++ (collect_image_files world directories).2).
Proof.
  unfold collect_image_files.
  revert image_files out. induction directories as [|d ds IH] using rev_ind;
    intros image_files out.
  - simpl. by rewrite !app_nil_r.
  - rewrite !fold_left_app. cbn [fold_left]. rewrite (IH image_files out).
    destruct (fold_left _ ds ([], [])) as [fs0 out0]. cbn [fst snd].
    destruct (world !! d); cbn [fst snd]; by rewrite <-!app_assoc.
Qed.

Lemma collect_nil world : collect_image_files world [] = ([], []).
Proof. reflexivity. Qed.

Lemma collect_cons world d ds :
  collect_image_files world (d :: ds)
  = match world !! d with
    | None =>
        ((collect_image_files world ds).1,
         LineMissing d :: (collect_image_files world ds).2)
    | Some t =>
        (concat (image_files_of <$> walk d t) ++ (collect_image_files world ds).1,
         LineScanning d :: (collect_image_files world ds).2)
    end.
Proof.
  unfold collect_image_files at 1. cbn [fold_left].
  destruct (world !! d); by rewrite collect_from.
Qed.

Lemma collect_app world ds1 ds2 :
  collect_image_files world (ds1 ++ ds2)
  = ((collect_image_files world ds1).1 ++ (collect_image_files world ds2).1,
     (collect_image_files world ds1).2 ++ (collect_image_files world ds2).2).
Proof.
  induction ds1 as [|d ds1 IH].
  { rewrite collect_nil. cbn [app fst snd]. by destruct (collect_image_files world ds2). }
  rewrite <-app_comm_cons, !collect_cons, IH.
  destruct (world !! d); cbn [fst snd]; by rewrite ?app_assoc.
Qed.

Lemma elem_of_collect world directories file_path :
  file_path ∈ (collect_image_files world directories).1
  ↔ ∃ directory t triple,
      directory ∈ directories ∧ world !! directory = Some t
      ∧ triple ∈ walk directory t ∧ file_path ∈ image_files_of triple.
Proof.
  induction directories as [|d ds IH].
  - rewrite collect_nil. split; [by intros ?%elem_of_nil|].
    by intros (? & ? & ? & ?%elem_of_nil & _).
  - rewrite collect_cons. split.
    + destruct (world !! d) as [t|] eqn:Hd; cbn [fst].
      * rewrite elem_of_app, elem_of_concat.
        intros [(l & Hx & Hl)|Hx].
        -- apply list_elem_of_fmap in Hl as (triple & -> & Ht).
           exists d, t, triple. split; [by left|done].
        -- apply IH in Hx as (d' & t' & triple & ? & ? & ? & ?).
           exists d', t', triple. split; [by right|done].
      * intros Hx. apply IH in Hx as (d' & t' & triple & ? & ? & ? & ?).
        exists d', t', triple. split; [by right|done].
    + intros (d' & t' & triple & [->|Hin]%elem_of_cons & Hw & Ht & Hx).
      * rewrite Hw. cbn [fst]. rewrite elem_of_app, elem_of_concat. left.
        exists (image_files_of triple). split; [done|].
        apply list_elem_of_fmap. by exists triple.
      * assert (file_path ∈ (collect_image_files world ds).1) as Hds.
        { apply IH. by exists d', t', triple. }
        destruct (world !! d); cbn [fst]; [|done].
        rewrite elem_of_app. by right.
Qed.

Lemma elem_of_nondirs_of file listing :
  file ∈ nondirs_of listing ↔ (file, Leaf) ∈ listing.
Proof.
  unfold nondirs_of. rewrite list_elem_of_fmap. split.
  - intros ([file' sub] & -> & [Hf He]%list_elem_of_filter).
    by destruct sub.
  - intros He. exists (file, Leaf). split; [done|].
    by apply list_elem_of_filter.
Qed.

Lemma well_named_Folder is_link listing :
  well_named (Folder is_link (Some listing))
  ↔ Forall (fun e => plain_name e.1 ∧ well_named e.2) listing.
Proof.
  cbn [well_named]. induction listing as [|[file sub] l IH].
  - split; [constructor|done].
  - rewrite Forall_cons, <-IH. cbn [fst snd]. tauto.
Qed.

Lemma walked_well_named t names listing :
  walked t names listing → well_named t →
  Forall (fun e => plain_name e.1 ∧ well_named e.2) listing.
Proof.
  induction 1 as [|? ? ? ? ? ? He Hw IH]; intros Hn.
  - by apply well_named_Folder in Hn.
  - apply IH. apply well_named_Folder in Hn. rewrite Forall_forall in Hn.
    by destruct (Hn _ He).
Qed.

Lemma suffix_join root file :
  plain_name file → suffix (join root file) = suffix file.
Proof.
  intros Hp. apply suffix_by_name. by rewrite name_join, name_plain.
Qed.

Lemma path_of_snoc top names file :
  path_of top (names ++ [file]) = join (path_of top names) file.
Proof. unfold path_of. by rewrite foldl_snoc. Qed.

(** X18: what [collect_image_files] collects.  On a disk whose entries
    are named as the system names them, a path is collected exactly when
    it is the path of an entry that is not a directory, whose own name
    has an image extension, and that sits in a directory argument or in a
    directory below it reached through directories that can be listed
    and are not symbolic links.  Directories are never collected, even
    when they are named like images. *)
Theorem collect_image_files_exactly
    (world : gmap string tree) (directories : list string) :
  (∀ directory t,
     directory ∈ directories → world !! directory = Some t → well_named t) →
  ∀ file_path,
    file_path ∈ (collect_image_files world directories).1
    ↔ ∃ directory t names listing file,
        directory ∈ directories ∧ world !! directory = Some t
        ∧ walked t names listing ∧ (file, Leaf) ∈ listing
        ∧ is_image_file file = true
        ∧ file_path = path_of directory (names ++ [file]).
Proof.
  intros Hnamed file_path. rewrite elem_of_collect. split.
  - intros (d & t & triple & Hd & Hw & Ht & Hx).
    apply walk_walked in Ht as (names & listing & Hwalked & ->).
    cbn [image_files_of] in Hx.
    apply list_elem_of_filter in Hx as [Himg Hx].
    apply list_elem_of_fmap in Hx as (file & -> & Hf).
    apply elem_of_nondirs_of in Hf.
    exists d, t, names, listing, file. repeat split; try done.
    + pose proof (walked_well_named _ _ _ Hwalked (Hnamed _ _ Hd Hw)) as Hl.
      rewrite Forall_forall in Hl. destruct (Hl _ Hf) as [Hp _].
      unfold is_image_file in *. by rewrite suffix_join in Himg.
    + by rewrite path_of_snoc.
  - intros (d & t & names & listing & file & Hd & Hw & Hwalked & Hf & Himg & ->).
    exists d, t, (path_of d names, dirs_of listing, nondirs_of listing).
    repeat split; try done.
    + apply walk_walked. by exists names, listing.
    + cbn [image_files_of]. apply list_elem_of_filter. split.
      * pose proof (walked_well_named _ _ _ Hwalked (Hnamed _ _ Hd Hw)) as Hl.
        rewrite Forall_forall in Hl. destruct (Hl _ Hf) as [Hp _].
        rewrite path_of_snoc. unfold is_image_file in *. by rewrite suffix_join.
      * rewrite path_of_snoc. apply list_elem_of_fmap. exists file.
        split; [done|]. by apply elem_of_nondirs_of.
Qed.

Lemma collect_image_files_exactly_witness :
  "pics/sub/y.gif" ∈ (collect_image_files sample_disk ["pics"; "nowhere"]).1
  ↔ ∃ directory t names listing file,
      directory ∈ ["pics"; "nowhere"] ∧ sample_disk !! directory = Some t
      ∧ walked t names listing ∧ (file, Leaf) ∈ listing
      ∧ is_image_file file = true
      ∧ "pics/sub/y.gif" = path_of directory (names ++ [file]).
Proof.
  apply (collect_image_files_exactly sample_disk ["pics"; "nowhere"]).
  intros directory t Hd Ht.
  assert (t = sample_tree) as ->.
  { apply elem_of_cons in Hd as [->|Hd]; [by vm_compute in Ht; injection Ht|].
    apply list_elem_of_singleton in Hd as ->. by vm_compute in Ht. }
  cbn [well_named sample_tree]. unfold plain_name.
  repeat split; first [discriminate | reflexivity].
Defined.

(** X19: each directory argument is scanned on its own and in turn: its
    image files are appended after those of the arguments before it and
    one line is printed for it.  An argument that does not exist is
    announced and skipped, and does not stop the scan of the others;
    nothing is deduplicated across arguments. *)
Theorem collect_image_files_each_directory
    (world : gmap string tree) (before after : list string) (directory : string) :
  collect_image_files world (before ++ directory :: after)
  = match world !! directory with
    | None =>
        ((collect_image_files world before).1
         ++ (collect_image_files world after).1,
         (collect_image_files world before).2
         ++ LineMissing directory :: (collect_image_files world after).2)
    | Some t =>
        ((collect_image_files world before).1
         ++ concat (image_files_of <$> walk directory t)
         ++ (collect_image_files world after).1,
         (collect_image_files world before).2
         ++ LineScanning directory :: (collect_image_files world after).2)
    end.
Proof.
  rewrite collect_app, collect_cons. by destruct (world !! directory).
Qed.

Lemma group_counts
    (fs : gmap string node) (workers : nat) (image_files : list string)
    (schedule : list event) (self' : finder) (rs : list result)
    (out : list msg) (file_path key : string) :
  process_images fs (init workers) image_files schedule = Some (self', rs, out) →
  fingerprint fs file_path = Some key →
  length (filter (file_path =.) (default [] (get key (md5_dict self'))))
  = length (filter (file_path =.) image_files).
Proof.
  intros H Hp. destruct (fresh_scan _ _ _ _ _ _ _ H) as (Hwf & Hg).
  by rewrite (Hg key), filter_filed_under.
Qed.

Lemma filter_elem_length (p : string) (l : list string) :
  p ∈ l → 1 ≤ length (filter (p =.) l).
Proof.
  intros Hin. assert (p ∈ filter (p =.) l) as H by by apply list_elem_of_filter.
  destruct (filter (p =.) l); [by apply elem_of_nil in H|simpl; lia].
Qed.

(** X20: a directory given twice makes its files their own duplicates.
    When a directory occurs at two places of [directories], every image
    file collected in it that can be read is reported by
    [find_duplicates] in a group that holds its path at least twice. *)
Theorem directory_given_twice
    (world : gmap string tree) (fs : gmap string node) (workers : nat)
    (directories : list string) (schedule : list event) (self' : finder)
    (rs : list result) (out : list msg) (i j : nat)
    (directory file_path key : string) :
  i < j → directories !! i = Some directory → directories !! j = Some directory →
  file_path ∈ (collect_image_files world [directory]).1 →
  fingerprint fs file_path = Some key →
  process_images fs (init workers) (collect_image_files world directories).1
    schedule = Some (self', rs, out) →
  ∃ paths,
    get key (find_duplicates self') = Some paths
    ∧ 2 ≤ length (filter (file_path =.) paths).
Proof.
  intros Hij Hi Hj Hin Hp H.
  assert (2 ≤ length (filter (file_path =.)
                        (collect_image_files world directories).1)) as Htwice.
  { apply list_elem_of_split_length in Hi as (l1 & l2 & -> & Hl1).
    rewrite lookup_app_r in Hj by lia.
    destruct (j - length l1) as [|j'] eqn:Hj'; [lia|]. cbn [lookup list_lookup] in Hj.
    apply list_elem_of_split_length in Hj as (l3 & l4 & -> & _).
    change (l1 ++ directory :: l3 ++ directory :: l4)
      with (l1 ++ [directory] ++ l3 ++ [directory] ++ l4).
    rewrite (collect_app world l1). cbn [fst].
    rewrite (collect_app world [directory]). cbn [fst].
    rewrite (collect_app world l3). cbn [fst].
    rewrite (collect_app world [directory]). cbn [fst]. rewrite !filter_app, !length_app.
    pose proof (filter_elem_length _ _ Hin). lia. }
  pose proof (group_counts _ _ _ _ _ _ _ _ _ H Hp) as Hlen.
  destruct (fresh_scan _ _ _ _ _ _ _ H) as (Hwf & _).
  rewrite <-Hlen in Htwice.
  destruct (get key (md5_dict self')) as [paths|] eqn:Hget; simpl in *; [|lia].
  exists paths. split; [|done]. apply get_find_duplicates; [done|].
  split; [done|]. pose proof (length_filter (file_path =.) paths). lia.
Qed.

Lemma directory_given_twice_witness :
  ∃ paths,
    get "d16fb36f0911f878998c136191af705e"
      (find_duplicates
         (Finder 1 [("7aaa7dec709fa4fa82f3746abfd80bdb",
                     ["./a.jpg"; "./c.jpg"; "./a.jpg"; "./c.jpg"]);
                    ("d16fb36f0911f878998c136191af705e",
                     ["./b.png"; "./b.png"])]))
    = Some paths
    ∧ 2 ≤ length (filter ("./b.png" =.) paths).
Proof.
  apply (directory_given_twice album album_fs 1 ["."; "."]
           (sequential (collect_image_files album ["."; "."]).1)
           (Finder 1 [("7aaa7dec709fa4fa82f3746abfd80bdb",
                       ["./a.jpg"; "./c.jpg"; "./a.jpg"; "./c.jpg"]);
                      ("d16fb36f0911f878998c136191af705e",
                       ["./b.png"; "./b.png"])])
           [(Some "7aaa7dec709fa4fa82f3746abfd80bdb", "./a.jpg");
            (Some "d16fb36f0911f878998c136191af705e", "./b.png");
            (Some "7aaa7dec709fa4fa82f3746abfd80bdb", "./c.jpg");
            (None, "./d.gif");
            (Some "7aaa7dec709fa4fa82f3746abfd80bdb", "./a.jpg");
            (Some "d16fb36f0911f878998c136191af705e", "./b.png");
            (Some "7aaa7dec709fa4fa82f3746abfd80bdb", "./c.jpg");
            (None, "./d.gif")]
           [MsgProcessing 8; MsgMd5Failed "./d.gif" PermissionError;
            MsgMd5Failed "./d.gif" PermissionError; MsgAllProcessed]
           0 1 "." "./b.png" "d16fb36f0911f878998c136191af705e").
  - lia.
  - reflexivity.
  - reflexivity.
  - apply (bool_decide_unpack _). vm_compute. reflexivity.
  - vm_compute. reflexivity.
  - vm_compute. reflexivity.
Defined.

Example collect_sample :
  collect_image_files sample_disk ["pics"; "nowhere"; "cover.jpg"]
  = (["pics/x.PNG"; "pics/broken.png"; "pics/b.jpg/inner.bmp"; "pics/sub/y.gif"],
     [LineScanning "pics"; LineMissing "nowhere"; LineScanning "cover.jpg"]).
Proof. vm_compute. reflexivity. Qed.

End CollectFacts.


(** ** A whole run *)
Section RunFacts.
Import Io PyDict Pathlib OsWalk Scan Reach Listing DuplicateImageFinder Sample SampleDisk.

Lemma collect_nothing_to_list world directories :
  Forall (nothing_to_list world) directories →
  collect_image_files world directories = ([], announced world <$> directories).
Proof.
  induction 1 as [|d ds Hd _ IH]; [done|].
  rewrite collect_cons, IH, fmap_cons. unfold nothing_to_list, announced in *.
  by destruct (world !! d) as [[|? []]|].
Qed.

(** X21: when no directory argument can be listed (it does not exist, is
    not a directory, or cannot be read), [run] prints one line for each
    argument and the line saying that no image file was found, then
    returns: the finder is unchanged, no statistics and no summary are
    printed, whatever the schedule. *)
Theorem run_nothing_to_list
    (world : gmap string tree) (fs : gmap string node) (self : finder)
    (directories : list string) (schedule : list event)
    (start_time end_time : Z) :
  Forall (nothing_to_list world) directories →
  Scan.run world fs self directories schedule start_time end_time
  = Some (self, (announced world <$> directories) ++ [LineNoImages]).
Proof.
  intros H. unfold Scan.run. by rewrite (collect_nothing_to_list _ _ H).
Qed.

Lemma run_nothing_to_list_witness :
  main placeholders sample_fs sample_schedule 0 5
  = Some (init 8,
          (announced placeholders
             <$> ["path/to/directory1"; "path/to/directory2";
                  "path/to/directory3"])
          ++ [LineNoImages]).
Proof.
  apply (run_nothing_to_list placeholders sample_fs (init 8)
           ["path/to/directory1"; "path/to/directory2"; "path/to/directory3"]
           sample_schedule 0 5).
  repeat constructor.
Defined.

Example main_as_shipped :
  main placeholders sample_fs sample_schedule 0 5
  = Some (init 8,
          [LineMissing "path/to/directory1"; LineScanning "path/to/directory2";
           LineScanning "path/to/directory3"; LineNoImages]).
Proof. vm_compute. reflexivity. Qed.

Lemma concat_Permutation {A} (ls1 ls2 : list (list A)) :
  ls1 ≡ₚ ls2 → concat ls1 ≡ₚ concat ls2.
Proof.
  induction 1 as [|l ls1 ls2 _ IH|l l' ls|ls1 ls2 ls3 _ IH1 _ IH2]; simpl.
  - done.
  - by rewrite IH.
  - rewrite !app_assoc. f_equiv. apply Permutation_app_comm.
  - by rewrite IH1.
Qed.

Lemma append_item_cons {A} k k' (x : A) v (d : dict (list A)) :
  append_item k x ((k', v) :: d)
  = if String.eqb k' k then (k, v ++ [x]) :: d
    else (k', v) :: append_item k x d.
Proof.
  unfold append_item, getitem_default. cbn [get].
  destruct (String.eqb k' k) eqn:Hk.
  - cbn [set]. by rewrite Hk.
  - destruct (get k d); cbn [set]; rewrite Hk; cbn [set]; by rewrite ?Hk.
Qed.

Lemma concat_append_item {A} k (x : A) (d : dict (list A)) :
  concat (append_item k x d).*2 ≡ₚ x :: concat d.*2.
Proof.
  induction d as [|[k' v] d IH].
  - unfold append_item, getitem_default. cbn [get set].
    by rewrite String.eqb_refl.
  - rewrite append_item_cons. destruct (String.eqb k' k).
    + rewrite !fmap_cons. cbn [concat snd].
      rewrite <-app_assoc. cbn [app]. by rewrite <-Permutation_middle.
    + rewrite !fmap_cons. cbn [concat snd]. rewrite IH.
      by rewrite <-Permutation_middle.
Qed.

Lemma concat_aggregate rs (d : dict (list string)) :
  sound rs →
  concat (aggregate rs d).*2
  ≡ₚ concat d.*2 ++ (filter (fun r : result => is_Some r.1) rs).*2.
Proof.
  unfold aggregate. revert d.
  induction rs as [|[[key|] p] rs IH]; intros d Hs.
  - cbn. by rewrite app_nil_r.
  - apply Forall_cons in Hs as [Hr Hs]. cbn [fold_left].
    rewrite IH by done. rewrite add_to_group_Some by by apply Hr.
    rewrite concat_append_item. rewrite filter_cons_True by done.
    rewrite fmap_cons. cbn [snd]. by rewrite <-Permutation_middle.
  - apply Forall_cons in Hs as [Hr Hs]. cbn [fold_left].
    rewrite IH by done. rewrite add_to_group_None.
    rewrite filter_cons_False; [done|]. by intros [? [=]].
Qed.

Lemma hashed_outcomes fs image_files :
  (filter (fun r : result => is_Some r.1) (outcome fs <$> image_files)).*2
  = filter (fun file_path => is_Some (fingerprint fs file_path)) image_files.
Proof.
  induction image_files as [|p l IH]; [done|].
  rewrite fmap_cons, (filter_cons _ p), (filter_cons _ (outcome fs p)).
  fold (fingerprint fs p).
  destruct (decide (is_Some (fingerprint fs p))) as [Hp|Hp].
  - rewrite fmap_cons, IH. by rewrite outcome_path.
  - done.
Qed.

Lemma filter_Permutation_fmap (rs rs' : list result) :
  rs ≡ₚ rs' →
  (filter (fun r : result => is_Some r.1) rs).*2
  ≡ₚ (filter (fun r : result => is_Some r.1) rs').*2.
Proof. intros H. by rewrite H. Qed.

Lemma grouped_paths
    (fs : gmap string node) (workers : nat) (image_files : list string)
    (schedule : list event) (self' : finder) (rs : list result)
    (out : list msg) :
  process_images fs (init workers) image_files schedule = Some (self', rs, out) →
  concat (md5_dict self').*2
  ≡ₚ filter (fun file_path => is_Some (fingerprint fs file_path)) image_files.
Proof.
  intros H. apply process_images_complete in H as (Hp & Hd & _).
  assert (sound rs) as Hs by (eapply sound_Permutation, sound_outcomes; done).
  rewrite Hd, concat_aggregate by done. cbn [init md5_dict fmap list_fmap concat app].
  by rewrite (filter_Permutation_fmap _ _ Hp), hashed_outcomes.
Qed.

Lemma listed_paths_app out out' :
  listed_paths (out ++ out') = listed_paths out ++ listed_paths out'.
Proof. apply omap_app. Qed.

Lemma listed_md5_app out out' :
  listed_md5 (out ++ out') = listed_md5 out ++ listed_md5 out'.
Proof. apply omap_app. Qed.

Lemma listed_LineOf (ms : list msg) :
  listed_paths (LineOf <$> ms) = [] ∧ listed_md5 (LineOf <$> ms) = [].
Proof. induction ms as [|m ms [IH1 IH2]]; [done|]. by rewrite fmap_cons. Qed.

Lemma listed_statistics (l : list (string * list string)) :
  listed_paths
    (concat ((fun '(md5_value, paths) =>
                LineMd5 md5_value :: (LinePath <$> paths) ++ [LineBlank]) <$> l))
  = concat l.*2
  ∧ listed_md5
      (concat ((fun '(md5_value, paths) =>
                  LineMd5 md5_value :: (LinePath <$> paths) ++ [LineBlank]) <$> l))
    = l.*1.
Proof.
  induction l as [|[k v] l [IH1 IH2]]; [done|].
  rewrite !fmap_cons. cbn [concat fst snd]. split.
  - rewrite listed_paths_app, IH1. f_equal.
    unfold listed_paths. cbn [omap list_omap]. rewrite omap_app. cbn.
    rewrite app_nil_r. induction v as [|p v IHv]; [done|]. cbn. by rewrite IHv.
  - rewrite listed_md5_app, IH2.
    unfold listed_md5 at 1. cbn [omap list_omap]. rewrite omap_app. cbn.
    rewrite app_nil_r.
    assert (omap (fun l0 => match l0 with LineMd5 k0 => Some k0 | _ => None end)
              (LinePath <$> v) = []) as ->; [|done].
    induction v as [|p v IHv]; [done|]. cbn. by rewrite IHv.
Qed.

Lemma listed_print_results self :
  listed_paths (Scan.print_results self) = concat (get_sorted_md5_list self).*2
  ∧ listed_md5 (Scan.print_results self) = (get_sorted_md5_list self).*1.
Proof.
  unfold Scan.print_results.
  destruct (listed_statistics (get_sorted_md5_list self)) as [H1 H2].
  destruct (listed_LineOf (DuplicateImageFinder.print_results self)) as [H3 H4].
  split.
  - change (listed_paths (LineStatistics :: ?l)) with (listed_paths l).
    rewrite listed_paths_app, H1.
    change (listed_paths (LineDuplicates :: ?l)) with (listed_paths l).
    by rewrite H3, app_nil_r.
  - change (listed_md5 (LineStatistics :: ?l)) with (listed_md5 l).
    rewrite listed_md5_app, H2.
    change (listed_md5 (LineDuplicates :: ?l)) with (listed_md5 l).
    by rewrite H4, app_nil_r.
Qed.

Lemma failed_or_hashed fs image_files :
  length (filter (fun file_path => is_Some (fingerprint fs file_path)) image_files)
  + length (failed fs image_files) = length image_files.
Proof.
  unfold failed. induction image_files as [|p l IH]; [done|].
  rewrite !(filter_cons _ p).
  destruct (fingerprint fs p) as [key|] eqn:Hp.
  - rewrite decide_True by done. rewrite decide_False by done. simpl. lia.
  - rewrite decide_False by by intros [? [=]]. rewrite decide_True by done.
    simpl. lia.
Qed.

Lemma statistics_contents
    (fs : gmap string node) (workers : nat) (image_files : list string)
    (schedule : list event) (self' : finder) (rs : list result)
    (out : list msg) :
  process_images fs (init workers) image_files schedule = Some (self', rs, out) →
  listed_paths (Scan.print_results self')
  ≡ₚ filter (fun file_path => is_Some (fingerprint fs file_path)) image_files
  ∧ listed_md5 (Scan.print_results self')
    ≡ₚ remove_dups (omap (fingerprint fs) image_files).
Proof.
  intros H. destruct (listed_print_results self') as [-> ->]. split.
  - rewrite <-(grouped_paths _ _ _ _ _ _ _ H). apply concat_Permutation.
    unfold get_sorted_md5_list. by rewrite sorted_by_key_Permutation.
  - rewrite <-(keys_fresh_scan _ _ _ _ _ _ _ H).
    unfold get_sorted_md5_list, keys. by rewrite sorted_by_key_Permutation.
Qed.

Lemma listed_collect world directories :
  listed_paths (collect_image_files world directories).2 = []
  ∧ listed_md5 (collect_image_files world directories).2 = [].
Proof.
  induction directories as [|d ds [IH1 IH2]]; [done|].
  rewrite collect_cons. by destruct (world !! d).
Qed.

(** X22: the statistics printed by [print_results] after a scan list
    every file that could be hashed exactly as often as it was given, and
    no file that failed; the fingerprints listed are the distinct
    fingerprints of the files, in strictly ascending order. *)
Theorem statistics_list_hashed_files
    (fs : gmap string node) (workers : nat) (image_files : list string)
    (schedule : list event) (self' : finder) (rs : list result)
    (out : list msg) :
  process_images fs (init workers) image_files schedule = Some (self', rs, out) →
  listed_paths (Scan.print_results self')
  ≡ₚ filter (fun file_path => is_Some (fingerprint fs file_path)) image_files
  ∧ listed_md5 (Scan.print_results self')
    ≡ₚ remove_dups (omap (fingerprint fs) image_files)
  ∧ ∀ i j a b,
      i < j →
      listed_md5 (Scan.print_results self') !! i = Some a →
      listed_md5 (Scan.print_results self') !! j = Some b →
      String.ltb a b = true.
Proof.
  intros H. destruct (statistics_contents _ _ _ _ _ _ _ H) as [Hpaths Hmd5].
  destruct (fresh_scan _ _ _ _ _ _ _ H) as (Hwf & _).
  split; [done|split; [done|]].
  destruct (listed_print_results self') as [_ ->].
  - intros i j a b Hij Hi Hj.
    rewrite list_lookup_fmap in Hi, Hj.
    destruct (get_sorted_md5_list self' !! i) as [x|] eqn:Hx; [|done].
    destruct (get_sorted_md5_list self' !! j) as [y|] eqn:Hy; [|done].
    simplify_eq/=.
    eapply ascending_lookup; [|exact Hij|exact Hx|exact Hy].
    by apply sorted_by_key_ascending.
Qed.

Lemma statistics_list_hashed_files_witness :
  listed_paths (Scan.print_results sample_finder)
  ≡ₚ filter (fun file_path => is_Some (fingerprint sample_fs file_path))
       sample_files
  ∧ listed_md5 (Scan.print_results sample_finder)
    ≡ₚ remove_dups (omap (fingerprint sample_fs) sample_files)
  ∧ ∀ i j a b,
      i < j →
      listed_md5 (Scan.print_results sample_finder) !! i = Some a →
      listed_md5 (Scan.print_results sample_finder) !! j = Some b →
      String.ltb a b = true.
Proof.
  apply (statistics_list_hashed_files sample_fs 2 sample_files sample_schedule
           sample_finder sample_results sample_output).
  vm_compute. reflexivity.
Defined.

(** X24: the summary of [run].  When image files were collected the
    output ends with the elapsed time, the number of collected files
    (those whose digest failed included) and the number of distinct
    fingerprints; the paths listed in the statistics and the failed files
    add up to the number of collected files. *)
Theorem run_summary
    (world : gmap string tree) (fs : gmap string node) (workers : nat)
    (directories : list string) (schedule : list event)
    (start_time end_time : Z) (self' : finder) (out : list line) :
  Scan.run world fs (init workers) directories schedule start_time end_time
  = Some (self', out) →
  (collect_image_files world directories).1 ≠ [] →
  let image_files := (collect_image_files world directories).1 in
  (∃ body,
     out = body ++ [LineElapsed start_time end_time;
                    LineCount (length image_files);
                    LineUnique (length (remove_dups
                                          (omap (fingerprint fs) image_files)))])
  ∧ length (listed_paths out) + length (failed fs image_files)
    = length image_files
  ∧ length (listed_md5 out)
    = length (remove_dups (omap (fingerprint fs) image_files)).
Proof.
  unfold Scan.run.
  destruct (collect_image_files world directories) as [image_files out0] eqn:Hc.
  cbn [fst]. intros Hrun Hne. destruct image_files as [|p l]; [done|].
  destruct (process_images fs (init workers) (p :: l) schedule)
    as [[[self1 rs] out1]|] eqn:Hproc; [|done].
  assert (out = out0 ++ (LineOf <$> out1) ++ Scan.print_results self1
                ++ [LineElapsed start_time end_time;
                    LineCount (length (p :: l));
                    LineUnique (len (md5_dict self1))]) as -> by congruence.
  clear Hrun.
  pose proof (keys_fresh_scan _ _ _ _ _ _ _ Hproc) as Hk.
  pose proof (statistics_contents _ _ _ _ _ _ _ Hproc) as (Hpaths & Hmd5).
  pose proof (listed_collect world directories) as [Hc1 Hc2].
  rewrite Hc in Hc1, Hc2. cbn [snd] in Hc1, Hc2.
  destruct (listed_LineOf out1) as [Ho1 Ho2].
  assert (len (md5_dict self1)
          = length (remove_dups (omap (fingerprint fs) (p :: l)))) as Hlen.
  { unfold len. rewrite <-Hk. unfold keys. by rewrite length_fmap. }
  split; [|split].
  - exists (out0 ++ (LineOf <$> out1) ++ Scan.print_results self1).
    rewrite Hlen, <-(app_assoc out0), <-(app_assoc (LineOf <$> out1)). reflexivity.
  - rewrite !listed_paths_app, Hc1, Ho1. cbn [app].
    change (listed_paths [_; _; _]) with (@nil string).
    rewrite ?app_nil_r, Hpaths. apply failed_or_hashed.
  - rewrite !listed_md5_app, Hc2, Ho2. cbn [app].
    change (listed_md5 [_; _; _]) with (@nil string).
    by rewrite ?app_nil_r, Hmd5.
Qed.

Lemma run_summary_witness :
  let image_files := (collect_image_files album ["."]).1 in
  (∃ body,
     [LineScanning "."; LineOf (MsgProcessing 4);
      LineOf (MsgMd5Failed "./d.gif" PermissionError);
      LineOf MsgAllProcessed; LineStatistics;
      LineMd5 "7aaa7dec709fa4fa82f3746abfd80bdb";
      LinePath "./a.jpg"; LinePath "./c.jpg"; LineBlank;
      LineMd5 "d16fb36f0911f878998c136191af705e";
      LinePath "./b.png"; LineBlank; LineDuplicates;
      LineOf (MsgFoundGroups 1);
      LineOf (MsgGroup "7aaa7dec709fa4fa82f3746abfd80bdb" ["./a.jpg"; "./c.jpg"]);
      LineElapsed 0 7; LineCount 4; LineUnique 2]
     = body ++ [LineElapsed 0 7;
                LineCount (length image_files);
                LineUnique (length (remove_dups
                                      (omap (fingerprint album_fs) image_files)))])
  ∧ length (listed_paths
              [LineScanning "."; LineOf (MsgProcessing 4);
               LineOf (MsgMd5Failed "./d.gif" PermissionError);
               LineOf MsgAllProcessed; LineStatistics;
               LineMd5 "7aaa7dec709fa4fa82f3746abfd80bdb";
               LinePath "./a.jpg"; LinePath "./c.jpg"; LineBlank;
               LineMd5 "d16fb36f0911f878998c136191af705e";
               LinePath "./b.png"; LineBlank; LineDuplicates;
               LineOf (MsgFoundGroups 1);
               LineOf (MsgGroup "7aaa7dec709fa4fa82f3746abfd80bdb"
                         ["./a.jpg"; "./c.jpg"]);
               LineElapsed 0 7; LineCount 4; LineUnique 2])
    + length (failed album_fs image_files)
    = length image_files
  ∧ length (listed_md5
              [LineScanning "."; LineOf (MsgProcessing 4);
               LineOf (MsgMd5Failed "./d.gif" PermissionError);
               LineOf MsgAllProcessed; LineStatistics;
               LineMd5 "7aaa7dec709fa4fa82f3746abfd80bdb";
               LinePath "./a.jpg"; LinePath "./c.jpg"; LineBlank;
               LineMd5 "d16fb36f0911f878998c136191af705e";
               LinePath "./b.png"; LineBlank; LineDuplicates;
               LineOf (MsgFoundGroups 1);
               LineOf (MsgGroup "7aaa7dec709fa4fa82f3746abfd80bdb"
                         ["./a.jpg"; "./c.jpg"]);
               LineElapsed 0 7; LineCount 4; LineUnique 2])
    = length (remove_dups (omap (fingerprint album_fs) image_files)).
Proof.
  apply (run_summary album album_fs 1 ["."]
           (sequential (collect_image_files album ["."]).1) 0 7 album_finder).
  - vm_compute. reflexivity.
  - vm_compute. discriminate.
Defined.

End RunFacts.


(** ** The prune script on any machine *)
Section ScriptFacts.
Import PyDict Os DeleteFile Rebuilt Posix Script.
Implicit Types (sys : system) (st : state) (x : value) (o : outcome).

Lemma print_cases sys m st :
  print sys m st
  = if printable sys m then Done (State (say m (now st)) (tried st))
    else Raised UnicodeEncodeError st.
Proof. reflexivity. Qed.

Lemma removes_inv sys w x :
  removes sys w x = true →
  ∃ path, x = VStr path
    ∧ entry sys path ∈ existing w ∧ (entry sys path ∉ locked w)
    ∧ path_exists sys w x = inr true
    ∧ (remove sys w x
       = inr (World (existing w ∖ {[entry sys path]}) (locked w) (open_fds w))).
Proof.
  destruct x as [| | | |path| |]; try done. simpl.
  intros [[[He Hp]%andb_prop Ht]%andb_prop Hl%negb_true_iff]%andb_prop.
  exists path. rewrite He, Hp, Ht, Hl. simpl.
  apply bool_decide_eq_true in He. apply bool_decide_eq_false in Hl. done.
Qed.

Lemma delete_file_removes sys st x :
  removes sys (world (now st)) x = true →
  ∃ path, x = VStr path
    ∧ entry sys path ∈ existing (world (now st))
    ∧ (entry sys path ∉ locked (world (now st)))
    ∧ (delete_file sys st x
       = let w' := World (existing (world (now st)) ∖ {[entry sys path]})
                         (locked (world (now st))) (open_fds (world (now st))) in
         if shows sys x
         then Done (State (Vars w' (kept_files_data (now st))
                                (files_deleted_count (now st) + 1)
                                (processed_md5_count (now st))
                                (stdout (now st) ++ [Deleted x]))
                          (tried st ++ [x]))
         else Raised UnicodeEncodeError
                (State (Vars w' (kept_files_data (now st))
                             (files_deleted_count (now st))
                             (processed_md5_count (now st)) (stdout (now st)))
                       (tried st ++ [x]))).
Proof.
  intros Hr. destruct (removes_inv _ _ _ Hr) as (path & -> & He & Hl & Hx & Hrm).
  exists path. do 3 (split; [done|]).
  unfold delete_file, try_delete. cbn [now tried]. rewrite Hx, Hrm.
  rewrite !print_cases. cbn [printable now tried].
  destruct (shows sys (VStr path)) eqn:Hs; [done|].
  cbn [is_OSError]. rewrite print_cases. cbn [printable]. by rewrite Hs.
Qed.

Lemma handler_cases sys st x e :
  ∃ m, target m = Some x ∧ is_Deleted m = false
    ∧ (if is_OSError e then print sys (ErrOS x e) st
       else print sys (ErrUnknown x e) st)
      = if shows sys x then Done (State (say m (now st)) (tried st))
        else Raised UnicodeEncodeError st.
Proof.
  destruct (is_OSError e); [exists (ErrOS x e)|exists (ErrUnknown x e)];
    rewrite print_cases; done.
Qed.

Lemma delete_file_keeps sys st x :
  removes sys (world (now st)) x = false →
  ∃ m, target m = Some x ∧ is_Deleted m = false
    ∧ delete_file sys st x
      = if shows sys x
        then Done (State (say m (now st)) (tried st ++ [x]))
        else Raised UnicodeEncodeError (State (now st) (tried st ++ [x])).
Proof.
  intros Hr. unfold delete_file, try_delete. cbn [now tried].
  set (st0 := State (now st) (tried st ++ [x])).
  destruct (path_exists sys (world (now st)) x) as [e|[]] eqn:Hx.
  - apply (handler_cases sys st0 x e).
  - destruct (remove sys (world (now st)) x) as [e|w'] eqn:Hrm.
    + apply (handler_cases sys st0 x e).
    + exfalso. destruct x as [| | | |path| |]; try done.
      simpl in Hx, Hrm, Hr. injection Hx as Hx.
      apply andb_prop in Hx as [[He Hp]%andb_prop Ht].
      rewrite He, Hp, Ht in Hr. rewrite He, Hp in Hrm. simpl in Hr, Hrm.
      destruct (bool_decide (entry sys path ∈ locked (world (now st)))); done.
  - exists (WarnMissing x). split; [done|]. split; [done|].
    rewrite print_cases. cbn [printable].
    destruct (shows sys x) eqn:Hs; [done|].
    cbn [is_OSError]. rewrite print_cases. cbn [printable]. by rewrite Hs.
Qed.

Lemma deletions_snoc out m :
  deletions (out ++ [m]) = deletions out + (if is_Deleted m then 1 else 0).
Proof.
  unfold deletions. rewrite filter_app, length_app. f_equal.
  destruct (is_Deleted m) eqn:Hm.
  - by rewrite filter_cons_True.
  - rewrite filter_cons_False; [done|]. by rewrite Hm.
Qed.

Lemma effect_delete_file sys st x : effect sys [x] st (delete_file sys st x).
Proof.
  unfold effect. cbn zeta.
  destruct (removes sys (world (now st)) x) eqn:Hr.
  - destruct (delete_file_removes sys st x Hr) as (path & -> & He & Hl & ->).
    cbn zeta.
    assert (size (existing (world (now st)) ∖ {[entry sys path]}) + 1
            = size (existing (world (now st)))) as Hsize.
    { rewrite size_difference by set_solver. rewrite size_singleton.
      assert (size (existing (world (now st))) ≠ 0).
      { apply size_non_empty_iff. set_solver. }
      lia. }
    assert (∀ e, e ∈ existing (world (now st)) →
                 e ∉ existing (world (now st)) ∖ {[entry sys path]} →
                 ∃ path0, VStr path0 ∈ [VStr path] ∧ entry sys path0 = e
                          ∧ e ∉ locked (world (now st))) as Hgone.
    { intros e Hin Hout. exists path. split; [by apply list_elem_of_singleton|].
      destruct (decide (e = entry sys path)) as [->|Hne]; [done|].
      exfalso. apply Hout. set_solver. }
    destruct (shows sys (VStr path)); cbn [final completes now tried world
      files_deleted_count stdout existing locked open_fds].
    + split; [done|]. split; [done|]. split; [set_solver|]. split; [done|].
      split; [by exists [VStr path]|]. split; [lia|].
      rewrite deletions_snoc. cbn [is_Deleted]. split; [lia|].
      intros _ path0 Hp0 _ _. apply list_elem_of_singleton in Hp0 as [= ->].
      set_solver.
    + split; [done|]. split; [done|]. split; [set_solver|]. split; [done|].
      split; [by exists [VStr path]|]. split; [lia|]. split; [lia|]. done.
  - destruct (delete_file_keeps sys st x Hr) as (m & Hm & Hd & ->).
    destruct (shows sys x); cbn [final completes now tried world say
      files_deleted_count stdout].
    + split; [done|]. split; [done|]. split; [done|].
      split; [by intros e ??|]. split; [by exists [x]|]. split; [done|].
      rewrite deletions_snoc, Hd. split; [lia|].
      intros _ path Hp [Hpar Htar] Hl.
      apply list_elem_of_singleton in Hp as <-. simpl in Hr.
      rewrite Hpar, Htar in Hr. simpl in Hr.
      rewrite !andb_true_r in Hr.
      intros He. rewrite bool_decide_eq_true_2 in Hr by done.
      rewrite bool_decide_eq_false_2 in Hr by done. done.
    + split; [done|]. split; [done|]. split; [done|].
      split; [by intros e ??|]. split; [by exists [x]|]. split; [lia|].
      split; [done|]. done.
Qed.

Lemma effect_nil sys st : effect sys [] st (Done st).
Proof.
  unfold effect. cbn zeta. cbn [final completes].
  split; [done|]. split; [done|]. split; [done|]. split; [by intros e ??|].
  split; [exists []; by rewrite app_nil_r|]. split; [done|]. split; [done|].
  intros _ path Hp. by apply elem_of_nil in Hp.
Qed.

Lemma effect_same sys xs st st0 o :
  same_disk st st0 → effect sys xs st0 o → effect sys xs st o.
Proof.
  unfold same_disk, effect. cbn zeta.
  intros (Hw & Hn & Hd & Ht). by rewrite Hw, Hn, Hd, Ht.
Qed.

Lemma effect_seq sys xs1 xs2 st st1 o :
  effect sys xs1 st (Done st1) → effect sys xs2 st1 o →
  effect sys (xs1 ++ xs2) st o.
Proof.
  unfold effect. cbn zeta. cbn [final completes].
  intros (L1 & O1 & S1 & G1 & (took1 & T1 & P1 & C1) & B1 & D1 & F1).
  intros (L2 & O2 & S2 & G2 & (took2 & T2 & P2 & C2) & B2 & D2 & F2).
  specialize (C1 eq_refl). subst took1.
  split; [congruence|]. split; [congruence|]. split; [set_solver|].
  split; [|split; [|split; [|split]]].
  - intros e Hin Hout.
    destruct (decide (e ∈ existing (world (now st1)))) as [Hmid|Hmid].
    + destruct (G2 e Hmid Hout) as (path & Hp & He & Hl).
      exists path. split; [apply elem_of_app; by right|]. split; [done|].
      by rewrite <-L1.
    + destruct (G1 e Hin Hmid) as (path & Hp & He & Hl).
      exists path. split; [apply elem_of_app; by left|]. done.
  - exists (xs1 ++ took2). split; [by rewrite T2, T1, app_assoc|].
    split; [by apply prefix_app|]. intros Hc. by rewrite (C2 Hc).
  - destruct (completes o); lia.
  - lia.
  - intros Hc path [Hp|Hp]%elem_of_app Hdir Hl.
    + specialize (F1 eq_refl path Hp Hdir Hl). set_solver.
    + apply (F2 Hc path Hp Hdir). by rewrite L1.
Qed.

Lemma effect_raised sys xs1 xs2 st e st1 :
  effect sys xs1 st (Raised e st1) → effect sys (xs1 ++ xs2) st (Raised e st1).
Proof.
  unfold effect. cbn zeta. cbn [final completes].
  intros (L1 & O1 & S1 & G1 & (took1 & T1 & P1 & C1) & B1 & D1 & F1).
  split; [done|]. split; [done|]. split; [done|].
  split; [|split; [|split; [|split]]]; [| |done|done|done].
  - intros e' Hin Hout. destruct (G1 e' Hin Hout) as (path & Hp & He & Hl).
    exists path. split; [apply elem_of_app; by left|]. done.
  - exists took1. split; [done|]. split; [|done].
    by apply prefix_app_r.
Qed.

Lemma effect_print sys st m :
  is_Deleted m = false → effect sys [] st (print sys m st).
Proof.
  intros Hm. rewrite print_cases. destruct (printable sys m).
  - eapply effect_seq with (xs1 := []) (xs2 := []); [|apply effect_nil].
    unfold effect. cbn zeta. cbn [final completes now tried say world
      files_deleted_count stdout].
    split; [done|]. split; [done|]. split; [done|]. split; [by intros e ??|].
    split; [exists []; by rewrite app_nil_r|]. split; [done|].
    rewrite deletions_snoc, Hm. split; [lia|].
    intros _ path Hp. by apply elem_of_nil in Hp.
  - unfold effect. cbn zeta. cbn [final completes].
    split; [done|]. split; [done|]. split; [done|]. split; [by intros e ??|].
    split; [exists []; split; [by rewrite app_nil_r|done]|].
    split; [lia|]. split; [done|]. done.
Qed.

Lemma effect_delete_all sys xs st :
  effect sys xs st (for_each (delete_file sys) xs st).
Proof.
  revert st. induction xs as [|x xs IH]; intros st; cbn [for_each].
  - apply effect_nil.
  - pose proof (effect_delete_file sys st x) as Hx.
    destruct (delete_file sys st x) as [st1|e st1].
    + apply (effect_seq sys [x] xs st st1); [done|apply IH].
    + apply (effect_raised sys [x] xs). done.
Qed.

Lemma effect_process_entry sys st md5_hash file_list :
  effect sys (tail_of file_list) st (process_entry sys st (md5_hash, file_list)).
Proof.
  unfold process_entry.
  destruct (negb (Py.truthy file_list) || negb (Py.isinstance_list file_list))
    eqn:Hguard.
  - assert (tail_of file_list = []) as ->.
    { apply tail_of_invalid. unfold valid.
      apply orb_true_iff in Hguard as [H|H]; apply negb_true_iff in H;
        rewrite H; [done|apply andb_false_r]. }
    eapply effect_same; [|by apply effect_print]. done.
  - destruct file_list as [| | | | |[|first others]|];
      try (simpl in Hguard; rewrite ?orb_true_r in Hguard; discriminate).
    cbn [tail_of]. eapply effect_same; [|apply effect_delete_all]. done.
Qed.

Lemma effect_walk_items sys items st :
  effect sys (tails items) st (for_each (process_entry sys) items st).
Proof.
  revert st. induction items as [|[k v] items IH]; intros st; cbn [for_each].
  - apply effect_nil.
  - pose proof (effect_process_entry sys st k v) as Hx.
    unfold tails. cbn [flat_map snd]. fold (tails items).
    destruct (process_entry sys st (k, v)) as [st1|e st1].
    + apply (effect_seq sys (tail_of v) (tails items) st st1); [done|apply IH].
    + by apply effect_raised.
Qed.

(** *** What the loops leave in the other variables *)

Lemma delete_file_vars sys st x :
  kept_files_data (now (final (delete_file sys st x))) = kept_files_data (now st)
  ∧ processed_md5_count (now (final (delete_file sys st x)))
    = processed_md5_count (now st)
  ∧ completes (delete_file sys st x) = shows sys x.
Proof.
  destruct (removes sys (world (now st)) x) eqn:Hr.
  - destruct (delete_file_removes sys st x Hr) as (path & -> & _ & _ & ->).
    cbn zeta. by destruct (shows sys (VStr path)).
  - destruct (delete_file_keeps sys st x Hr) as (m & _ & _ & ->).
    by destruct (shows sys x).
Qed.

Lemma delete_all_vars sys xs st :
  let o := for_each (delete_file sys) xs st in
  kept_files_data (now (final o)) = kept_files_data (now st)
  ∧ processed_md5_count (now (final o)) = processed_md5_count (now st)
  ∧ completes o = forallb (shows sys) xs.
Proof.
  cbn zeta. revert st. induction xs as [|x xs IH]; intros st; [done|].
  cbn [for_each forallb].
  destruct (delete_file_vars sys st x) as (Hk & Hp & Hc).
  destruct (delete_file sys st x) as [st1|e st1]; cbn [final completes] in *.
  - rewrite <-Hc. cbn [andb]. destruct (IH st1) as (Hk1 & Hp1 & Hc1).
    by rewrite Hk1, Hp1, Hk, Hp.
  - rewrite <-Hc. done.
Qed.

Lemma valid_guard v :
  negb (Py.truthy v) || negb (Py.isinstance_list v) = negb (valid v).
Proof. unfold valid. by rewrite negb_andb. Qed.

Lemma process_entry_vars sys st entry :
  let o := process_entry sys st entry in
  kept_files_data (now (final o)) = keep (kept_files_data (now st)) entry
  ∧ processed_md5_count (now (final o)) = processed_md5_count (now st) + 1
  ∧ completes o = shown sys entry.
Proof.
  cbn zeta. destruct entry as [md5_hash file_list].
  unfold process_entry, shown, keep. cbn [fst snd]. rewrite valid_guard.
  destruct (valid file_list) eqn:Hv; cbn [negb].
  - apply valid_inv in Hv as (first & others & ->). cbn [tail_of].
    match goal with |- context [for_each _ _ ?s] =>
      destruct (delete_all_vars sys others s) as (Hk & Hp & Hc) end.
    cbn zeta in *. by rewrite Hk, Hp, Hc.
  - rewrite print_cases. cbn [printable].
    assert (match file_list with
            | VList (first_file_path :: _) =>
                set md5_hash [first_file_path] (kept_files_data (now st))
            | _ => kept_files_data (now st)
            end = kept_files_data (now st)) as ->.
    { by destruct file_list as [| | | | |[|]|]. }
    by destruct (shows sys (VStr md5_hash)).
Qed.

Lemma walk_items_vars sys items st :
  let o := for_each (process_entry sys) items st in
  (completes o = true →
   kept_files_data (now (final o)) = fold_left keep items (kept_files_data (now st))
   ∧ processed_md5_count (now (final o))
     = processed_md5_count (now st) + length items)
  ∧ completes o = forallb (shown sys) items.
Proof.
  cbn zeta. revert st. induction items as [|entry items IH]; intros st.
  - cbn. split; [intros _; split; [done|lia]|done].
  - cbn [for_each forallb fold_left length].
    destruct (process_entry_vars sys st entry) as (Hk & Hp & Hc).
    destruct (process_entry sys st entry) as [st1|e st1];
      cbn [final completes] in *; rewrite <-Hc; cbn [andb]; [|done].
    destruct (IH st1) as (Hdone & Hc1). split; [|done].
    intros Hd. destruct (Hdone Hd) as (-> & ->). rewrite Hk, Hp. split; [done|lia].
Qed.

(** *** The script on a machine without surprises *)

Lemma path_exists_plain w x : Posix.path_exists plain w x = Os.path_exists w x.
Proof. destruct x; try done. simpl. by rewrite !andb_true_r. Qed.

Lemma remove_plain w x : Posix.remove plain w x = Os.remove w x.
Proof.
  destruct x as [| | | |path| |]; try done. simpl. rewrite andb_true_r.
  by destruct (bool_decide (path ∈ existing w)), (bool_decide (path ∈ locked w)).
Qed.

Lemma delete_file_plain st x :
  delete_file plain st x
  = Done (State (DeleteFile.delete_file (now st) x) (tried st ++ [x])).
Proof.
  unfold delete_file, try_delete, DeleteFile.delete_file, remove_if_exists.
  cbn [now tried]. rewrite path_exists_plain, remove_plain.
  destruct (Os.path_exists (world (now st)) x) as [e|[]].
  - by destruct (is_OSError e).
  - destruct (Os.remove (world (now st)) x) as [e|w']; [by destruct (is_OSError e)|].
    done.
  - done.
Qed.

Lemma delete_all_plain xs st :
  for_each (delete_file plain) xs st
  = Done (State (fold_left DeleteFile.delete_file xs (now st)) (tried st ++ xs)).
Proof.
  revert st. induction xs as [|x xs IH]; intros st; cbn [for_each fold_left].
  - rewrite app_nil_r. by destruct st.
  - rewrite delete_file_plain, IH. cbn [now tried]. by rewrite <-app_assoc.
Qed.

Lemma process_entry_plain st entry :
  process_entry plain st entry
  = Done (State (DeleteFile.process_entry (now st) entry)
                (tried st ++ tail_of entry.2)).
Proof.
  destruct entry as [md5_hash file_list].
  unfold process_entry, DeleteFile.process_entry. cbn [snd now tried].
  destruct (negb (Py.truthy file_list) || negb (Py.isinstance_list file_list))
    eqn:Hguard.
  - rewrite tail_of_invalid, app_nil_r; [done|].
    rewrite valid_guard in Hguard. by apply negb_true_iff in Hguard.
  - destruct file_list as [| | | | |[|first others]|];
      try (simpl in Hguard; rewrite ?orb_true_r in Hguard; discriminate).
    rewrite delete_all_plain. done.
Qed.

Lemma walk_items_plain items st :
  for_each (process_entry plain) items st
  = Done (State (fold_left DeleteFile.process_entry items (now st))
                (tried st ++ tails items)).
Proof.
  revert st. induction items as [|entry items IH]; intros st;
    cbn [for_each fold_left].
  - unfold tails. cbn. rewrite app_nil_r. by destruct st.
  - rewrite process_entry_plain, IH. cbn [now tried].
    unfold tails. cbn [flat_map]. by rewrite <-app_assoc.
Qed.

(** On a machine where every path string names its own entry, nothing is
    a link and the terminal shows everything, the script is the script of
    [DeleteFile]. *)
Lemma prune_plain w data :
  now (prune plain w data).1 = (DeleteFile.prune w data).1
  ∧ (prune plain w data).2 = (DeleteFile.prune w data).2.
Proof.
  unfold prune, walk, DeleteFile.prune, DeleteFile.walk.
  destruct (entries data) as [e|[items|]]; [done| |done].
  rewrite walk_items_plain. done.
Qed.

End ScriptFacts.

Section ScriptClaims.
Import PyDict Os DeleteFile Rebuilt Posix Script Machine.
Implicit Types (sys : system) (st : state) (x : value).

Lemma effect_walk sys w data :
  effect sys (listed data) (begin w) (walk sys w data).
Proof.
  unfold walk, listed. destruct (entries data) as [e|[items|]].
  - unfold effect. cbn zeta. cbn [final completes].
    split; [done|]. split; [done|]. split; [done|]. split; [by intros ???|].
    split; [exists []; split; [by rewrite app_nil_r|done]|].
    split; [lia|]. split; [done|]. done.
  - apply effect_walk_items.
  - by apply effect_print.
Qed.

Lemma prune_final sys w data :
  let o := walk sys w data in
  let st := (prune sys w data).1 in
  world (now st) = world (now (final o))
  ∧ files_deleted_count (now st) = files_deleted_count (now (final o))
  ∧ kept_files_data (now st) = kept_files_data (now (final o))
  ∧ processed_md5_count (now st) = processed_md5_count (now (final o))
  ∧ tried st = tried (final o)
  ∧ deletions (stdout (now st)) = deletions (stdout (now (final o)))
  ∧ (prune sys w data).2
    = if completes o
      then Some (Report (len (kept_files_data (now (final o))))
                        (kept_files_data (now (final o))))
      else None.
Proof.
  cbn zeta. unfold prune. destruct (walk sys w data) as [st|e st];
    cbn [fst snd final completes now tried world files_deleted_count
         kept_files_data processed_md5_count stdout say].
  - repeat (split; [done|]). split; [|done].
    unfold deletions. rewrite filter_app. cbn. by rewrite app_nil_r.
  - repeat (split; [done|]). split; [|done].
    by rewrite deletions_snoc, Nat.add_0_r.
Qed.

Lemma prune_report_built sys w data r :
  (prune sys w data).2 = Some r → completes (walk sys w data) = true.
Proof.
  destruct (prune_final sys w data) as (_ & _ & _ & _ & _ & _ & ->).
  by destruct (completes _).
Qed.




(** The run on [respelled]: the file the report keeps is gone, the
    directory is refused as a directory. *)
Example respelled_run :
  let '(st, new_json_structure) := prune laptop desk (report_of respelled) in
  stdout (now st)
  = [Deleted (VStr "./a.jpg"); ErrOS (VStr "album") IsADirectoryError;
     WarnMissing (VStr "nowhere.jpg"); ErrOS (VStr "y.jpg") PermissionError;
     MsgScanned 2; MsgKept 2; MsgDeletedTotal 1;
     MsgJson (Report 2 [("fp1", [VStr "a.jpg"]); ("fp2", [VStr "x.jpg"])])]
  ∧ new_json_structure
    = Some (Report 2 [("fp1", [VStr "a.jpg"]); ("fp2", [VStr "x.jpg"])])
  ∧ "a.jpg" ∉ existing (world (now st)).
Proof.
  vm_compute. split; [reflexivity|]. split; [reflexivity|].
  intros H. apply (bool_decide_pack _) in H. vm_compute in H. exact H.
Qed.

(** C8: a deletion outcome can stop the batch.  On a UTF-8 terminal, a
    listed path that is missing and whose name cannot be encoded makes
    the warning raise; the handler prints the same name and raises again;
    the outer handler ends the script: nothing after it is taken, the
    second entry is not scanned, no report is built.  The same report
    with a name the terminal shows runs to its end.  A refused removal of
    a file with such a name stops the batch in the same way. *)
Theorem deletion_aborts_on_unprintable_name :
  (let '(st, new_json_structure) := prune laptop desk (report_of unprintable) in
   new_json_structure = None
   ∧ stdout (now st) = [ErrUnexpected UnicodeEncodeError]
   ∧ tried st = [VStr odd_gone]
   ∧ processed_md5_count (now st) = 1
   ∧ world (now st) = desk)
  ∧ (let '(st, new_json_structure) :=
       prune laptop desk (report_of printable_twin) in
     new_json_structure
     = Some (Report 2 [("fp1", [VStr "a.jpg"]); ("fp2", [VStr "x.jpg"])])
     ∧ stdout (now st)
       = [WarnMissing (VStr "gone.jpg"); Deleted (VStr "c.jpg");
          ErrOS (VStr "y.jpg") PermissionError;
          MsgScanned 2; MsgKept 2; MsgDeletedTotal 1;
          MsgJson (Report 2 [("fp1", [VStr "a.jpg"]); ("fp2", [VStr "x.jpg"])])]
     ∧ tried st = [VStr "gone.jpg"; VStr "c.jpg"; VStr "y.jpg"])
  ∧ (let locked_too :=
       World (existing desk) (locked desk ∪ {[odd_name]}) (open_fds desk) in
     let '(st, new_json_structure) :=
       prune laptop locked_too (report_of unprintable_present) in
     new_json_structure = None
     ∧ stdout (now st) = [ErrUnexpected UnicodeEncodeError]
     ∧ tried st = [VStr odd_name]
     ∧ world (now st) = locked_too).
Proof. vm_compute. repeat split. Qed.

(** The batch reaches its end exactly when every message about an entry
    can be printed; every listed value is then taken and every entry
    scanned. *)
Lemma batch_completes sys w data items :
  entries data = inr (Some items) →
  (is_Some (prune sys w data).2 ↔ forallb (shown sys) items = true)
  ∧ (is_Some (prune sys w data).2 →
     tried (prune sys w data).1 = tails items
     ∧ processed_md5_count (now (prune sys w data).1) = length items).
Proof.
  intros He.
  destruct (prune_final sys w data) as (_ & _ & _ & Hp & Ht & _ & Hr).
  cbn zeta in *. rewrite Hr, Hp, Ht.
  pose proof (effect_walk sys w data) as Heff.
  unfold listed in Heff. rewrite He in Heff.
  destruct Heff as (_ & _ & _ & _ & (took & Htook & _ & Hall) & _).
  unfold walk in *. rewrite He in *.
  destruct (walk_items_vars sys items (begin w)) as (Hdone & Hc).
  rewrite <-Hc. split.
  - destruct (completes _); split; try done; by intros [? [=]].
  - destruct (completes _); [|by intros [? [=]]]. intros _.
    destruct (Hdone eq_refl) as (_ & ->). rewrite Htook, (Hall eq_refl). done.
Qed.

(** X1: the counter of deleted files is the number of removals the
    script printed.  The script creates nothing and leaves every entry
    the system refuses to unlink.  When it reaches its summary the
    counter is the number of entries that left the disk; when it is
    stopped by a print the counter is that number or one less (a file
    removed whose line could not be printed). *)
Theorem prune_count_is_files_gone
    (sys : system) (w : Os.world) (data : value) :
  let st := now (prune sys w data).1 in
  files_deleted_count st = deletions (stdout st)
  ∧ existing (world st) ⊆ existing w
  ∧ locked (world st) = locked w
  ∧ (∀ e, e ∈ existing w → e ∈ locked w → e ∈ existing (world st))
  ∧ size (existing (world st)) + files_deleted_count st ≤ size (existing w)
  ∧ size (existing w) ≤ size (existing (world st)) + files_deleted_count st + 1
  ∧ (is_Some (prune sys w data).2 →
     size (existing (world st)) + files_deleted_count st = size (existing w)).
Proof.
  cbn zeta.
  destruct (prune_final sys w data) as (Hw & Hn & _ & _ & _ & Hd & Hr).
  cbn zeta in *. rewrite Hw, Hn, Hd, Hr. clear Hw Hn Hd Hr.
  destruct (effect_walk sys w data)
    as (HL & _ & Hsub & Hgone & _ & Hbal & Hdel & _).
  cbn zeta in *. cbn [begin now start world files_deleted_count stdout] in *.
  unfold deletions in Hdel at 1. cbn in Hdel.
  split; [lia|]. split; [done|]. split; [done|]. split.
  { intros e Hin Hl.
    destruct (decide (e ∈ existing (world (now (final (walk sys w data))))))
      as [|Hout]; [done|].
    by destruct (Hgone e Hin Hout) as (_ & _ & _ & Hnl). }
  destruct (completes (walk sys w data)).
  - split; [lia|]. split; [lia|]. intros _. lia.
  - split; [lia|]. split; [lia|]. by intros [? [=]].
Qed.

(** A removal that is not counted: the file is unlinked, the line that
    reports it cannot be printed, and the script ends with the counter
    unmoved. *)
Example removed_but_not_counted :
  let st := now (prune laptop desk (report_of unprintable_present)).1 in
  odd_name ∈ existing desk
  ∧ (odd_name ∉ existing (world st))
  ∧ files_deleted_count st = 0
  ∧ size (existing desk) = size (existing (world st)) + 1.
Proof.
  cbn zeta. split; [apply (bool_decide_unpack _); vm_compute; exact I|].
  split; [|split; vm_compute; reflexivity].
  intros H. apply (bool_decide_pack _) in H. vm_compute in H. exact H.
Qed.

(** X2: when the report is built and no listed path is or goes through
    a link, an entry is on disk afterwards exactly when it was before
    and no path listed after index 0 of a valid entry denotes it, under
    any spelling, unless the system refuses to unlink it. *)
Theorem prune_disk_after
    (sys : system) (w : Os.world) (data : value)
    (items : list (string * value)) (r : report) :
  entries data = inr (Some items) →
  (prune sys w data).2 = Some r →
  (∀ path, VStr path ∈ tails items → direct sys path) →
  ∀ e,
    e ∈ existing (world (now (prune sys w data).1))
    ↔ e ∈ existing w
      ∧ ¬ (∃ path, VStr path ∈ tails items ∧ entry sys path = e
                   ∧ e ∉ locked w).
Proof.
  intros He Hr Hdir e.
  pose proof (prune_report_built sys w data r Hr) as Hc.
  destruct (prune_final sys w data) as (Hw & _). cbn zeta in Hw. rewrite Hw.
  pose proof (effect_walk sys w data) as Heff.
  unfold listed in Heff. rewrite He in Heff.
  destruct Heff as (_ & _ & Hsub & Hgone & _ & _ & _ & Hdirect).
  cbn zeta in *. cbn [begin now start world] in *.
  specialize (Hdirect Hc). split.
  - intros Hin. split; [by apply Hsub|].
    intros (path & Hp & <- & Hl). by apply (Hdirect path Hp (Hdir path Hp) Hl).
  - intros [Hin Hno].
    destruct (decide (e ∈ existing (world (now (final (walk sys w data))))))
      as [|Hout]; [done|].
    destruct (Hgone e Hin Hout) as (path & Hp & Hpe & Hl).
    destruct Hno. by exists path.
Qed.

Lemma prune_disk_after_witness :
  "a.jpg" ∈ existing (world (now (prune laptop desk (report_of respelled)).1))
  ↔ "a.jpg" ∈ existing desk
    ∧ ¬ (∃ path, VStr path ∈ tails respelled ∧ entry laptop path = "a.jpg"
                 ∧ "a.jpg" ∉ locked desk).
Proof.
  apply (prune_disk_after laptop desk (report_of respelled) respelled
           (Report 2 [("fp1", [VStr "a.jpg"]); ("fp2", [VStr "x.jpg"])])).
  - reflexivity.
  - vm_compute. reflexivity.
  - intros path Hp. unfold tails, respelled in Hp. cbn in Hp.
    repeat (apply elem_of_cons in Hp as [[= ->]|Hp]; [by vm_compute|]).
    by apply elem_of_nil in Hp.
Defined.

End ScriptClaims.


(** ** [calculate_md5] on any terminal *)
Section TerminalFacts.
Import Io PyDict DuplicateImageFinder Sample Machine.

Lemma calculate_md5_digest fs file_path :
  DuplicateImageFinder.calculate_md5 fs file_path
  = match Terminal.digest fs file_path with
    | inr md5_value => ((Some md5_value, file_path), [])
    | inl e => ((None, file_path), [MsgMd5Failed file_path e])
    end.
Proof. reflexivity. Qed.

Lemma digest_cases fs file_path :
  Terminal.digest fs file_path
  = match fs !! file_path with
    | None => inl FileNotFoundError
    | Some Directory => inl IsADirectoryError
    | Some (Unopenable e) => inl e
    | Some (Regular f) =>
        if intact f then inr (Hashlib.md5_hex (contents f))
        else inl (if may_read f then OSError_EIO else PermissionError)
    end.
Proof.
  pose proof (calculate_md5_cases fs file_path) as H.
  rewrite calculate_md5_digest in H.
  destruct (Terminal.digest fs file_path) as [e|md5_value];
    destruct (fs !! file_path) as [[|f|e']|]; try congruence.
  - destruct (may_read f) eqn:Hr, (intact f) eqn:Hi; try congruence.
    unfold intact in Hi. by rewrite Hr in Hi.
  - destruct (may_read f) eqn:Hr, (intact f) eqn:Hi; try congruence.
Qed.

(** X6: what [calculate_md5] does for each path.  It returns the MD5 of
    the content, and prints nothing, exactly for a regular file that can
    be opened and read to its end.  For any other path the handler
    prints the path with the error that [open] or [read] raised and
    returns [None], when the terminal can encode the path; when it
    cannot, that print raises and [calculate_md5] raises
    [UnicodeEncodeError] instead of returning.  On a terminal that shows
    the path it is [calculate_md5] of the plain machine. *)
Theorem calculate_md5_outcome
    (sys : Posix.system) (fs : gmap string node) (file_path : string) :
  Terminal.calculate_md5 sys fs file_path
  = match fs !! file_path with
    | Some (Regular f) =>
        if intact f
        then inr ((Some (Hashlib.md5_hex (contents f)), file_path), [])
        else Terminal.failed sys file_path
               (if may_read f then OSError_EIO else PermissionError)
    | Some Directory => Terminal.failed sys file_path IsADirectoryError
    | Some (Unopenable e) => Terminal.failed sys file_path e
    | None => Terminal.failed sys file_path FileNotFoundError
    end
  ∧ (Posix.shows sys (VStr file_path) = true →
     Terminal.calculate_md5 sys fs file_path
     = inr (DuplicateImageFinder.calculate_md5 fs file_path))
  ∧ (Posix.shows sys (VStr file_path) = false →
     fingerprint fs file_path = None →
     Terminal.calculate_md5 sys fs file_path = inl UnicodeEncodeError).
Proof.
  unfold Terminal.calculate_md5, fingerprint, outcome.
  rewrite calculate_md5_digest, digest_cases. split; [|split].
  - destruct (fs !! file_path) as [[|f|e]|]; try done. by destruct (intact f).
  - intros Hs. unfold Terminal.failed. rewrite Hs.
    destruct (fs !! file_path) as [[|f|e]|]; try done. by destruct (intact f).
  - intros Hs. unfold Terminal.failed. rewrite Hs.
    destruct (fs !! file_path) as [[|f|e]|]; try done. by destruct (intact f).
Qed.

Example calculate_md5_raises :
  Terminal.calculate_md5 laptop sample_fs odd_name = inl UnicodeEncodeError
  ∧ Terminal.calculate_md5 laptop sample_fs "e.bmp"
    = inr ((None, "e.bmp"), [MsgMd5Failed "e.bmp" FileNotFoundError])
  ∧ Terminal.calculate_md5 laptop
      (<[odd_name := Regular picture]> sample_fs) odd_name
    = inr ((Some "7aaa7dec709fa4fa82f3746abfd80bdb", odd_name), []).
Proof. vm_compute. repeat split. Qed.

End TerminalFacts.
